(** * CHORNEX: the resilient news-acquisition pipeline

    A shallow embedding of [services/geminiService.ts] (the version with the
    configuration check, and the later version with the OpenAI fallback) and
    of the state update of [App.tsx], together with the part of the
    JavaScript runtime these functions rely on: strings of UTF-16 code units,
    JSON values, [JSON.parse] / [JSON.stringify], property access, the
    coercions [ToNumber] / [ToString], [localStorage], [console], the clock.

    Modelling conventions
    - a JavaScript string is the list of its UTF-16 code units ([list N]);
    - a number is [NaN], an infinity, or an exact decimal [m * 10^e]:
      IEEE-754 rounding is not represented;
    - an exception is a [Throw] completion; [try]/[catch] is [try_catch];
    - the outside world (storage, console, clock, trace of provider calls)
      is threaded through the monad [M]; the answers of the two providers are
      oracles of the environment: a call always settles, with a value or
      with an exception. *)

From Stdlib Require Import ZArith NArith List String Ascii Bool Lia.
From stdpp Require Import base option list gmap.
Import ListNotations.

Set Default Proof Using "Type".

(* ================================================================== *)
(** ** Strings of UTF-16 code units *)
(* ================================================================== *)

Abbreviation jsstring := (list N).

(** An ASCII literal of the source, as a JavaScript string. *)
Definition js (s : string) : jsstring :=
  List.map N_of_ascii (list_ascii_of_string s).

Definition jsstring_eqb (a b : jsstring) : bool := bool_decide (a = b).

Fixpoint is_prefix (p s : jsstring) : bool :=
  match p, s with
  | [], _ => true
  | _ :: _, [] => false
  | a :: p', b :: s' => N.eqb a b && is_prefix p' s'
  end.

(** [s.replace(/pat/g, '')] for a literal pattern: every match, scanning from
    the left, is deleted; [skip] counts the code units of the current match
    that are still to be dropped. *)
Fixpoint remove_all_from (pat : jsstring) (skip : nat) (s : jsstring) : jsstring :=
  match s with
  | [] => []
  | c :: r =>
      match skip with
      | S k => remove_all_from pat k r
      | O =>
          if is_prefix pat s
          then remove_all_from pat (Nat.pred (List.length pat)) r
          else c :: remove_all_from pat O r
      end
  end.

Definition remove_all (pat s : jsstring) : jsstring :=
  match pat with
  | [] => s
  | _ => remove_all_from pat O s
  end.

(** WhiteSpace and LineTerminator code points, as removed by
    [String.prototype.trim] and skipped by the numeric-string grammar. *)
Definition is_js_space (c : N) : bool :=
  ((9 <=? c) && (c <=? 13) || (c =? 32) || (c =? 160) || (c =? 5760)
   || (8192 <=? c) && (c <=? 8202) || (c =? 8232) || (c =? 8233)
   || (c =? 8239) || (c =? 8287) || (c =? 12288) || (c =? 65279))%N.

Fixpoint trim_start (s : jsstring) : jsstring :=
  match s with
  | c :: r => if is_js_space c then trim_start r else s
  | [] => []
  end.

Definition trim (s : jsstring) : jsstring :=
  List.rev (trim_start (List.rev (trim_start s))).

(* ================================================================== *)
(** ** Numbers and values *)
(* ================================================================== *)

(** [Dec m e] is the number [m * 10^e]. *)
Inductive number : Type :=
| NaN
| PosInf
| NegInf
| Dec (m e : Z).

Definition int (z : Z) : number := Dec z 0.

#[warnings="-register-all"]
Inductive jsval : Type :=
| JUndefined
| JNull
| JBool (b : bool)
| JNum (n : number)
| JStr (s : jsstring)
| JArr (l : list jsval)
| JObj (ps : list (jsstring * jsval)).

(** The error objects that are thrown. *)
Inductive exn : Type :=
| SyntaxError (message : jsstring)
| TypeError (message : jsstring)
| Error (message : jsstring).

Definition message_of (e : exn) : jsstring :=
  match e with SyntaxError m | TypeError m | Error m => m end.

(** Completion of an evaluation: a value, or a thrown exception. *)
Inductive completion (A : Type) : Type :=
| Normal (a : A)
| Throw (e : exn).
Arguments Normal {A} a.
Arguments Throw {A} e.

Definition cbind {A B} (c : completion A) (k : A -> completion B) : completion B :=
  match c with
  | Normal a => k a
  | Throw e => Throw e
  end.

Notation "x <-- c ; k" := (cbind c (fun x => k))
  (at level 100, c at next level, right associativity).

(** *** Digits *)

Definition digit_of (c : N) : option Z :=
  if ((48 <=? c) && (c <=? 57))%N then Some (Z.of_N c - 48)%Z else None.

Definition is_digit (c : N) : bool :=
  match digit_of c with Some _ => true | None => false end.

(** Decimal digits of a natural number, most significant first; [fuel]
    bounds the number of digits. *)
Fixpoint digits_fuel (fuel : nat) (n : N) (acc : jsstring) : jsstring :=
  match fuel with
  | O => acc
  | S f =>
      let acc' := (48 + n mod 10)%N :: acc in
      if (n <? 10)%N then acc' else digits_fuel f (n / 10)%N acc'
  end.

Definition digits (n : N) : jsstring :=
  digits_fuel (S (N.to_nat (N.log2 n))) n [].

Definition value_of_digits (ds : jsstring) : Z :=
  fold_left (fun acc c => acc * 10 + (Z.of_N c - 48))%Z ds 0%Z.

(* ================================================================== *)
(** ** Objects: ordered own properties *)
(* ================================================================== *)

(** An array index is a canonical numeric key below [2^32 - 1]; ordinary
    objects list such keys first, in ascending order, then the other keys in
    creation order. *)
Definition array_index (k : jsstring) : option N :=
  match k with
  | [] => None
  | c :: r =>
      if forallb is_digit k && negb ((c =? 48)%N && negb (Nat.eqb (List.length r) 0))
      then let v := Z.to_N (value_of_digits k) in
           if (v <? 4294967295)%N then Some v else None
      else None
  end.

Section Props.
Context {V : Type}.

Fixpoint lookup_prop (k : jsstring) (ps : list (jsstring * V)) : option V :=
  match ps with
  | [] => None
  | (k', v) :: r => if jsstring_eqb k k' then Some v else lookup_prop k r
  end.

Fixpoint replace_prop (k : jsstring) (v : V) (ps : list (jsstring * V))
  : list (jsstring * V) :=
  match ps with
  | [] => []
  | (k', v') :: r =>
      if jsstring_eqb k k' then (k', v) :: r else (k', v') :: replace_prop k v r
  end.

(** Position of a new index key [i]: before the first key that is not an
    index or is a larger index. *)
Fixpoint insert_index (i : N) (k : jsstring) (v : V) (ps : list (jsstring * V))
  : list (jsstring * V) :=
  match ps with
  | [] => [(k, v)]
  | (k', v') :: r =>
      match array_index k' with
      | Some j => if (j <? i)%N then (k', v') :: insert_index i k v r
                  else (k, v) :: ps
      | None => (k, v) :: ps
      end
  end.

(** [o[k] = v] on an ordinary object (CreateDataProperty). *)
Definition set_prop (ps : list (jsstring * V)) (k : jsstring) (v : V)
  : list (jsstring * V) :=
  match lookup_prop k ps with
  | Some _ => replace_prop k v ps
  | None =>
      match array_index k with
      | Some i => insert_index i k v ps
      | None => ps ++ [(k, v)]
      end
  end.

Definition object_of_props (ps : list (jsstring * V)) : list (jsstring * V) :=
  fold_left (fun o kv => set_prop o (fst kv) (snd kv)) ps [].
End Props.

(* ================================================================== *)
(** ** Coercions *)
(* ================================================================== *)

Fixpoint drop_zeros (ds : jsstring) : jsstring :=
  match ds with
  | c :: r => if (c =? 48)%N then drop_zeros r else ds
  | [] => []
  end.

Definition strip_trailing_zeros (ds : jsstring) : jsstring :=
  List.rev (drop_zeros (List.rev ds)).

Definition zeros (n : nat) : jsstring := List.repeat 48%N n.

(** Number::toString in radix 10, for a positive [m * 10^e]: with [s] the
    digits of the significand without trailing zeros, [k] their count and [n]
    the position of the decimal point. *)
Definition positive_to_string (m : N) (e : Z) : jsstring :=
  let all := digits m in
  let s := strip_trailing_zeros all in
  let k := Z.of_nat (List.length s) in
  let n := (Z.of_nat (List.length all) + e)%Z in
  if ((k <=? n) && (n <=? 21))%Z then
    s ++ zeros (Z.to_nat (n - k))
  else if ((0 <? n) && (n <=? 21))%Z then
    List.firstn (Z.to_nat n) s ++ js "." ++ List.skipn (Z.to_nat n) s
  else if ((-6 <? n) && (n <=? 0))%Z then
    js "0." ++ zeros (Z.to_nat (- n)) ++ s
  else
    let ex := (n - 1)%Z in
    let sign := if (0 <=? ex)%Z then js "+" else js "-" in
    let mant := match s with
                | [d] => [d]
                | d :: r => d :: js "." ++ r
                | [] => []
                end in
    mant ++ js "e" ++ sign ++ digits (Z.abs_N ex).

Definition number_to_string (x : number) : jsstring :=
  match x with
  | NaN => js "NaN"
  | PosInf => js "Infinity"
  | NegInf => js "-Infinity"
  | Dec m e =>
      match m with
      | Z0 => js "0"
      | Zpos p => positive_to_string (Npos p) e
      | Zneg p => js "-" ++ positive_to_string (Npos p) e
      end
  end.

Definition cannot_convert : exn :=
  TypeError (js "Cannot convert object to primitive value").

Fixpoint join_with (sep : jsstring) (parts : list jsstring) : jsstring :=
  match parts with
  | [] => []
  | [p] => p
  | p :: r => p ++ sep ++ join_with sep r
  end.

(** ToString on the values that [JSON.parse] can produce.  An array is joined
    with commas ([undefined] and [null] elements give the empty string); a
    plain object gives ["[object Object]"], unless it has an own property
    [toString]: such a property is never callable here, and neither
    [valueOf] can return a primitive, so the conversion throws. *)
Fixpoint to_string (v : jsval) : completion jsstring :=
  match v with
  | JUndefined => Normal (js "undefined")
  | JNull => Normal (js "null")
  | JBool true => Normal (js "true")
  | JBool false => Normal (js "false")
  | JNum x => Normal (number_to_string x)
  | JStr s => Normal s
  | JArr l =>
      let fix elems (l : list jsval) : completion (list jsstring) :=
        match l with
        | [] => Normal []
        | x :: r =>
            let sx := match x with
                      | JUndefined | JNull => Normal []
                      | _ => to_string x
                      end in
            match sx with
            | Throw e => Throw e
            | Normal a =>
                match elems r with
                | Throw e => Throw e
                | Normal b => Normal (a :: b)
                end
            end
        end in
      match elems l with
      | Throw e => Throw e
      | Normal parts => Normal (join_with (js ",") parts)
      end
  | JObj ps =>
      match lookup_prop (js "toString") ps with
      | Some _ => Throw cannot_convert
      | None => Normal (js "[object Object]")
      end
  end.

(** *** Numeric strings (StringToNumber) *)

Fixpoint span_digits (s : jsstring) : jsstring * jsstring :=
  match s with
  | c :: r => if is_digit c then let '(d, t) := span_digits r in (c :: d, t)
              else ([], s)
  | [] => ([], [])
  end.

Definition radix_digit (radix : Z) (c : N) : option Z :=
  let v := if ((48 <=? c) && (c <=? 57))%N then Some (Z.of_N c - 48)%Z
           else if ((97 <=? c) && (c <=? 102))%N then Some (Z.of_N c - 87)%Z
           else if ((65 <=? c) && (c <=? 70))%N then Some (Z.of_N c - 55)%Z
           else None in
  match v with
  | Some d => if (d <? radix)%Z then Some d else None
  | None => None
  end.

Fixpoint radix_value (radix : Z) (s : jsstring) (acc : Z) : option Z :=
  match s with
  | [] => Some acc
  | c :: r =>
      match radix_digit radix c with
      | Some d => radix_value radix r (acc * radix + d)%Z
      | None => None
      end
  end.

(** ExponentPart: [e] or [E], an optional sign, at least one digit; the text
    must end there. *)
Definition exponent_part (s : jsstring) : option Z :=
  match s with
  | [] => Some 0%Z
  | c :: r =>
      if ((c =? 101) || (c =? 69))%N then
        let '(neg, r1) := match r with
                          | 45%N :: t => (true, t)
                          | 43%N :: t => (false, t)
                          | _ => (false, r)
                          end in
        match span_digits r1 with
        | ((_ :: _) as ds, []) =>
            Some (if neg then - value_of_digits ds else value_of_digits ds)%Z
        | _ => None
        end
      else None
  end.

Definition unsigned_decimal (neg : bool) (s : jsstring) : number :=
  if jsstring_eqb s (js "Infinity") then (if neg then NegInf else PosInf)
  else
    let '(ip, r1) := span_digits s in
    let '(fp, r2) := match r1 with
                     | 46%N :: t => span_digits t
                     | _ => ([], r1)
                     end in
    match ip ++ fp with
    | [] => NaN
    | ds =>
        match exponent_part r2 with
        | Some ex =>
            let m := value_of_digits ds in
            Dec (if neg then - m else m) (ex - Z.of_nat (List.length fp))
        | None => NaN
        end
    end.

Definition string_to_number (s : jsstring) : number :=
  match trim s with
  | [] => int 0
  | 48%N :: x :: ((_ :: _) as r) =>
      let radix := if ((x =? 120) || (x =? 88))%N then Some 16%Z
                   else if ((x =? 111) || (x =? 79))%N then Some 8%Z
                   else if ((x =? 98) || (x =? 66))%N then Some 2%Z
                   else None in
      match radix with
      | Some b => match radix_value b r 0 with
                  | Some v => int v
                  | None => NaN
                  end
      | None => unsigned_decimal false (trim s)
      end
  | 45%N :: r => unsigned_decimal true r
  | 43%N :: r => unsigned_decimal false r
  | t => unsigned_decimal false t
  end.

(** ToNumber.  An object or array is first converted to a primitive with hint
    number: [valueOf] gives back the object, so the result is that of
    [to_string]. *)
Definition to_number (v : jsval) : completion number :=
  match v with
  | JUndefined => Normal NaN
  | JNull => Normal (int 0)
  | JBool b => Normal (int (if b then 1 else 0))
  | JNum x => Normal x
  | JStr s => Normal (string_to_number s)
  | JArr _ | JObj _ =>
      match to_string v with
      | Normal s => Normal (string_to_number s)
      | Throw e => Throw e
      end
  end.

(** ToBoolean. *)
Definition truthy (v : jsval) : bool :=
  match v with
  | JUndefined | JNull => false
  | JBool b => b
  | JNum NaN => false
  | JNum (Dec m _) => negb (m =? 0)%Z
  | JNum _ => true
  | JStr s => negb (Nat.eqb (List.length s) 0)
  | JArr _ | JObj _ => true
  end.

(** [v === 'literal'] *)
Definition strict_equals_string (v : jsval) (s : jsstring) : bool :=
  match v with
  | JStr t => jsstring_eqb t s
  | _ => false
  end.

(** [x - y] when [x] is an integer, and [d < bound] for an integer bound. *)
Definition int_minus (x : Z) (y : number) : number :=
  match y with
  | NaN => NaN
  | PosInf => NegInf
  | NegInf => PosInf
  | Dec m e =>
      if (0 <=? e)%Z then Dec (x - m * 10 ^ e) 0
      else Dec (x * 10 ^ (- e) - m) e
  end.

Definition less_than_int (d : number) (bound : Z) : bool :=
  match d with
  | NaN | PosInf => false
  | NegInf => true
  | Dec m e =>
      if (0 <=? e)%Z then (m * 10 ^ e <? bound)%Z
      else (m <? bound * 10 ^ (- e))%Z
  end.

(* ================================================================== *)
(** ** JSON.stringify *)
(* ================================================================== *)

Definition hex_digit (d : N) : N := if (d <? 10)%N then (48 + d)%N else (87 + d)%N.

(** A backslash, [u], and four lower-case hexadecimal digits. *)
Definition unicode_escape (c : N) : jsstring :=
  [92; 117; hex_digit ((c / 4096) mod 16); hex_digit ((c / 256) mod 16);
   hex_digit ((c / 16) mod 16); hex_digit (c mod 16)]%N.

Definition is_high_surrogate (c : N) : bool := ((55296 <=? c) && (c <=? 56319))%N.
Definition is_low_surrogate (c : N) : bool := ((56320 <=? c) && (c <=? 57343))%N.

Definition quote_unit (c : N) : jsstring :=
  if (c =? 8)%N then [92; 98]%N
  else if (c =? 9)%N then [92; 116]%N
  else if (c =? 10)%N then [92; 110]%N
  else if (c =? 12)%N then [92; 102]%N
  else if (c =? 13)%N then [92; 114]%N
  else if (c =? 34)%N then [92; 34]%N
  else if (c =? 92)%N then [92; 92]%N
  else if (c <? 32)%N || is_low_surrogate c then unicode_escape c
  else [c].

(** QuoteJSONString without the enclosing quotes: a well-formed surrogate
    pair is copied, a lone surrogate is escaped. *)
Fixpoint quote_body (s : jsstring) : jsstring :=
  match s with
  | [] => []
  | c :: r =>
      if is_high_surrogate c then
        match r with
        | d :: r' =>
            if is_low_surrogate d then c :: d :: quote_body r'
            else unicode_escape c ++ quote_body r
        | [] => unicode_escape c
        end
      else quote_unit c ++ quote_body r
  end.

Definition quote (s : jsstring) : jsstring := 34%N :: quote_body s ++ [34%N].

(** SerializeJSONProperty: [None] stands for [undefined] (the property is
    left out of an object, and is [null] in an array). *)
Fixpoint stringify (v : jsval) : option jsstring :=
  match v with
  | JUndefined => None
  | JNull => Some (js "null")
  | JBool true => Some (js "true")
  | JBool false => Some (js "false")
  | JNum (Dec m e) => Some (number_to_string (Dec m e))
  | JNum _ => Some (js "null")
  | JStr s => Some (quote s)
  | JArr l =>
      let fix elems (l : list jsval) : list jsstring :=
        match l with
        | [] => []
        | x :: r => match stringify x with
                    | Some t => t
                    | None => js "null"
                    end :: elems r
        end in
      Some (js "[" ++ join_with (js ",") (elems l) ++ js "]")
  | JObj ps =>
      let fix members (ps : list (jsstring * jsval)) : list jsstring :=
        match ps with
        | [] => []
        | (k, x) :: r => match stringify x with
                         | Some t => (quote k ++ js ":" ++ t) :: members r
                         | None => members r
                         end
        end in
      Some (js "{" ++ join_with (js ",") (members ps) ++ js "}")
  end.

(** [JSON.stringify(v)]: a string, or [undefined]. *)
Definition JSON_stringify (v : jsval) : jsval :=
  match stringify v with
  | Some s => JStr s
  | None => JUndefined
  end.

(* ================================================================== *)
(** ** JSON.parse *)
(* ================================================================== *)

Inductive parsed (A : Type) : Type :=
| POk (a : A) (rest : jsstring)
| PSyntax
| PFuel.
Arguments POk {A} a rest.
Arguments PSyntax {A}.
Arguments PFuel {A}.

Definition is_json_ws (c : N) : bool :=
  ((c =? 32) || (c =? 9) || (c =? 10) || (c =? 13))%N.

Fixpoint skip_ws (s : jsstring) : jsstring :=
  match s with
  | c :: r => if is_json_ws c then skip_ws r else s
  | [] => []
  end.

Definition simple_escape (e : N) : option N :=
  if (e =? 34)%N then Some 34%N
  else if (e =? 92)%N then Some 92%N
  else if (e =? 47)%N then Some 47%N
  else if (e =? 98)%N then Some 8%N
  else if (e =? 102)%N then Some 12%N
  else if (e =? 110)%N then Some 10%N
  else if (e =? 114)%N then Some 13%N
  else if (e =? 116)%N then Some 9%N
  else None.

Definition hex4 (a b c d : N) : option N :=
  match radix_digit 16 a, radix_digit 16 b, radix_digit 16 c, radix_digit 16 d with
  | Some x, Some y, Some z, Some w => Some (Z.to_N (((x * 16 + y) * 16 + z) * 16 + w))
  | _, _, _, _ => None
  end.

(** The characters of a JSON string after its opening quote; [acc] holds the
    code units read so far, last first. *)
Fixpoint parse_string_body (s acc : jsstring) : option (jsstring * jsstring) :=
  match s with
  | [] => None
  | c :: r =>
      if (c =? 34)%N then Some (List.rev acc, r)
      else if (c =? 92)%N then
        match r with
        | [] => None
        | e :: r1 =>
            if (e =? 117)%N then
              match r1 with
              | h1 :: h2 :: h3 :: h4 :: r2 =>
                  match hex4 h1 h2 h3 h4 with
                  | Some u => parse_string_body r2 (u :: acc)
                  | None => None
                  end
              | _ => None
              end
            else
              match simple_escape e with
              | Some u => parse_string_body r1 (u :: acc)
              | None => None
              end
        end
      else if (c <? 32)%N then None
      else parse_string_body r (c :: acc)
  end.

(** [Some r] when [s] is [c] followed by [r]. *)
Definition starts_with (c : N) (s : jsstring) : option jsstring :=
  match s with
  | x :: r => if (x =? c)%N then Some r else None
  | [] => None
  end.

Definition int_part_ok (ip : jsstring) : bool :=
  match ip with
  | [] => false
  | [_] => true
  | d :: _ => negb (d =? 48)%N
  end.

(** frac: a point and at least one digit. *)
Definition parse_fraction (s : jsstring) : option (jsstring * jsstring) :=
  match starts_with 46 s with
  | Some t => match span_digits t with
              | ([], _) => None
              | (fp, r) => Some (fp, r)
              end
  | None => Some ([], s)
  end.

(** exp: [e] or [E], an optional sign, at least one digit. *)
Definition parse_exponent (s : jsstring) : option (Z * jsstring) :=
  match s with
  | c :: t =>
      if ((c =? 101) || (c =? 69))%N then
        let '(neg, t1) := match starts_with 45 t with
                          | Some u => (true, u)
                          | None => match starts_with 43 t with
                                    | Some u => (false, u)
                                    | None => (false, t)
                                    end
                          end in
        match span_digits t1 with
        | ([], _) => None
        | (ds, r) => Some ((if neg then - value_of_digits ds
                            else value_of_digits ds)%Z, r)
        end
      else Some (0%Z, s)
  | [] => Some (0%Z, s)
  end.

(** A JSON number: [-]? int frac? exp?, where int has no leading zero. *)
Definition parse_number (s : jsstring) : option (number * jsstring) :=
  let '(neg, s1) := match starts_with 45 s with
                    | Some t => (true, t)
                    | None => (false, s)
                    end in
  let '(ip, s2) := span_digits s1 in
  if int_part_ok ip then
    match parse_fraction s2 with
    | Some (fp, s3) =>
        match parse_exponent s3 with
        | Some (e, s4) =>
            let m := value_of_digits (ip ++ fp) in
            Some (Dec (if neg then - m else m) (e - Z.of_nat (List.length fp)), s4)
        | None => None
        end
    | None => None
    end
  else None.

Definition parse_literal (word : jsstring) (v : jsval) (s : jsstring) : parsed jsval :=
  if is_prefix word s then POk v (List.skipn (List.length word) s) else PSyntax.

(** After a value inside brackets: a comma, the closing bracket, or an
    error. *)
Inductive separator : Type :=
| Comma (rest : jsstring)
| Close (rest : jsstring)
| Neither.

Definition separator_of (close : N) (s : jsstring) : separator :=
  match starts_with 44 (skip_ws s) with
  | Some r => Comma r
  | None => match starts_with close (skip_ws s) with
            | Some r => Close r
            | None => Neither
            end
  end.

(** The value grammar.  A member whose key is already present overwrites the
    earlier value; [fuel] bounds the depth of the calls. *)
Fixpoint parse_value (fuel : nat) (s : jsstring) : parsed jsval :=
  match fuel with
  | O => PFuel
  | S f =>
      match skip_ws s with
      | [] => PSyntax
      | c :: r =>
          if (c =? 123)%N then
            match starts_with 125 (skip_ws r) with
            | Some r' => POk (JObj []) r'
            | None => parse_members f r []
            end
          else if (c =? 91)%N then
            match starts_with 93 (skip_ws r) with
            | Some r' => POk (JArr []) r'
            | None => parse_elements f r []
            end
          else if (c =? 34)%N then
            match parse_string_body r [] with
            | Some (str, r') => POk (JStr str) r'
            | None => PSyntax
            end
          else if (c =? 116)%N then parse_literal (js "true") (JBool true) (c :: r)
          else if (c =? 102)%N then parse_literal (js "false") (JBool false) (c :: r)
          else if (c =? 110)%N then parse_literal (js "null") JNull (c :: r)
          else
            match parse_number (c :: r) with
            | Some (x, r') => POk (JNum x) r'
            | None => PSyntax
            end
      end
  end
with parse_elements (fuel : nat) (s : jsstring) (acc : list jsval) : parsed jsval :=
  match fuel with
  | O => PFuel
  | S f =>
      match parse_value f s with
      | POk v r =>
          match separator_of 93 r with
          | Comma r' => parse_elements f r' (v :: acc)
          | Close r' => POk (JArr (List.rev (v :: acc))) r'
          | Neither => PSyntax
          end
      | PSyntax => PSyntax
      | PFuel => PFuel
      end
  end
with parse_members (fuel : nat) (s : jsstring) (acc : list (jsstring * jsval))
  : parsed jsval :=
  match fuel with
  | O => PFuel
  | S f =>
      match starts_with 34 (skip_ws s) with
      | Some r =>
          match parse_string_body r [] with
          | Some (k, r1) =>
              match starts_with 58 (skip_ws r1) with
              | Some r2 =>
                  match parse_value f r2 with
                  | POk v r3 =>
                      match separator_of 125 r3 with
                      | Comma r4 => parse_members f r4 (set_prop acc k v)
                      | Close r4 => POk (JObj (set_prop acc k v)) r4
                      | Neither => PSyntax
                      end
                  | PSyntax => PSyntax
                  | PFuel => PFuel
                  end
              | None => PSyntax
              end
          | None => PSyntax
          end
      | None => PSyntax
      end
  end.

Definition unexpected_token : exn := SyntaxError (js "Unexpected token in JSON").

Definition parse_fuel (s : jsstring) : nat := 2 * List.length s + 2.

(** [JSON.parse(text)]: the value, or a [SyntaxError]. *)
Definition JSON_parse (text : jsstring) : completion jsval :=
  match parse_value (parse_fuel text) text with
  | POk v r => match skip_ws r with
               | [] => Normal v
               | _ => Throw unexpected_token
               end
  | _ => Throw unexpected_token
  end.

(* ================================================================== *)
(** ** Property access and object spread *)
(* ================================================================== *)

Definition cannot_read : exn :=
  TypeError (js "Cannot read properties of undefined or null").

(** [v.k] and [v[k]].  Own properties only, plus [length] and the indices of
    arrays and strings: the program reads no name that the built-in
    prototypes define. *)
Definition Get (v : jsval) (k : jsstring) : completion jsval :=
  match v with
  | JUndefined | JNull => Throw cannot_read
  | JBool _ | JNum _ => Normal JUndefined
  | JObj ps =>
      Normal (match lookup_prop k ps with Some x => x | None => JUndefined end)
  | JArr l =>
      if jsstring_eqb k (js "length") then Normal (JNum (int (Z.of_nat (List.length l))))
      else match array_index k with
           | Some i => Normal (List.nth (N.to_nat i) l JUndefined)
           | None => Normal JUndefined
           end
  | JStr s =>
      if jsstring_eqb k (js "length") then Normal (JNum (int (Z.of_nat (List.length s))))
      else match array_index k with
           | Some i => Normal (match List.nth_error s (N.to_nat i) with
                               | Some c => JStr [c]
                               | None => JUndefined
                               end)
           | None => Normal JUndefined
           end
  end.

(** [v?.k] *)
Definition GetOptional (v : jsval) (k : jsstring) : completion jsval :=
  match v with
  | JUndefined | JNull => Normal JUndefined
  | _ => Get v k
  end.

Fixpoint indexed {A} (f : A -> jsval) (i : N) (l : list A) : list (jsstring * jsval) :=
  match l with
  | [] => []
  | x :: r => (digits i, f x) :: indexed f (N.succ i) r
  end.

(** The own enumerable properties copied by [{...v}]. *)
Definition own_props (v : jsval) : list (jsstring * jsval) :=
  match v with
  | JObj ps => ps
  | JArr l => indexed (fun x => x) 0%N l
  | JStr s => indexed (fun c => JStr [c]) 0%N s
  | _ => []
  end.

(** [{...v, k1: v1, ...}]: the properties of [v], then the listed ones, each
    defined on the new object in turn. *)
Definition spread (v : jsval) (more : list (jsstring * jsval)) : jsval :=
  JObj (object_of_props (own_props v ++ more)).

(* ================================================================== *)
(** ** Dates *)
(* ================================================================== *)

Definition pad (width : nat) (n : Z) : jsstring :=
  let ds := digits (Z.to_N n) in
  zeros (width - List.length ds) ++ ds.

(** [new Date(t).toISOString()] for a time value [t] in milliseconds since
    the epoch (proleptic Gregorian calendar, UTC). *)
Definition toISOString (t : Z) : jsstring :=
  let day := (t / 86400000)%Z in
  let ms := (t mod 86400000)%Z in
  let z := (day + 719468)%Z in
  let era := (z / 146097)%Z in
  let doe := (z - era * 146097)%Z in
  let yoe := ((doe - doe / 1460 + doe / 36524 - doe / 146096) / 365)%Z in
  let doy := (doe - (365 * yoe + yoe / 4 - yoe / 100))%Z in
  let mp := ((5 * doy + 2) / 153)%Z in
  let d := (doy - (153 * mp + 2) / 5 + 1)%Z in
  let m := (if (mp <? 10)%Z then mp + 3 else mp - 9)%Z in
  let y := (yoe + era * 400 + (if (m <=? 2)%Z then 1 else 0))%Z in
  let year := if ((0 <=? y) && (y <=? 9999))%Z then pad 4 y
              else (if (y <? 0)%Z then js "-" else js "+") ++ pad 6 (Z.abs y) in
  year ++ js "-" ++ pad 2 m ++ js "-" ++ pad 2 d ++ js "T"
    ++ pad 2 (ms / 3600000) ++ js ":" ++ pad 2 ((ms / 60000) mod 60) ++ js ":"
    ++ pad 2 ((ms / 1000) mod 60) ++ js "." ++ pad 3 (ms mod 1000) ++ js "Z".

(* ================================================================== *)
(** ** The world, and the monad of effects *)
(* ================================================================== *)

(** types.ts *)
Inductive Language : Type := en | bn.

Definition language_string (l : Language) : jsstring :=
  match l with en => js "en" | bn => js "bn" end.

Inductive Category : Type :=
| world | economy | tech | security | climate | politics | bangladesh | other.

Definition category_string (c : Category) : jsstring :=
  match c with
  | world => js "world" | economy => js "economy" | tech => js "tech"
  | security => js "security" | climate => js "climate"
  | politics => js "politics" | bangladesh => js "bangladesh"
  | other => js "other"
  end.

Record NewsHighlight : Type := mkHighlight {
  headline : jsstring;
  summary : jsstring;
  url : option jsstring;
  category : Category;
  timestamp : jsstring
}.

(** The values interpolated into the prompt template; the fixed wording of
    the template is not represented. *)
Record Prompt : Type := mkPrompt {
  currentTime : jsstring;
  targetLanguage : Language;
  previousContext : jsstring
}.

Inductive LogLevel : Type := LevelLog | LevelWarn | LevelError.

Inductive LogArg : Type :=
| LText (s : jsstring)
| LExn (e : exn).

Record LogEntry : Type := mkLog { level : LogLevel; args : list LogArg }.

Inductive Request : Type :=
| GeminiRequest (p : Prompt)
| OpenAIRequest (p : Prompt).

Record World : Type := mkWorld {
  localStorage : gmap jsstring jsstring;
  console : list LogEntry;
  clock : Z;
  calls : list Request
}.

Definition M (A : Type) : Type := World -> completion A * World.

Definition ret {A} (a : A) : M A := fun w => (Normal a, w).

Definition bind {A B} (m : M A) (k : A -> M B) : M B :=
  fun w => match m w with
           | (Normal a, w') => k a w'
           | (Throw e, w') => (Throw e, w')
           end.

Definition throw {A} (e : exn) : M A := fun w => (Throw e, w).

(** [try { body } catch (e) { handler e }] *)
Definition try_catch {A} (body : M A) (handler : exn -> M A) : M A :=
  fun w => match body w with
           | (Normal a, w') => (Normal a, w')
           | (Throw e, w') => handler e w'
           end.

Definition lift {A} (c : completion A) : M A := fun w => (c, w).

Declare Scope js_scope.
Delimit Scope js_scope with js.
Notation "x <- m ;; k" := (bind m (fun x => k))
  (at level 100, m at next level, right associativity) : js_scope.
Notation "m ;;; k" := (bind m (fun _ => k))
  (at level 100, right associativity) : js_scope.
Open Scope js_scope.

Definition with_storage (f : gmap jsstring jsstring -> gmap jsstring jsstring)
  (w : World) : World :=
  mkWorld (f (localStorage w)) (console w) (clock w) (calls w).

(** [localStorage.getItem(k)]: [None] stands for [null]. *)
Definition getItem (k : jsstring) : M (option jsstring) :=
  fun w => (Normal (localStorage w !! k), w).

(** [localStorage.setItem(k, v)]: the value is stored as a string. *)
Definition setItem (k : jsstring) (v : jsval) : M unit :=
  s <- lift (to_string v) ;;
  fun w => (Normal tt, with_storage (insert k s) w).

Definition removeItem (k : jsstring) : M unit :=
  fun w => (Normal tt, with_storage (delete k) w).

Definition console_write (lv : LogLevel) (a : list LogArg) : M unit :=
  fun w => (Normal tt,
            mkWorld (localStorage w) (console w ++ [mkLog lv a]) (clock w) (calls w)).

(** [Date.now()] *)
Definition Date_now : M Z := fun w => (Normal (clock w), w).

(** A provider call: it is recorded, some time passes, and it either answers
    or fails. *)
Record Outcome (A : Type) : Type := mkOutcome {
  latency : N;
  settled : completion A
}.
Arguments mkOutcome {A} latency settled.
Arguments latency {A} o.
Arguments settled {A} o.

Definition await_call {A} (req : Request) (o : Outcome A) : M A :=
  fun w => (settled o,
            mkWorld (localStorage w) (console w)
                    (clock w + Z.of_N (latency o)) (calls w ++ [req])).

(** The part of the Gemini SDK response that is read. *)
Record GroundingChunk : Type := mkChunk { web : jsval }.
Record GroundingMetadata : Type := mkMetadata {
  groundingChunks : option (list GroundingChunk)
}.
Record Candidate : Type := mkCandidate {
  groundingMetadata : option GroundingMetadata
}.
Record GenerateContentResponse : Type := mkResponse {
  text : option jsstring;
  candidates : option (list Candidate)
}.

(** The response of [fetch]: [ok], the status line, and the body. *)
Record HttpResponse : Type := mkHttp {
  ok : bool;
  status : Z;
  statusText : jsstring;
  body : jsstring
}.

(** The environment of the module: the two credentials injected at build
    time, the instant at which the module was loaded, and the behaviour of
    the two providers (any exception raised while calling a provider or
    while reading its response object is a failed outcome). *)
Record Env : Type := mkEnv {
  API_KEY : option jsstring;
  OPENAI_API_KEY : option jsstring;
  moduleLoadedAt : Z;
  generateContent : Prompt -> Outcome GenerateContentResponse;
  fetch : Prompt -> Outcome HttpResponse
}.

(** Truthiness of an environment variable: defined and not empty. *)
Definition configured (key : option jsstring) : bool :=
  match key with
  | Some (_ :: _) => true
  | _ => false
  end.

(** What [fetchNewsUpdates] resolves to. *)
Record NewsResult : Type := mkResult { data : jsval; sources : jsval }.

(* ================================================================== *)
(** ** services/geminiService.ts: what its versions share *)
(* ================================================================== *)

Definition CACHE_KEY : jsstring := js "chornex_news_cache_v3".

(** Cache valid for 15 minutes. *)
Definition CACHE_DURATION_MS : Z := 15 * 60 * 1000.

Definition highlight_object (h s c t u : string) : jsval :=
  JObj [(js "headline", JStr (js h)); (js "summary", JStr (js s));
        (js "category", JStr (js c)); (js "timestamp", JStr (js t));
        (js "url", JStr (js u))].

Definition FALLBACK_highlights : list jsval :=
  [ highlight_object "System Maintenance: Live Feed Paused"
      "The neural news engine is currently under high load or maintenance. We are serving an archival snapshot while we restore real-time connectivity."
      "tech" "System Message" "#";
    highlight_object "Global Markets Review"
      "Major indices show resilience amidst shifting economic policies. Tech and energy sectors lead the volatility as investors await quarterly reports."
      "economy" "Archived" "#";
    highlight_object "International Cooperation on Climate"
      "New frameworks for carbon reduction are being discussed by G20 nations, aiming for significant milestones by 2030."
      "climate" "Archived" "#";
    highlight_object "Development Update: Bangladesh"
      "Infrastructure projects in major cities continue to progress, with new transport initiatives expected to ease congestion significantly."
      "bangladesh" "Archived" "#" ].

(** Emergency data; [generated_at] is evaluated once, when the module is
    loaded. *)
Definition FALLBACK_DATA (env : Env) : jsval :=
  JObj [(js "generated_at", JStr (toISOString (moduleLoadedAt env)));
        (js "language", JStr (js "en"));
        (js "status", JStr (js "QUOTA_EXCEEDED"));
        (js "highlights", JArr FALLBACK_highlights)].

(** [`${JSON.stringify(v)}`] *)
Definition stringify_text (v : jsval) : jsstring :=
  match stringify v with
  | Some s => s
  | None => js "undefined"
  end.

(** [previousHighlights.map(h => ({ headline: h.headline, category: h.category }))] *)
Definition simplifiedContext (previousHighlights : list NewsHighlight) : jsval :=
  JArr (List.map (fun h => JObj [(js "headline", JStr (headline h));
                                 (js "category", JStr (category_string (category h)))])
                 previousHighlights).

(** The prompt built at instant [now]. *)
Definition prompt_of (language : Language) (previousHighlights : list NewsHighlight)
  (now : Z) : Prompt :=
  mkPrompt (toISOString now) language
           (stringify_text (simplifiedContext previousHighlights)).

(** [response.text || "{}"] *)
Definition text_or_empty_object (response : GenerateContentResponse) : jsstring :=
  match text response with
  | Some ((_ :: _) as t) => t
  | _ => js "{}"
  end.

(** [text.replace(/```json/g, '').replace(/```/g, '').trim()] *)
Definition cleanText (t : jsstring) : jsstring :=
  trim (remove_all (js "```") (remove_all (js "```json") t)).

(** [response.candidates?.[0]?.groundingMetadata?.groundingChunks || []] *)
Definition groundingChunksOf (response : GenerateContentResponse) : list GroundingChunk :=
  match candidates response with
  | Some (c :: _) =>
      match groundingMetadata c with
      | Some md => match groundingChunks md with
                   | Some chunks => chunks
                   | None => []
                   end
      | None => []
      end
  | _ => []
  end.

(** A property of a value already known to be neither [undefined] nor
    [null]. *)
Definition GetV (v : jsval) (k : jsstring) : jsval :=
  match Get v k with
  | Normal x => x
  | Throw _ => JUndefined
  end.

(** [web && web.uri && web.title] *)
Definition has_uri_and_title (w : jsval) : bool :=
  truthy w && truthy (GetV w (js "uri")) && truthy (GetV w (js "title")).

(** [groundingChunks.map(chunk => chunk.web).filter(...)] *)
Definition sourcesOf (response : GenerateContentResponse) : jsval :=
  JArr (List.filter has_uri_and_title (List.map web (groundingChunksOf response))).

(** The record written under [CACHE_KEY]. *)
Definition cache_record (d srcs : jsval) (now : Z) (language : Language) : jsval :=
  JObj [(js "data", d); (js "sources", srcs); (js "timestamp", JNum (int now));
        (js "lang", JStr (language_string language))].

Definition nonempty (cached : option jsstring) : option jsstring :=
  match cached with
  | Some ((_ :: _) as c) => Some c
  | _ => None
  end.

(** The first [try] block: the stored record is parsed and destructured, and
    is served when it is fresh and was stored for the requested language. *)
Definition serve_if_fresh (language : Language) (cached : jsstring)
  : M (option NewsResult) :=
  entry <- lift (JSON_parse cached) ;;
  d <- lift (Get entry (js "data")) ;;
  srcs <- lift (Get entry (js "sources")) ;;
  ts <- lift (Get entry (js "timestamp")) ;;
  lang <- lift (Get entry (js "lang")) ;;
  now <- Date_now ;;
  t <- lift (to_number ts) ;;
  let isFresh := less_than_int (int_minus now t) CACHE_DURATION_MS in
  if isFresh && strict_equals_string lang (language_string language) then
    console_write LevelLog [LText (js "Serving fresh cache to preserve API quota")] ;;;
    ret (Some (mkResult d srcs))
  else ret None.

(** Step 1 of both cached versions. *)
Definition check_cache (language : Language) (cached : option jsstring)
  : M (option NewsResult) :=
  match nonempty cached with
  | Some c =>
      try_catch (serve_if_fresh language c)
                (fun e => removeItem CACHE_KEY ;;; ret None)
  | None => ret None
  end.

(** The stale record, marked [QUOTA_EXCEEDED]; a record that cannot be read
    is ignored. *)
Definition serve_stale (cached : option jsstring) : M (option NewsResult) :=
  match nonempty cached with
  | Some c =>
      try_catch
        (entry <- lift (JSON_parse c) ;;
         d <- lift (Get entry (js "data")) ;;
         srcs <- lift (Get entry (js "sources")) ;;
         ret (Some (mkResult (spread d [(js "status", JStr (js "QUOTA_EXCEEDED"))]) srcs)))
        (fun e => ret None)
  | None => ret None
  end.

(* ================================================================== *)
(** ** The version with the configuration check (single provider) *)
(* ================================================================== *)

Module Service.

(** The error highlight for a missing configuration. *)
Definition configHighlight : jsval :=
  highlight_object "Configuration Required"
    "The News Engine API Key is missing. Please configure the API_KEY environment variable in your deployment settings."
    "security" "Setup Error" "#".

(** [{ ...FALLBACK_DATA }], then [highlights] is assigned a new array. *)
Definition configErrorData (env : Env) : jsval :=
  spread (FALLBACK_DATA env) [(js "highlights", JArr [configHighlight])].

Definition invalid_format : exn :=
  Error (js "Invalid response format from news engine.").

(** The inner [try] of the provider path: the text is cleaned and parsed. *)
Definition normalize (response : GenerateContentResponse) : M jsval :=
  let t := text_or_empty_object response in
  try_catch (lift (JSON_parse (cleanText t)))
            (fun e => console_write LevelError [LText (js "Failed to parse JSON"); LText t] ;;;
                      throw invalid_format).

(** The body of the outer [try]. *)
Definition acquire_primary (env : Env) (language : Language) (prompt : Prompt)
  : M NewsResult :=
  response <- await_call (GeminiRequest prompt) (generateContent env prompt) ;;
  parsedData <- normalize response ;;
  let srcs := sourcesOf response in
  now <- Date_now ;;
  setItem CACHE_KEY (JSON_stringify (cache_record parsedData srcs now language)) ;;;
  ret (mkResult parsedData srcs).

(** The outer [catch]: cache first, then the static data. *)
Definition fail_safe (env : Env) (error : exn) : M NewsResult :=
  console_write LevelError [LText (js "News fetch error details:"); LExn error] ;;;
  cached <- getItem CACHE_KEY ;;
  stale <- serve_stale cached ;;
  match stale with
  | Some r => ret r
  | None => ret (mkResult (FALLBACK_DATA env) (JArr []))
  end.

Definition fetchNewsUpdates (env : Env) (language : Language)
  (previousHighlights : list NewsHighlight) : M NewsResult :=
  cached <- getItem CACHE_KEY ;;
  fresh <- check_cache language cached ;;
  match fresh with
  | Some r => ret r
  | None =>
      if negb (configured (API_KEY env)) then
        console_write LevelWarn [LText (js "API Key is missing.")] ;;;
        ret (mkResult (configErrorData env) (JArr []))
      else
        t <- Date_now ;;
        let prompt := prompt_of language previousHighlights t in
        try_catch (acquire_primary env language prompt) (fail_safe env)
  end.

End Service.

(* ================================================================== *)
(** ** The version with the OpenAI fallback *)
(* ================================================================== *)

Module ServiceWithFallback.

(** After [response.json()]: the text of the first choice (or ["{}"]) is
    parsed in turn. *)
Definition openai_payload (body : jsstring) : completion jsval :=
  d <-- JSON_parse body ;
  choices <-- Get d (js "choices") ;
  first <-- Get choices (js "0") ;
  message <-- GetOptional first (js "message") ;
  content <-- GetOptional message (js "content") ;
  s <-- to_string (if truthy content then content else JStr (js "{}")) ;
  JSON_parse s.

Definition fetchOpenAIFallback (env : Env) (prompt : Prompt) (language : Language)
  : M jsval :=
  if negb (configured (OPENAI_API_KEY env)) then
    throw (Error (js "OpenAI API Key not configured"))
  else
    console_write LevelLog [LText (js "Attempting OpenAI Fallback...")] ;;;
    response <- await_call (OpenAIRequest prompt) (fetch env prompt) ;;
    if negb (ok response) then
      throw (Error (js "OpenAI Error: " ++ number_to_string (int (status response))
                      ++ js " " ++ statusText response))
    else lift (openai_payload (body response)).

(** Step 3: the body of the outer [try]. *)
Definition acquire_primary (env : Env) (language : Language) (prompt : Prompt)
  : M NewsResult :=
  if negb (configured (API_KEY env)) then
    throw (Error (js "Gemini API Key missing"))
  else
    response <- await_call (GeminiRequest prompt) (generateContent env prompt) ;;
    parsedData <- lift (JSON_parse (cleanText (text_or_empty_object response))) ;;
    let srcs := sourcesOf response in
    now <- Date_now ;;
    setItem CACHE_KEY (JSON_stringify (cache_record parsedData srcs now language)) ;;;
    ret (mkResult parsedData srcs).

(** Step 4: the inner [try] around the secondary provider. *)
Definition acquire_secondary (env : Env) (language : Language) (prompt : Prompt)
  : M (option NewsResult) :=
  if configured (OPENAI_API_KEY env) then
    try_catch
      (openAIData <- fetchOpenAIFallback env prompt language ;;
       now <- Date_now ;;
       setItem CACHE_KEY (JSON_stringify (cache_record openAIData (JArr []) now language)) ;;;
       ret (Some (mkResult openAIData (JArr []))))
      (fun openAIError =>
         console_write LevelWarn [LText (js "Secondary Provider (OpenAI) Failed:");
                                  LText (message_of openAIError)] ;;;
         ret None)
  else ret None.

(** The outer [catch]; [cached] is the string read at the start of the
    call. *)
Definition fail_over (env : Env) (language : Language) (prompt : Prompt)
  (cached : option jsstring) (error : exn) : M NewsResult :=
  console_write LevelWarn [LText (js "Primary Provider (Gemini) Failed:");
                           LText (message_of error)] ;;;
  secondary <- acquire_secondary env language prompt ;;
  match secondary with
  | Some r => ret r
  | None =>
      stale <- serve_stale cached ;;
      match stale with
      | Some r => ret r
      | None => ret (mkResult (FALLBACK_DATA env) (JArr []))
      end
  end.

Definition fetchNewsUpdates (env : Env) (language : Language)
  (previousHighlights : list NewsHighlight) : M NewsResult :=
  cached <- getItem CACHE_KEY ;;
  fresh <- check_cache language cached ;;
  match fresh with
  | Some r => ret r
  | None =>
      t <- Date_now ;;
      let prompt := prompt_of language previousHighlights t in
      try_catch (acquire_primary env language prompt)
                (fail_over env language prompt cached)
  end.

End ServiceWithFallback.

(* ================================================================== *)
(** ** App.tsx: the state update of [loadNews] *)
(* ================================================================== *)

Module App.

Record AppState : Type := mkAppState {
  data : jsval;              (* NewsResponse | null *)
  loading : bool;
  error : option jsstring;
  lastUpdated : option Z;
  sources : jsval
}.

Definition initialState : AppState :=
  mkAppState JNull true None None (JArr []).

Definition greater_than_zero (x : number) : bool :=
  match x with
  | PosInf => true
  | Dec m _ => (0 <? m)%Z
  | _ => false
  end.

(** The function passed to [setState] after [fetchNewsUpdates] has
    resolved to [{ data, sources }]; [ref] is
    [previousHighlightsRef.current], [now] the value of [new Date()].  The
    second component is the reference after the update, also when the
    update throws. *)
Definition loadNews_update (result : NewsResult) (now : Z)
  (prev : AppState) (ref : jsval) : completion AppState * jsval :=
  let '(mkResult d srcs) := result in
  match Get d (js "status") with
  | Throw e => (Throw e, ref)
  | Normal st =>
      let newData :=
        if strict_equals_string st (js "NO NEW UPDATE") && truthy (data prev) then
          spread (data prev) [(js "generated_at", GetV d (js "generated_at"));
                              (js "status", st)]
        else d in
      let ref' := if strict_equals_string st (js "OK")
                  then GetV d (js "highlights") else ref in
      match Get srcs (js "length") with
      | Throw e => (Throw e, ref')
      | Normal len =>
          match to_number len with
          | Throw e => (Throw e, ref')
          | Normal n =>
              (Normal (mkAppState newData false None (Some now)
                         (if greater_than_zero n then srcs else sources prev)),
               ref')
          end
      end
  end.

End App.

(* ================================================================== *)
(** ** The first version of the service: no cache, failures are rethrown *)
(* ================================================================== *)

Module ServiceUncached.

(** A highlight of the typed list, as the object that is serialized into
    the prompt; [url] is optional. *)
Definition highlight_value (h : NewsHighlight) : jsval :=
  JObj ([(js "headline", JStr (headline h)); (js "summary", JStr (summary h))]
        ++ match url h with
           | Some u => [(js "url", JStr u)]
           | None => []
           end
        ++ [(js "category", JStr (category_string (category h)));
            (js "timestamp", JStr (timestamp h))]).

(** The prompt carries [JSON.stringify(previousHighlights)]. *)
Definition prompt_of (language : Language) (previousHighlights : list NewsHighlight)
  (now : Z) : Prompt :=
  mkPrompt (toISOString now) language
           (stringify_text (JArr (List.map highlight_value previousHighlights))).

Definition fetchNewsUpdates (env : Env) (language : Language)
  (previousHighlights : list NewsHighlight) : M NewsResult :=
  t <- Date_now ;;
  let prompt := prompt_of language previousHighlights t in
  try_catch
    (response <- await_call (GeminiRequest prompt) (generateContent env prompt) ;;
     parsedData <- Service.normalize response ;;
     ret (mkResult parsedData (sourcesOf response)))
    (fun error =>
       console_write LevelError [LText (js "News fetch error:"); LExn error] ;;;
       throw error).

End ServiceUncached.

(* ================================================================== *)
(** ** App.tsx: the [catch] of [loadNews] *)
(* ================================================================== *)

Module AppCatch.

Definition connection_lost : jsstring :=
  js "Connection lost. The neural feed is temporarily unavailable.".

(** [setState(prev => ({ ...prev, loading: false, error: err.message || "..." }))] *)
Definition loadNews_catch (err : exn) (prev : App.AppState) : App.AppState :=
  App.mkAppState (App.data prev) false
    (Some (match message_of err with
           | (_ :: _) as m => m
           | [] => connection_lost
           end))
    (App.lastUpdated prev) (App.sources prev).

End AppCatch.

(* ================================================================== *)
(** ** components/NewsCard.tsx: the list of read articles *)
(* ================================================================== *)

Module NewsCard.

Definition STORAGE_KEY : jsstring := js "chornex_read_articles".

(** [Array.isArray(v)] *)
Definition isArray (v : jsval) : bool :=
  match v with
  | JArr _ => true
  | _ => false
  end.

(** [readList.includes(headline)], for a headline that is a string. *)
Definition includes (readList : list jsval) (headline : jsstring) : bool :=
  existsb (fun x => strict_equals_string x headline) readList.

Definition elements (v : jsval) : list jsval :=
  match v with
  | JArr l => l
  | _ => []
  end.

(** The effect that runs when the card is mounted; [isRead] is the state
    before, the result is the state after. *)
Definition markIfRead (headline : jsstring) (isRead : bool) : M bool :=
  try_catch
    (stored <- getItem STORAGE_KEY ;;
     match nonempty stored with
     | Some s =>
         readList <- lift (JSON_parse s) ;;
         if isArray readList && includes (elements readList) headline
         then ret true
         else ret isRead
     | None => ret isRead
     end)
    (fun e => console_write LevelError [LExn e] ;;; ret isRead).

(** [readList.slice(readList.length - 100)] when the list is longer than
    100. *)
Definition keep_recent (readList : list jsval) : list jsval :=
  if (100 <? List.length readList)%nat
  then List.skipn (List.length readList - 100) readList
  else readList.

(** The click handler; the result is the state [isRead] after it. *)
Definition handleRead (headline : jsstring) (isRead : bool) : M bool :=
  if negb isRead then
    try_catch
      (stored <- getItem STORAGE_KEY ;;
       parsed <- match nonempty stored with
                 | Some s => lift (JSON_parse s)
                 | None => ret (JArr [])
                 end ;;
       let readList := if negb (isArray parsed) then [] else elements parsed in
       if negb (includes readList headline) then
         let readList := keep_recent (readList ++ [JStr headline]) in
         setItem STORAGE_KEY (JSON_stringify (JArr readList))
       else ret tt)
      (fun e => console_write LevelError [LExn e]) ;;;
    ret true
  else ret isRead.

End NewsCard.

(* ================================================================== *)
(** ** components/Header.tsx: the time of the last update *)
(* ================================================================== *)

Module Header.

(** [state.data?.generated_at || null], the property that [App] passes as
    [lastUpdated]. *)
Definition lastUpdatedOf (st : App.AppState) : completion jsval :=
  v <-- GetOptional (App.data st) (js "generated_at") ;
  Normal (if truthy v then v else JNull).

(** [s.split(' ')] *)
Fixpoint split_space (s : jsstring) : list jsstring :=
  match s with
  | [] => [[]]
  | c :: r =>
      if (c =? 32)%N then [] :: split_space r
      else match split_space r with
           | p :: ps => (c :: p) :: ps
           | [] => [[c]]
           end
  end.

Definition not_a_function : exn :=
  TypeError (js "lastUpdated.split is not a function").

(** [lastUpdated && lastUpdated.split(' ')[1]]: nothing is shown without
    [lastUpdated]; otherwise the second word is, which may be [undefined]. *)
Definition updated (lastUpdated : jsval) : completion (option jsval) :=
  if truthy lastUpdated then
    match lastUpdated with
    | JStr s => Normal (Some (match List.nth_error (split_space s) 1 with
                              | Some word => JStr word
                              | None => JUndefined
                              end))
    | _ => Throw not_a_function
    end
  else Normal None.

End Header.

(* ================================================================== *)
(** ** components/Footer.tsx: the label of a source *)
(* ================================================================== *)

Module Footer.

Section Label.
(** [new URL(uri).hostname.replace('www.', '')]; the constructor throws on
    a text that is not a URL. *)
Variable hostname : jsval -> completion jsstring.

(** [source.title || new URL(source.uri).hostname.replace('www.', '')] *)
Definition label (source : jsval) : completion jsval :=
  title <-- Get source (js "title") ;
  if truthy title then Normal title
  else uri <-- Get source (js "uri") ;
       h <-- hostname uri ;
       Normal (JStr h).
End Label.

End Footer.

(* ================================================================== *)
(** ** Readings of the cache and of the providers, for the statements *)
(* ================================================================== *)

Definition throws {A} (c : completion A) : Prop :=
  match c with
  | Throw _ => True
  | Normal _ => False
  end.

(** What the first [try] block makes of a stored record at instant [now]:
    an exception, nothing to serve, or the pair to serve. *)
Definition fresh_entry (language : Language) (now : Z) (c : jsstring)
  : completion (option NewsResult) :=
  entry <-- JSON_parse c ;
  d <-- Get entry (js "data") ;
  srcs <-- Get entry (js "sources") ;
  ts <-- Get entry (js "timestamp") ;
  lang <-- Get entry (js "lang") ;
  t <-- to_number ts ;
  Normal (if less_than_int (int_minus now t) CACHE_DURATION_MS
             && strict_equals_string lang (language_string language)
          then Some (mkResult d srcs) else None).

(** The pair served at the start of a call, if any. *)
Definition cached_fresh (language : Language) (w : World) : option NewsResult :=
  match nonempty (localStorage w !! CACHE_KEY) with
  | Some c => match fresh_entry language (clock w) c with
              | Normal (Some r) => Some r
              | _ => None
              end
  | None => None
  end.

(** The world after step 1 when nothing is served: a record whose reading
    throws has been removed. *)
Definition after_check (language : Language) (w : World) : World :=
  match nonempty (localStorage w !! CACHE_KEY) with
  | Some c => match fresh_entry language (clock w) c with
              | Throw _ => with_storage (delete CACHE_KEY) w
              | _ => w
              end
  | None => w
  end.

(** A stored record that cannot be deserialized: reading it throws. *)
Definition corrupt (c : jsstring) : Prop :=
  throws (entry <-- JSON_parse c ;
          _ <-- Get entry (js "data") ;
          ts <-- Get entry (js "timestamp") ;
          to_number ts).

(** What the fail-safe makes of the stored string. *)
Definition stale_entry (cached : option jsstring) : option NewsResult :=
  match nonempty cached with
  | Some c =>
      match (entry <-- JSON_parse c ;
             d <-- Get entry (js "data") ;
             srcs <-- Get entry (js "sources") ;
             Normal (mkResult (spread d [(js "status", JStr (js "QUOTA_EXCEEDED"))]) srcs))
      with
      | Normal r => Some r
      | Throw _ => None
      end
  | None => None
  end.

Definition served_line : LogEntry :=
  mkLog LevelLog [LText (js "Serving fresh cache to preserve API quota")].

Definition logged (entry : LogEntry) (w : World) : World :=
  mkWorld (localStorage w) (console w ++ [entry]) (clock w) (calls w).

Definition called {A} (req : Request) (o : Outcome A) (w : World) : World :=
  mkWorld (localStorage w) (console w) (clock w + Z.of_N (latency o)) (calls w ++ [req]).

(** The provider text does not parse. *)
Definition malformed (response : GenerateContentResponse) : Prop :=
  throws (JSON_parse (cleanText (text_or_empty_object response))).

(** The shape of §3 of the specification: an object with a string
    [generated_at], a language [en] or [bn], one of the three statuses, and
    an array of highlight objects. *)
Definition is_string (v : jsval) : bool :=
  match v with JStr _ => true | _ => false end.

Definition one_of (names : list string) (v : jsval) : bool :=
  existsb (fun n => strict_equals_string v (js n)) names.

Definition is_Highlight (v : jsval) : bool :=
  match v with
  | JObj _ =>
      is_string (GetV v (js "headline")) && is_string (GetV v (js "summary"))
      && (is_string (GetV v (js "url")) || negb (truthy (GetV v (js "url"))))
      && one_of ["world"; "economy"; "tech"; "security"; "climate"; "politics";
                 "bangladesh"; "other"]%string (GetV v (js "category"))
      && is_string (GetV v (js "timestamp"))
  | _ => false
  end.

Definition is_NewsResponse (v : jsval) : bool :=
  match v with
  | JObj _ =>
      is_string (GetV v (js "generated_at"))
      && one_of ["en"; "bn"]%string (GetV v (js "language"))
      && one_of ["OK"; "NO NEW UPDATE"; "QUOTA_EXCEEDED"]%string (GetV v (js "status"))
      && match GetV v (js "highlights") with
         | JArr l => forallb is_Highlight l
         | _ => false
         end
  | _ => false
  end.

(** A [NewsResponse] as an object, fields in the order of the type. *)
Definition news_response (generated_at language status : jsstring)
  (highlights : list jsval) : jsval :=
  JObj [(js "generated_at", JStr generated_at); (js "language", JStr language);
        (js "status", JStr status); (js "highlights", JArr highlights)].

Module ServiceProps.
(** The primary provider was called and gave nothing usable. *)
Definition primary_fails (env : Env) (prompt : Prompt) : Prop :=
  match settled (generateContent env prompt) with
  | Throw _ => True
  | Normal response => malformed response
  end.
End ServiceProps.

Module FallbackProps.
(** Missing credential, failed call, or text that does not parse. *)
Definition primary_fails (env : Env) (prompt : Prompt) : Prop :=
  configured (API_KEY env) = false
  \/ match settled (generateContent env prompt) with
     | Throw _ => True
     | Normal response => malformed response
     end.

(** No credential, failed call, error status, or a body that gives no
    payload. *)
Definition secondary_fails (env : Env) (prompt : Prompt) : Prop :=
  configured (OPENAI_API_KEY env) = false
  \/ match settled (fetch env prompt) with
     | Throw _ => True
     | Normal response =>
         ok response = false
         \/ throws (ServiceWithFallback.openai_payload (body response))
     end.

(** The secondary call succeeds with payload [d]. *)
Definition secondary_succeeds (env : Env) (prompt : Prompt) (d : jsval) : Prop :=
  configured (OPENAI_API_KEY env) = true
  /\ exists response,
      settled (fetch env prompt) = Normal response
      /\ ok response = true
      /\ ServiceWithFallback.openai_payload (body response) = Normal d.
End FallbackProps.

(** The lines written to the console. *)
Definition parse_failure_line (t : jsstring) : LogEntry :=
  mkLog LevelError [LText (js "Failed to parse JSON"); LText t].

Definition missing_key_line : LogEntry :=
  mkLog LevelWarn [LText (js "API Key is missing.")].

#[global] Instance Language_eq_dec : EqDecision Language.
Proof. solve_decision. Defined.

Definition primary_failed_line (error : exn) : LogEntry :=
  mkLog LevelWarn [LText (js "Primary Provider (Gemini) Failed:"); LText (message_of error)].

Definition secondary_failed_line (error : exn) : LogEntry :=
  mkLog LevelWarn [LText (js "Secondary Provider (OpenAI) Failed:"); LText (message_of error)].

Definition attempt_line : LogEntry :=
  mkLog LevelLog [LText (js "Attempting OpenAI Fallback...")].

Definition fetch_error_line (error : exn) : LogEntry :=
  mkLog LevelError [LText (js "News fetch error details:"); LExn error].

(** The configuration-error highlights as the specification words them: the
    static set, its "System Maintenance: Live Feed Paused" highlight
    replaced by the "Configuration Required" one. *)
Definition spec_config_highlights : list jsval :=
  List.map (fun h => if strict_equals_string (GetV h (js "headline"))
                          (js "System Maintenance: Live Feed Paused")
                     then Service.configHighlight else h)
           FALLBACK_highlights.

(* ================================================================== *)
(** ** Sample data for the worked examples *)
(* ================================================================== *)

Definition sample_highlight : jsval :=
  highlight_object "Summit concludes" "Leaders agreed on a joint statement."
    "world" "5m ago" "https://example.org/summit".

Definition sample_data (status : string) : jsval :=
  news_response (js "2023-11-14 22:00 UTC") (js "en") (js status) [sample_highlight].

Definition sample_sources : jsval :=
  JArr [JObj [(js "uri", JStr (js "https://example.org/summit"));
              (js "title", JStr (js "Example"))]].

(** The record as [fetchNewsUpdates] writes it. *)
Definition sample_record (ts : Z) (stored : Language) : jsstring :=
  stringify_text (cache_record (sample_data "OK") sample_sources ts stored).

Definition quota_exhausted {A} : Outcome A :=
  mkOutcome 250%N (Throw (Error (js "429 RESOURCE_EXHAUSTED"))).

Definition answers {A} (a : A) : Outcome A := mkOutcome 1200%N (Normal a).

Definition sample_env (key openai : option jsstring)
  (primary : Outcome GenerateContentResponse) (secondary : Outcome HttpResponse) : Env :=
  mkEnv key openai 1699990000000 (fun _ => primary) (fun _ => secondary).

Definition sample_world (stored : option jsstring) (now : Z) : World :=
  mkWorld (match stored with
           | Some c => {[ CACHE_KEY := c ]}
           | None => ∅
           end) [] now [].

Definition sample_previous : list NewsHighlight :=
  [mkHighlight (js "Summit concludes") (js "Leaders agreed on a joint statement.")
     (Some (js "https://example.org/summit")) world (js "5m ago")].


Definition sample_other_highlight : jsval :=
  highlight_object "Markets rally" "Indices closed higher." "economy" "just now"
    "https://example.org/markets".

(* ================================================================== *)
(** ** Values that are stored and read back unchanged *)
(* ================================================================== *)

(** A value that [JSON.stringify] followed by [JSON.parse] gives back as it
    is: no [undefined], numbers that are integers below [10^21] (printed
    without exponent), objects whose properties are in the order in which an
    object keeps them. *)
Fixpoint storable (v : jsval) : Prop :=
  match v with
  | JUndefined => False
  | JNull | JBool _ | JStr _ => True
  | JNum (Dec m e) => e = 0%Z /\ (Z.abs m < 10 ^ 21)%Z
  | JNum _ => False
  | JArr l =>
      (fix all (l : list jsval) : Prop :=
         match l with
         | [] => True
         | x :: r => storable x /\ all r
         end) l
  | JObj ps =>
      object_of_props ps = ps
      /\ (fix all (ps : list (jsstring * jsval)) : Prop :=
            match ps with
            | [] => True
            | kv :: r => storable (snd kv) /\ all r
            end) ps
  end.

(** What may follow a value inside a text: nothing, a comma, or a closing
    bracket. *)
Definition delimited (rest : jsstring) : Prop :=
  match rest with
  | [] => True
  | c :: _ => c = 44%N \/ c = 93%N \/ c = 125%N
  end.

(** One member of an object, as [JSON.stringify] writes it. *)
Definition member_text (kv : jsstring * jsval) : jsstring :=
  quote (fst kv) ++ js ":" ++ stringify_text (snd kv).

(** The parser, given the text of [x] followed by [rest], gives [x] and
    leaves [rest]. *)
Definition reads_back (x : jsval) : Prop :=
  forall rest, delimited rest ->
    exists f, parse_value f (stringify_text x ++ rest) = POk x rest.

(** [data.choices[0]?.message?.content], the expression that
    [fetchOpenAIFallback] reads from the body of the answer. *)
Definition first_choice_content (b : jsval) : completion jsval :=
  choices <-- Get b (js "choices") ;
  first <-- Get choices (js "0") ;
  message <-- GetOptional first (js "message") ;
  GetOptional message (js "content").

(** [s.includes(pat)] *)
Fixpoint occurs (pat s : jsstring) : bool :=
  is_prefix pat s
  || match s with
     | [] => false
     | _ :: r => occurs pat r
     end.

(** Neither end of [s] is white space. *)
Definition trimmed (s : jsstring) : Prop :=
  match s with
  | [] => True
  | c :: _ => is_js_space c = false
  end
  /\ match List.rev s with
     | [] => True
     | c :: _ => is_js_space c = false
     end.

(** The number of backticks that lead [s]. *)
Fixpoint lead (s : jsstring) : nat :=
  match s with
  | c :: r => if (96 =? c)%N then S (lead r) else 0
  | [] => 0
  end.

(** The state shows an object whose [highlights] are [ref]. *)
Definition displays (st : App.AppState) (ref : jsval) : Prop :=
  exists ps, App.data st = JObj ps
             /\ List.NoDup (List.map fst ps)
             /\ GetV (JObj ps) (js "highlights") = ref.

(** The list that [handleRead] works on, as read from the storage. *)
Definition stored_read_list (w : World) : completion (list jsval) :=
  match nonempty (localStorage w !! NewsCard.STORAGE_KEY) with
  | Some s => v <-- JSON_parse s ; Normal (NewsCard.elements v)
  | None => Normal []
  end.

(** No code unit of [s] is a space. *)
Definition spaceless (s : jsstring) : Prop :=
  forallb (fun c => negb (c =? 32)%N) s = true.

(** A JSON text written with apostrophes for its double quotes. *)
Definition dq (s : string) : jsstring :=
  List.map (fun x => if (x =? 39)%N then 34%N else x) (js s).

(** An answer of the primary provider: the sample data inside a Markdown
    fence, with three grounding chunks of which one has a uri and a title. *)
Definition sample_response : GenerateContentResponse :=
  mkResponse (Some (js "```json" ++ stringify_text (sample_data "OK") ++ js "```"))
    (Some [mkCandidate (Some (mkMetadata (Some
       [mkChunk (JObj [(js "uri", JStr (js "https://example.org/summit"));
                       (js "title", JStr (js "Example"))]);
        mkChunk JUndefined;
        mkChunk (JObj [(js "uri", JStr (js "https://example.org/untitled"))])])))]).

(** A record whose [timestamp] cannot be converted to a number. *)
Definition sample_unreadable_record : jsstring :=
  dq "{'data':{},'timestamp':{'toString':1},'lang':'en'}".

(** A fresh record without [data]. *)
Definition sample_record_without_data : jsstring :=
  dq "{'timestamp':1699999900000,'lang':'en'}".

(** A stored list of read articles. *)
Definition sample_read_list : jsstring := dq "['Summit concludes']".

(* ================================================================== *)
(** * Properties *)
(* ================================================================== *)

(** ** The building blocks *)

Lemma serve_if_fresh_spec (language : Language) (c : jsstring) (w : World) :
  serve_if_fresh language c w =
  match fresh_entry language (clock w) c with
  | Normal (Some r) => (Normal (Some r), logged served_line w)
  | Normal None => (Normal None, w)
  | Throw e => (Throw e, w)
  end.
Proof.
  unfold serve_if_fresh, fresh_entry, bind, lift, cbind, Date_now.
  destruct (JSON_parse c) as [entry|]; [|reflexivity].
  destruct (Get entry (js "data")); [|reflexivity].
  destruct (Get entry (js "sources")); [|reflexivity].
  destruct (Get entry (js "timestamp")) as [ts|]; [|reflexivity].
  destruct (Get entry (js "lang")) as [lang|]; [|reflexivity].
  destruct (to_number ts) as [t|]; [|reflexivity].
  destruct (less_than_int _ _ && strict_equals_string _ _); reflexivity.
Qed.

Lemma check_cache_spec (language : Language) (cached : option jsstring) (w : World) :
  check_cache language cached w =
  match nonempty cached with
  | None => (Normal None, w)
  | Some c =>
      match fresh_entry language (clock w) c with
      | Normal (Some r) => (Normal (Some r), logged served_line w)
      | Normal None => (Normal None, w)
      | Throw _ => (Normal None, with_storage (delete CACHE_KEY) w)
      end
  end.
Proof.
  unfold check_cache. destruct (nonempty cached) as [c|]; [|reflexivity].
  unfold try_catch. rewrite serve_if_fresh_spec.
  destruct (fresh_entry language (clock w) c) as [[r|]|]; reflexivity.
Qed.

Lemma serve_stale_spec (cached : option jsstring) (w : World) :
  serve_stale cached w = (Normal (stale_entry cached), w).
Proof.
  unfold serve_stale, stale_entry.
  destruct (nonempty cached) as [c|]; [|reflexivity].
  unfold try_catch, bind, lift, cbind, ret.
  destruct (JSON_parse c) as [entry|]; [|reflexivity].
  destruct (Get entry (js "data")); [|reflexivity].
  destruct (Get entry (js "sources")); reflexivity.
Qed.

(** The fail-safe always produces a value and leaves the storage alone. *)
Lemma fail_safe_spec (env : Env) (error : exn) (w : World) :
  Service.fail_safe env error w =
  (Normal (match stale_entry (localStorage w !! CACHE_KEY) with
           | Some r => r
           | None => mkResult (FALLBACK_DATA env) (JArr [])
           end),
   logged (fetch_error_line error) w).
Proof.
  unfold Service.fail_safe, bind, console_write, getItem.
  rewrite serve_stale_spec. cbn [localStorage].
  destruct (stale_entry _); reflexivity.
Qed.

Lemma JSON_stringify_object (ps : list (jsstring * jsval)) :
  JSON_stringify (JObj ps) = JStr (stringify_text (JObj ps)).
Proof. unfold JSON_stringify, stringify_text. reflexivity. Qed.

Lemma setItem_object (k : jsstring) (ps : list (jsstring * jsval)) (w : World) :
  setItem k (JSON_stringify (JObj ps)) w
  = (Normal tt, with_storage (insert k (stringify_text (JObj ps))) w).
Proof. rewrite JSON_stringify_object. reflexivity. Qed.

Lemma normalize_spec (response : GenerateContentResponse) (w : World) :
  Service.normalize response w =
  match JSON_parse (cleanText (text_or_empty_object response)) with
  | Normal v => (Normal v, w)
  | Throw _ =>
      (Throw Service.invalid_format,
       logged (parse_failure_line (text_or_empty_object response)) w)
  end.
Proof.
  unfold Service.normalize, try_catch, lift.
  destruct (JSON_parse _); reflexivity.
Qed.

(** The body of the outer [try], in closed form. *)
Lemma acquire_primary_spec (env : Env) (language : Language) (prompt : Prompt)
  (w : World) :
  Service.acquire_primary env language prompt w =
  let o := generateContent env prompt in
  let w1 := called (GeminiRequest prompt) o w in
  match settled o with
  | Throw e => (Throw e, w1)
  | Normal response =>
      match JSON_parse (cleanText (text_or_empty_object response)) with
      | Throw _ =>
          (Throw Service.invalid_format,
           logged (parse_failure_line (text_or_empty_object response)) w1)
      | Normal d =>
          (Normal (mkResult d (sourcesOf response)),
           with_storage
             (insert CACHE_KEY
                (stringify_text (cache_record d (sourcesOf response) (clock w1) language)))
             w1)
      end
  end.
Proof.
  unfold Service.acquire_primary, bind, await_call. cbn zeta.
  destruct (settled (generateContent env prompt)) as [response|err]; [|reflexivity].
  rewrite normalize_spec.
  destruct (JSON_parse _) as [d|]; [|reflexivity].
  unfold Date_now, cache_record. rewrite setItem_object. reflexivity.
Qed.

(** [fetchNewsUpdates], in closed form over the readings of the cache. *)
Lemma fetchNewsUpdates_spec (env : Env) (language : Language)
  (previousHighlights : list NewsHighlight) (w : World) :
  Service.fetchNewsUpdates env language previousHighlights w =
  match cached_fresh language w with
  | Some r => (Normal r, logged served_line w)
  | None =>
      let w1 := after_check language w in
      if configured (API_KEY env) then
        match Service.acquire_primary env language
                (prompt_of language previousHighlights (clock w)) w1 with
        | (Normal r, w2) => (Normal r, w2)
        | (Throw err, w2) => Service.fail_safe env err w2
        end
      else (Normal (mkResult (Service.configErrorData env) (JArr [])),
            logged missing_key_line w1)
  end.
Proof.
  unfold Service.fetchNewsUpdates, bind, getItem, cached_fresh, after_check.
  rewrite check_cache_spec.
  assert (Hclock : forall m, clock (with_storage m w) = clock w) by reflexivity.
  destruct (nonempty _) as [c|]; [destruct (fresh_entry language (clock w) c) as [[r|]|]|];
    try reflexivity;
    destruct (configured (API_KEY env)); try reflexivity;
    unfold Date_now, try_catch; cbn zeta; rewrite ?Hclock; reflexivity.
Qed.

(** ** Reading a well-formed record *)

Lemma JSON_parse_nonempty (c : jsstring) (v : jsval) :
  JSON_parse c = Normal v -> nonempty (Some c) = Some c.
Proof. destruct c; [discriminate | reflexivity]. Qed.

Lemma less_than_int_minus (now ts bound : Z) :
  less_than_int (int_minus now (int ts)) bound = (now - ts <? bound)%Z.
Proof.
  unfold less_than_int, int_minus, int. cbn.
  f_equal. lia.
Qed.

Lemma language_string_inj (a b : Language) :
  strict_equals_string (JStr (language_string a)) (language_string b)
  = bool_decide (a = b).
Proof. destruct a, b; reflexivity. Qed.

Lemma fresh_entry_record (language stored : Language) (now ts : Z)
  (c : jsstring) (d srcs : jsval) :
  JSON_parse c = Normal (cache_record d srcs ts stored) ->
  fresh_entry language now c =
  Normal (if (now - ts <? CACHE_DURATION_MS)%Z && bool_decide (stored = language)
          then Some (mkResult d srcs) else None).
Proof.
  intros Hparse. unfold fresh_entry. rewrite Hparse. cbn [cbind].
  change (Get (cache_record d srcs ts stored) (js "data")) with (Normal d).
  change (Get (cache_record d srcs ts stored) (js "sources")) with (Normal srcs).
  change (Get (cache_record d srcs ts stored) (js "timestamp"))
    with (Normal (JNum (int ts))).
  change (Get (cache_record d srcs ts stored) (js "lang"))
    with (Normal (JStr (language_string stored))).
  cbn [cbind to_number].
  rewrite less_than_int_minus, language_string_inj. reflexivity.
Qed.

Lemma acquire_primary_calls (env : Env) (language : Language) (prompt : Prompt)
  (w : World) :
  calls (snd (Service.acquire_primary env language prompt w))
  = calls w ++ [GeminiRequest prompt].
Proof.
  rewrite acquire_primary_spec. cbn zeta.
  destruct (settled _) as [response|]; [|reflexivity].
  destruct (JSON_parse _); reflexivity.
Qed.

Lemma app_one_neq {A} (l : list A) (x : A) : l ++ [x] <> l.
Proof.
  intros H. apply (f_equal (@List.length A)) in H.
  rewrite length_app in H. cbn in H. lia.
Qed.

(** A call that reaches the provider leaves a trace. *)
Lemma primary_attempt_traced (env : Env) (language : Language) (prompt : Prompt)
  (w : World) :
  calls (snd (match Service.acquire_primary env language prompt w with
              | (Normal r, w2) => (Normal r, w2)
              | (Throw err, w2) => Service.fail_safe env err w2
              end))
  = calls w ++ [GeminiRequest prompt].
Proof.
  pose proof (acquire_primary_calls env language prompt w) as Hc.
  destruct (Service.acquire_primary env language prompt w) as [[r|err] w2];
    [exact Hc|].
  rewrite fail_safe_spec. exact Hc.
Qed.

(** ** Cache precedence *)

(** C4. With a stored record [{ data, sources, timestamp, lang }],
    [fetchNewsUpdates] serves the cache (it resolves to the stored pair, no
    provider has been called, and the line "Serving fresh cache to preserve
    API quota" has been logged) exactly when [now - timestamp < 15 minutes]
    and the stored language is the requested one; when the credential is
    configured, the provider is left alone in that case only; serving the
    cache leaves the storage as it was.  In particular a record stored for
    [en] never answers a request for [bn]. *)
Theorem fresh_cache_served_iff (env : Env) (language stored : Language)
  (previousHighlights : list NewsHighlight) (w : World)
  (c : jsstring) (d srcs : jsval) (ts : Z) :
  localStorage w !! CACHE_KEY = Some c ->
  JSON_parse c = Normal (cache_record d srcs ts stored) ->
  let run := Service.fetchNewsUpdates env language previousHighlights w in
  let fresh := (clock w - ts < CACHE_DURATION_MS)%Z /\ stored = language in
  let served := fst run = Normal (mkResult d srcs)
                /\ calls (snd run) = calls w
                /\ console (snd run) = console w ++ [served_line] in
  (served <-> fresh)
  /\ (configured (API_KEY env) = true -> (calls (snd run) = calls w <-> fresh))
  /\ (fresh -> localStorage (snd run) = localStorage w)
  /\ (stored = en -> language = bn -> ~ served).
Proof.
  intros Hstore Hparse run fresh served.
  assert (Hfresh : fresh <->
            (clock w - ts <? CACHE_DURATION_MS)%Z && bool_decide (stored = language) = true).
  { unfold fresh. rewrite andb_true_iff, Z.ltb_lt, bool_decide_eq_true. tauto. }
  assert (Hrun : (served <-> fresh)
                 /\ (configured (API_KEY env) = true ->
                     (calls (snd run) = calls w <-> fresh))
                 /\ (fresh -> localStorage (snd run) = localStorage w)).
  { subst served run. rewrite fetchNewsUpdates_spec.
    unfold cached_fresh, after_check. rewrite Hstore.
    rewrite (JSON_parse_nonempty _ _ Hparse).
    rewrite (fresh_entry_record _ _ _ _ _ _ _ Hparse).
    destruct ((clock w - ts <? CACHE_DURATION_MS)%Z && bool_decide (stored = language)).
    - cbn [fst snd logged calls console localStorage]. tauto.
    - assert (Hnot : ~ fresh) by (rewrite Hfresh; discriminate).
      cbn zeta. destruct (configured (API_KEY env)).
      + rewrite primary_attempt_traced.
        split; [|split]; [split| |]; try tauto.
        * intros (_ & Hc & _). destruct (app_one_neq _ _ Hc).
        * intros _. split; [|tauto]. intros Hc. destruct (app_one_neq _ _ Hc).
      + cbn [fst snd logged calls console localStorage].
        split; [|split]; [split| |]; try tauto; try discriminate.
        intros (_ & _ & Hc). apply app_inv_head in Hc. discriminate. }
  destruct Hrun as (Hiff & Hcalls & Hstorage).
  split; [exact Hiff | split; [exact Hcalls | split; [exact Hstorage |]]].
  intros Hen Hbn Hserved. apply Hiff in Hserved.
  destruct Hserved as [_ Heq]. congruence.
Qed.

(** ** Objects: reading after writing *)

Section PropsFacts.
Context {V : Type}.
Implicit Types (ps : list (jsstring * V)) (k : jsstring) (v : V).

Lemma jsstring_eqb_true k k' : jsstring_eqb k k' = true <-> k = k'.
Proof. unfold jsstring_eqb. apply bool_decide_eq_true. Qed.

Lemma jsstring_eqb_false k k' : jsstring_eqb k k' = false <-> k <> k'.
Proof. unfold jsstring_eqb. apply bool_decide_eq_false. Qed.

Lemma lookup_replace_prop k k' v ps :
  lookup_prop k (replace_prop k' v ps)
  = if jsstring_eqb k k'
    then match lookup_prop k' ps with Some _ => Some v | None => None end
    else lookup_prop k ps.
Proof.
  induction ps as [|[k1 v1] ps IH]; cbn.
  - destruct (jsstring_eqb k k'); reflexivity.
  - destruct (jsstring_eqb k' k1) eqn:E1; cbn.
    + apply jsstring_eqb_true in E1. subst k1.
      destruct (jsstring_eqb k k'); reflexivity.
    + destruct (jsstring_eqb k k1) eqn:E2.
      * apply jsstring_eqb_true in E2. subst k1.
        destruct (jsstring_eqb k k') eqn:E3; [|reflexivity].
        apply jsstring_eqb_true in E3. subst k'.
        apply jsstring_eqb_false in E1. congruence.
      * exact IH.
Qed.

Lemma lookup_insert_index (i : N) k k' v ps :
  lookup_prop k' ps = None ->
  lookup_prop k (insert_index i k' v ps)
  = if jsstring_eqb k k' then Some v else lookup_prop k ps.
Proof.
  induction ps as [|[k1 v1] ps IH]; cbn; intros Hnone.
  - destruct (jsstring_eqb k k'); reflexivity.
  - destruct (jsstring_eqb k' k1) eqn:E1; [discriminate|].
    assert (Hhead : lookup_prop k ((k', v) :: (k1, v1) :: ps)
                    = if jsstring_eqb k k' then Some v
                      else if jsstring_eqb k k1 then Some v1 else lookup_prop k ps)
      by reflexivity.
    destruct (array_index k1) as [j|]; [destruct (j <? i)%N|]; try exact Hhead.
    cbn. destruct (jsstring_eqb k k1) eqn:E2.
    + apply jsstring_eqb_true in E2. subst k1.
      destruct (jsstring_eqb k k') eqn:E3; [|reflexivity].
      apply jsstring_eqb_true in E3. subst k'.
      apply jsstring_eqb_false in E1. congruence.
    + apply IH, Hnone.
Qed.

Lemma lookup_prop_app k ps qs :
  lookup_prop k (ps ++ qs)
  = match lookup_prop k ps with Some x => Some x | None => lookup_prop k qs end.
Proof.
  induction ps as [|[k1 v1] ps IH]; cbn; [reflexivity|].
  destruct (jsstring_eqb k k1); [reflexivity | exact IH].
Qed.

(** Reading [k] after [o[k'] = v]. *)
Lemma lookup_set_prop k k' v ps :
  lookup_prop k (set_prop ps k' v)
  = if jsstring_eqb k k' then Some v else lookup_prop k ps.
Proof.
  unfold set_prop. destruct (lookup_prop k' ps) eqn:Hk'.
  - rewrite lookup_replace_prop, Hk'. reflexivity.
  - destruct (array_index k').
    + apply lookup_insert_index, Hk'.
    + rewrite lookup_prop_app. cbn.
      destruct (jsstring_eqb k k') eqn:E.
      * apply jsstring_eqb_true in E. subst k'. rewrite Hk'. reflexivity.
      * destruct (lookup_prop k ps); reflexivity.
Qed.

Lemma lookup_prop_None_notin k ps :
  ~ In k (List.map fst ps) -> lookup_prop k ps = None.
Proof.
  induction ps as [|[k1 v1] ps IH]; cbn; [reflexivity|].
  intros Hnot. destruct (jsstring_eqb k k1) eqn:E.
  - apply jsstring_eqb_true in E. subst k1. tauto.
  - apply IH. tauto.
Qed.

Lemma lookup_fold_set_prop k ps acc :
  List.NoDup (List.map fst ps) ->
  lookup_prop k (fold_left (fun o kv => set_prop o (fst kv) (snd kv)) ps acc)
  = match lookup_prop k ps with Some x => Some x | None => lookup_prop k acc end.
Proof.
  revert acc. induction ps as [|[k1 v1] ps IH]; cbn; intros acc Hnd; [reflexivity|].
  inversion Hnd as [|? ? Hnotin Hnd']; subst.
  rewrite (IH _ Hnd'), lookup_set_prop.
  destruct (jsstring_eqb k k1) eqn:E; [|reflexivity].
  apply jsstring_eqb_true in E. subst k1.
  rewrite (lookup_prop_None_notin _ _ Hnotin). reflexivity.
Qed.
End PropsFacts.

(** [{...o, k0: v0}] has [v0] under [k0] and the properties of [o]
    elsewhere. *)
Lemma Get_spread_override (ps : list (jsstring * jsval)) (k0 k : jsstring) (v0 : jsval) :
  List.NoDup (List.map fst ps) ->
  Get (spread (JObj ps) [(k0, v0)]) k
  = if jsstring_eqb k k0 then Normal v0 else Get (JObj ps) k.
Proof.
  intros Hnd. unfold spread, object_of_props, own_props, Get.
  rewrite fold_left_app. cbn [fold_left fst snd].
  rewrite lookup_set_prop.
  destruct (jsstring_eqb k k0); [reflexivity|].
  rewrite (lookup_fold_set_prop _ _ _ Hnd). cbn [lookup_prop].
  destruct (lookup_prop k ps); reflexivity.
Qed.

Lemma Get_spread_status (d : jsval) (v : jsval) :
  Get (spread d [(js "status", v)]) (js "status") = Normal v.
Proof.
  unfold spread, object_of_props, Get.
  rewrite fold_left_app. cbn [fold_left fst snd].
  rewrite lookup_set_prop. reflexivity.
Qed.

(** ** The version with the fallback, in closed form *)

Lemma fallback_primary_spec (env : Env) (language : Language) (prompt : Prompt)
  (w : World) :
  ServiceWithFallback.acquire_primary env language prompt w =
  if configured (API_KEY env) then
    let o := generateContent env prompt in
    let w1 := called (GeminiRequest prompt) o w in
    match settled o with
    | Throw e => (Throw e, w1)
    | Normal response =>
        match JSON_parse (cleanText (text_or_empty_object response)) with
        | Throw e => (Throw e, w1)
        | Normal d =>
            (Normal (mkResult d (sourcesOf response)),
             with_storage
               (insert CACHE_KEY
                  (stringify_text (cache_record d (sourcesOf response) (clock w1) language)))
               w1)
        end
    end
  else (Throw (Error (js "Gemini API Key missing")), w).
Proof.
  unfold ServiceWithFallback.acquire_primary.
  destruct (configured (API_KEY env)); [|reflexivity].
  unfold bind, await_call, lift. cbn [negb]. cbn zeta.
  destruct (settled (generateContent env prompt)) as [response|]; [|reflexivity].
  destruct (JSON_parse _) as [d|]; [|reflexivity].
  unfold Date_now, cache_record. rewrite setItem_object. reflexivity.
Qed.

Lemma fetchOpenAIFallback_spec (env : Env) (prompt : Prompt) (language : Language)
  (w : World) :
  ServiceWithFallback.fetchOpenAIFallback env prompt language w =
  if configured (OPENAI_API_KEY env) then
    let o := fetch env prompt in
    let w2 := called (OpenAIRequest prompt) o (logged attempt_line w) in
    match settled o with
    | Throw e => (Throw e, w2)
    | Normal response =>
        if ok response then (ServiceWithFallback.openai_payload (body response), w2)
        else (Throw (Error (js "OpenAI Error: "
                              ++ number_to_string (int (status response))
                              ++ js " " ++ statusText response)), w2)
    end
  else (Throw (Error (js "OpenAI API Key not configured")), w).
Proof.
  unfold ServiceWithFallback.fetchOpenAIFallback.
  destruct (configured (OPENAI_API_KEY env)); [|reflexivity].
  unfold bind, await_call, lift, console_write. cbn [negb]. cbn zeta.
  destruct (settled (fetch env prompt)) as [response|]; [|reflexivity].
  destruct (ok response); reflexivity.
Qed.

Lemma acquire_secondary_spec (env : Env) (language : Language) (prompt : Prompt)
  (w : World) :
  ServiceWithFallback.acquire_secondary env language prompt w =
  if configured (OPENAI_API_KEY env) then
    match ServiceWithFallback.fetchOpenAIFallback env prompt language w with
    | (Normal d, w2) =>
        (Normal (Some (mkResult d (JArr []))),
         with_storage
           (insert CACHE_KEY (stringify_text (cache_record d (JArr []) (clock w2) language)))
           w2)
    | (Throw e, w2) => (Normal None, logged (secondary_failed_line e) w2)
    end
  else (Normal None, w).
Proof.
  unfold ServiceWithFallback.acquire_secondary.
  destruct (configured (OPENAI_API_KEY env)); [|reflexivity].
  unfold try_catch, bind.
  destruct (ServiceWithFallback.fetchOpenAIFallback env prompt language w)
    as [[d|e] w2]; [|reflexivity].
  unfold Date_now, cache_record. rewrite setItem_object. reflexivity.
Qed.

Lemma fail_over_spec (env : Env) (language : Language) (prompt : Prompt)
  (cached : option jsstring) (error : exn) (w : World) :
  ServiceWithFallback.fail_over env language prompt cached error w =
  match ServiceWithFallback.acquire_secondary env language prompt
          (logged (primary_failed_line error) w) with
  | (Normal (Some r), w2) => (Normal r, w2)
  | (Normal None, w2) =>
      (Normal (match stale_entry cached with
               | Some r => r
               | None => mkResult (FALLBACK_DATA env) (JArr [])
               end), w2)
  | (Throw e, w2) => (Throw e, w2)
  end.
Proof.
  unfold ServiceWithFallback.fail_over, bind, console_write.
  change (mkWorld (localStorage w) (console w ++ [primary_failed_line error])
            (clock w) (calls w)) with (logged (primary_failed_line error) w).
  destruct (ServiceWithFallback.acquire_secondary _ _ _ _) as [[[r|]|e] w2];
    try reflexivity.
  rewrite serve_stale_spec. destruct (stale_entry cached); reflexivity.
Qed.

Lemma fallback_fetchNewsUpdates_spec (env : Env) (language : Language)
  (previousHighlights : list NewsHighlight) (w : World) :
  ServiceWithFallback.fetchNewsUpdates env language previousHighlights w =
  match cached_fresh language w with
  | Some r => (Normal r, logged served_line w)
  | None =>
      let w1 := after_check language w in
      let prompt := prompt_of language previousHighlights (clock w) in
      match ServiceWithFallback.acquire_primary env language prompt w1 with
      | (Normal r, w2) => (Normal r, w2)
      | (Throw err, w2) =>
          ServiceWithFallback.fail_over env language prompt
            (localStorage w !! CACHE_KEY) err w2
      end
  end.
Proof.
  unfold ServiceWithFallback.fetchNewsUpdates, bind, getItem, cached_fresh, after_check.
  rewrite check_cache_spec.
  assert (Hclock : forall m, clock (with_storage m w) = clock w) by reflexivity.
  destruct (nonempty _) as [c|]; [destruct (fresh_entry language (clock w) c) as [[r|]|]|];
    try reflexivity;
    unfold Date_now, try_catch; cbn zeta; rewrite ?Hclock; reflexivity.
Qed.

(** ** Totality *)


Lemma insert_after_check (language : Language) (w : World) (s : jsstring) :
  <[CACHE_KEY := s]> (localStorage (after_check language w))
  = <[CACHE_KEY := s]> (localStorage w).
Proof.
  unfold after_check.
  destruct (nonempty _) as [c|]; [|reflexivity].
  destruct (fresh_entry language (clock w) c) as [[r|]|]; try reflexivity.
  cbn [with_storage localStorage]. apply insert_delete_eq.
Qed.

Lemma fallback_primary_fails (env : Env) (language : Language) (prompt : Prompt)
  (w : World) :
  FallbackProps.primary_fails env prompt ->
  exists err w2,
    ServiceWithFallback.acquire_primary env language prompt w = (Throw err, w2)
    /\ localStorage w2 = localStorage w
    /\ calls w2 = calls w ++ (if configured (API_KEY env)
                              then [GeminiRequest prompt] else []).
Proof.
  intros Hfail. rewrite fallback_primary_spec.
  destruct (configured (API_KEY env)) eqn:Hkey.
  - destruct Hfail as [Hno|Hfail]; [congruence|]. cbn zeta.
    destruct (settled (generateContent env prompt)) as [response|err].
    + unfold malformed in Hfail.
      destruct (JSON_parse _) as [d|err]; [destruct Hfail|].
      eexists _, _. repeat split.
    + eexists _, _. repeat split.
  - eexists _, _. repeat split. cbn. symmetry. apply app_nil_r.
Qed.

(** ** Fallback chain *)


(** ** Serving the stale record *)

Lemma stale_entry_record (c : jsstring) (d srcs : jsval) (ts : Z) (stored : Language) :
  JSON_parse c = Normal (cache_record d srcs ts stored) ->
  stale_entry (Some c)
  = Some (mkResult (spread d [(js "status", JStr (js "QUOTA_EXCEEDED"))]) srcs).
Proof.
  intros Hparse. unfold stale_entry.
  rewrite (JSON_parse_nonempty _ _ Hparse), Hparse. reflexivity.
Qed.

Lemma record_not_served (language stored : Language) (w : World) (c : jsstring)
  (d srcs : jsval) (ts : Z) :
  localStorage w !! CACHE_KEY = Some c ->
  JSON_parse c = Normal (cache_record d srcs ts stored) ->
  ~ ((clock w - ts < CACHE_DURATION_MS)%Z /\ stored = language) ->
  cached_fresh language w = None /\ after_check language w = w.
Proof.
  intros Hstore Hparse Hnot. unfold cached_fresh, after_check.
  rewrite Hstore, (JSON_parse_nonempty _ _ Hparse).
  rewrite (fresh_entry_record _ _ _ _ _ _ _ Hparse).
  destruct ((clock w - ts <? CACHE_DURATION_MS)%Z && bool_decide (stored = language))
    eqn:Hb; [|split; reflexivity].
  apply andb_true_iff in Hb. destruct Hb as [Hlt Heq].
  apply Z.ltb_lt in Hlt. apply bool_decide_eq_true in Heq. tauto.
Qed.

Lemma service_primary_fails (env : Env) (language : Language) (prompt : Prompt)
  (w : World) :
  ServiceProps.primary_fails env prompt ->
  exists err w2,
    Service.acquire_primary env language prompt w = (Throw err, w2)
    /\ localStorage w2 = localStorage w
    /\ calls w2 = calls w ++ [GeminiRequest prompt].
Proof.
  unfold ServiceProps.primary_fails. intros Hfail.
  rewrite acquire_primary_spec. cbn zeta.
  destruct (settled (generateContent env prompt)) as [response|err].
  - unfold malformed in Hfail.
    destruct (JSON_parse _) as [d|err]; [destruct Hfail|].
    eexists _, _. repeat split.
  - eexists _, _. repeat split.
Qed.

Lemma fallback_secondary_fails (env : Env) (language : Language) (prompt : Prompt)
  (w : World) :
  FallbackProps.secondary_fails env prompt ->
  exists w2,
    ServiceWithFallback.acquire_secondary env language prompt w = (Normal None, w2)
    /\ localStorage w2 = localStorage w.
Proof.
  intros Hfail. rewrite acquire_secondary_spec.
  destruct (configured (OPENAI_API_KEY env)) eqn:Hkey; [|eexists; split; reflexivity].
  destruct Hfail as [Hno|Hfail]; [congruence|].
  rewrite fetchOpenAIFallback_spec, Hkey. cbn zeta.
  destruct (settled (fetch env prompt)) as [response|err].
  - destruct Hfail as [Hok|Hthrow].
    + rewrite Hok. eexists; split; reflexivity.
    + destruct (ok response); [|eexists; split; reflexivity].
      destruct (ServiceWithFallback.openai_payload (body response));
        [destruct Hthrow|].
      eexists; split; reflexivity.
  - eexists; split; reflexivity.
Qed.

(** C3. With a stored record that is not served directly (it is stale, or
    was stored for another language), when the provider call fails (in the
    version with a fallback: when the primary fails, be it for a missing
    credential, and the secondary fails or is not configured),
    [fetchNewsUpdates] resolves to the stored data with [status] set to
    [QUOTA_EXCEEDED], whatever status was stored, every other field of the
    data being as stored, and to the stored sources; the storage is left as
    it was.  In the version with the configuration check the provider is
    called only when its credential is configured. *)
Theorem stale_cache_marked_quota_exceeded (env : Env) (language stored : Language)
  (previousHighlights : list NewsHighlight) (w : World)
  (c : jsstring) (d srcs : jsval) (ts : Z) :
  localStorage w !! CACHE_KEY = Some c ->
  JSON_parse c = Normal (cache_record d srcs ts stored) ->
  ~ ((clock w - ts < CACHE_DURATION_MS)%Z /\ stored = language) ->
  let prompt := prompt_of language previousHighlights (clock w) in
  let stale := mkResult (spread d [(js "status", JStr (js "QUOTA_EXCEEDED"))]) srcs in
  (configured (API_KEY env) = true ->
   ServiceProps.primary_fails env prompt ->
   let run := Service.fetchNewsUpdates env language previousHighlights w in
   fst run = Normal stale /\ localStorage (snd run) = localStorage w)
  /\ (FallbackProps.primary_fails env prompt ->
      FallbackProps.secondary_fails env prompt ->
      let run := ServiceWithFallback.fetchNewsUpdates env language previousHighlights w in
      fst run = Normal stale /\ localStorage (snd run) = localStorage w)
  /\ Get (data stale) (js "status") = Normal (JStr (js "QUOTA_EXCEEDED"))
  /\ (forall ps, d = JObj ps -> List.NoDup (List.map fst ps) ->
      forall k, k <> js "status" -> Get (data stale) k = Get d k)
  /\ (forall generated_at lang status highlights,
      d = news_response generated_at lang status highlights ->
      data stale = news_response generated_at lang (js "QUOTA_EXCEEDED") highlights).
Proof.
  intros Hstore Hparse Hnot prompt stale.
  destruct (record_not_served _ _ _ _ _ _ _ Hstore Hparse Hnot) as [Hmiss Hsame].
  pose proof (stale_entry_record _ _ _ _ _ Hparse) as Hstale.
  split; [|split; [|split; [|split]]].
  - intros Hkey Hfail run. subst run.
    rewrite fetchNewsUpdates_spec, Hmiss, Hsame, Hkey. cbn zeta.
    destruct (service_primary_fails env language prompt w Hfail)
      as (err & w2 & Hrun & Hst & _).
    fold prompt. rewrite Hrun, fail_safe_spec, Hst, Hstore, Hstale.
    split; [reflexivity | exact Hst].
  - intros Hprimary Hsecondary run. subst run.
    rewrite fallback_fetchNewsUpdates_spec, Hmiss, Hsame. cbn zeta. fold prompt.
    destruct (fallback_primary_fails env language prompt w Hprimary)
      as (err & w2 & Hrun & Hst & _).
    rewrite Hrun, fail_over_spec.
    destruct (fallback_secondary_fails env language prompt
                (logged (primary_failed_line err) w2) Hsecondary)
      as (w3 & Hsec & Hst3).
    rewrite Hsec, Hstore, Hstale.
    split; [reflexivity|]. cbn [snd]. rewrite Hst3. exact Hst.
  - apply Get_spread_status.
  - intros ps -> Hnd k Hk. cbn [data stale].
    rewrite (Get_spread_override _ _ _ _ Hnd).
    destruct (jsstring_eqb k (js "status")) eqn:E; [|reflexivity].
    apply jsstring_eqb_true in E. contradiction.
  - intros generated_at lang status highlights ->. reflexivity.
Qed.

(** ** The static fallback *)

Lemma FALLBACK_DATA_shape (env : Env) :
  FALLBACK_DATA env
  = news_response (toISOString (moduleLoadedAt env)) (js "en") (js "QUOTA_EXCEEDED")
      FALLBACK_highlights.
Proof. reflexivity. Qed.

Lemma configErrorData_shape (env : Env) :
  Service.configErrorData env
  = news_response (toISOString (moduleLoadedAt env)) (js "en") (js "QUOTA_EXCEEDED")
      [Service.configHighlight].
Proof. reflexivity. Qed.

Lemma empty_cache_not_served (language : Language) (w : World) :
  localStorage w !! CACHE_KEY = None ->
  cached_fresh language w = None /\ after_check language w = w.
Proof.
  intros Hnone. unfold cached_fresh, after_check. rewrite Hnone. split; reflexivity.
Qed.

Lemma service_static_fallback (env : Env) (language : Language)
  (previousHighlights : list NewsHighlight) (w : World) :
  localStorage w !! CACHE_KEY = None ->
  configured (API_KEY env) = true ->
  ServiceProps.primary_fails env (prompt_of language previousHighlights (clock w)) ->
  fst (Service.fetchNewsUpdates env language previousHighlights w)
  = Normal (mkResult (FALLBACK_DATA env) (JArr [])).
Proof.
  intros Hnone Hkey Hfail.
  destruct (empty_cache_not_served language w Hnone) as [Hmiss Hsame].
  rewrite fetchNewsUpdates_spec, Hmiss, Hsame, Hkey. cbn zeta.
  destruct (service_primary_fails env language _ w Hfail)
    as (err & w2 & Hrun & Hst & _).
  rewrite Hrun, fail_safe_spec, Hst, Hnone. reflexivity.
Qed.

(** C6. With no record under the cache key, when the provider call fails (in
    the version with a fallback: when both providers fail),
    [fetchNewsUpdates] resolves to the fixed [FALLBACK_DATA] (status
    [QUOTA_EXCEEDED], the four archival highlights) with an empty list of
    sources. *)
Theorem static_fallback_when_nothing_else (env : Env) (language : Language)
  (previousHighlights : list NewsHighlight) (w : World) :
  localStorage w !! CACHE_KEY = None ->
  let prompt := prompt_of language previousHighlights (clock w) in
  let fallback :=
    mkResult (news_response (toISOString (moduleLoadedAt env)) (js "en")
                (js "QUOTA_EXCEEDED") FALLBACK_highlights) (JArr []) in
  (configured (API_KEY env) = true ->
   ServiceProps.primary_fails env prompt ->
   fst (Service.fetchNewsUpdates env language previousHighlights w) = Normal fallback)
  /\ (FallbackProps.primary_fails env prompt ->
      FallbackProps.secondary_fails env prompt ->
      fst (ServiceWithFallback.fetchNewsUpdates env language previousHighlights w)
      = Normal fallback)
  /\ data fallback = FALLBACK_DATA env.
Proof.
  intros Hnone prompt fallback.
  destruct (empty_cache_not_served language w Hnone) as [Hmiss Hsame].
  split; [|split; [|reflexivity]].
  - intros Hkey Hfail.
    exact (service_static_fallback env language previousHighlights w Hnone Hkey Hfail).
  - intros Hprimary Hsecondary.
    rewrite fallback_fetchNewsUpdates_spec, Hmiss, Hsame. cbn zeta. fold prompt.
    destruct (fallback_primary_fails env language prompt w Hprimary)
      as (err & w2 & Hrun & Hst & _).
    rewrite Hrun, fail_over_spec.
    destruct (fallback_secondary_fails env language prompt
                (logged (primary_failed_line err) w2) Hsecondary)
      as (w3 & Hsec & Hst3).
    rewrite Hsec, Hnone. reflexivity.
Qed.

(** ** The configuration error *)

(** C9, as the code has it. With no record under the cache key and no
    primary credential, [fetchNewsUpdates] calls no provider and resolves to
    the static payload with its whole highlight list replaced by the single
    "Configuration Required" highlight: status [QUOTA_EXCEEDED], empty
    sources, storage untouched. *)
Theorem missing_key_gives_configuration_highlight (env : Env) (language : Language)
  (previousHighlights : list NewsHighlight) (w : World) :
  localStorage w !! CACHE_KEY = None ->
  configured (API_KEY env) = false ->
  Service.fetchNewsUpdates env language previousHighlights w
  = (Normal (mkResult
               (news_response (toISOString (moduleLoadedAt env)) (js "en")
                  (js "QUOTA_EXCEEDED") [Service.configHighlight])
               (JArr [])),
     logged missing_key_line w).
Proof.
  intros Hnone Hkey.
  destruct (empty_cache_not_served language w Hnone) as [Hmiss Hsame].
  rewrite fetchNewsUpdates_spec, Hmiss, Hsame, Hkey. reflexivity.
Qed.

(** C10. Whatever language is requested and whatever the time of the call,
    the configuration-error payload and the static fallback payload carry
    [language = "en"] and the [generated_at] computed when the module was
    loaded. *)
Theorem degraded_payloads_not_localised (env : Env) (language : Language)
  (previousHighlights : list NewsHighlight) (w : World) :
  let prompt := prompt_of language previousHighlights (clock w) in
  let run := Service.fetchNewsUpdates env language previousHighlights w in
  let fixed (r : NewsResult) :=
    Get (data r) (js "language") = Normal (JStr (js "en"))
    /\ Get (data r) (js "generated_at")
       = Normal (JStr (toISOString (moduleLoadedAt env))) in
  (cached_fresh language w = None -> configured (API_KEY env) = false ->
   fst run = Normal (mkResult (Service.configErrorData env) (JArr []))
   /\ fixed (mkResult (Service.configErrorData env) (JArr [])))
  /\ (localStorage w !! CACHE_KEY = None -> configured (API_KEY env) = true ->
      ServiceProps.primary_fails env prompt ->
      fst run = Normal (mkResult (FALLBACK_DATA env) (JArr []))
      /\ fixed (mkResult (FALLBACK_DATA env) (JArr []))).
Proof.
  intros prompt run fixed. subst run. split.
  - intros Hmiss Hkey. rewrite fetchNewsUpdates_spec, Hmiss, Hkey.
    split; [reflexivity | split; reflexivity].
  - intros Hnone Hkey Hfail.
    split; [|split; reflexivity].
    exact (service_static_fallback env language previousHighlights w Hnone Hkey Hfail).
Qed.

(** ** The normalizer *)

(** C7, as the code has it. The provider text (["{}"] when it is absent or
    empty) is stripped of its code fences and of surrounding white space and
    parsed as JSON.  Any JSON value is accepted as it is, whatever its
    shape, and nothing else is done; when the text does not parse, the raw
    text is written to the error console and the error thrown is the fixed
    "Invalid response format from news engine." *)
Theorem normalize_accepts_exactly_json (response : GenerateContentResponse) (w : World) :
  let raw := text_or_empty_object response in
  let stripped := trim (remove_all (js "```") (remove_all (js "```json") raw)) in
  (forall v, Service.normalize response w = (Normal v, w)
             <-> JSON_parse stripped = Normal v)
  /\ (forall v, fst (Service.normalize response w) = Normal v
                -> JSON_parse stripped = Normal v)
  /\ (throws (JSON_parse stripped)
      <-> Service.normalize response w
          = (Throw (Error (js "Invalid response format from news engine.")),
             logged (mkLog LevelError [LText (js "Failed to parse JSON"); LText raw]) w)).
Proof.
  intros raw stripped. rewrite normalize_spec.
  change (cleanText (text_or_empty_object response)) with stripped.
  destruct (JSON_parse stripped) as [v'|err]; cbn [throws fst].
  - split; [|split].
    + intros v. split; congruence.
    + intros v. congruence.
    + split; [tauto | discriminate].
  - split; [|split].
    + intros v. split; discriminate.
    + intros v. discriminate.
    + split; [reflexivity | exact (fun _ => I)].
Qed.

(** ** The life cycle of the cache record *)

Lemma corrupt_iff_reading_throws (language : Language) (now : Z) (c : jsstring) :
  corrupt c <-> throws (fresh_entry language now c).
Proof.
  unfold corrupt, fresh_entry, cbind.
  destruct (JSON_parse c) as [entry|]; [|tauto].
  destruct entry; cbn [Get throws]; try tauto;
    repeat match goal with
           | |- context [if ?b then _ else _] => destruct b
           | |- context [match ?o with Some _ => _ | None => _ end] => destruct o
           | |- context [match to_number ?x with Normal _ => _ | Throw _ => _ end] =>
               destruct (to_number x)
           end; cbn [throws]; tauto.
Qed.

Lemma after_check_storage (language : Language) (w : World) :
  localStorage (after_check language w) = localStorage w
  \/ (localStorage (after_check language w) = delete CACHE_KEY (localStorage w)
      /\ exists c, localStorage w !! CACHE_KEY = Some c /\ corrupt c).
Proof.
  unfold after_check.
  destruct (localStorage w !! CACHE_KEY) as [c|] eqn:Hstore; [|left; reflexivity].
  destruct c as [|x c]; [left; reflexivity|]. cbn [nonempty].
  destruct (fresh_entry language (clock w) (x :: c)) as [[r|]|err] eqn:Hread;
    try (left; reflexivity).
  right. split; [reflexivity|]. exists (x :: c). split; [reflexivity|].
  apply (corrupt_iff_reading_throws language (clock w)). rewrite Hread. exact I.
Qed.

Lemma cached_fresh_storage (language : Language) (w : World) (r : NewsResult) :
  cached_fresh language w = Some r ->
  exists c, localStorage w !! CACHE_KEY = Some c
            /\ fresh_entry language (clock w) c = Normal (Some r).
Proof.
  unfold cached_fresh.
  destruct (localStorage w !! CACHE_KEY) as [c|]; [|discriminate].
  destruct c as [|x c]; [discriminate|]. cbn [nonempty].
  destruct (fresh_entry language (clock w) (x :: c)) as [[r'|]|] eqn:Hread;
    try discriminate.
  intros [= ->]. eauto.
Qed.

(** What the outer [catch] of the version with the fallback does to the
    storage: nothing, unless the secondary provider succeeds. *)
Lemma fail_over_storage (env : Env) (language : Language) (prompt : Prompt)
  (cached : option jsstring) (err : exn) (w : World) :
  let out := ServiceWithFallback.fail_over env language prompt cached err w in
  (localStorage (snd out) = localStorage w /\ exists r, fst out = Normal r)
  \/ exists d,
      FallbackProps.secondary_succeeds env prompt d
      /\ fst out = Normal (mkResult d (JArr []))
      /\ localStorage (snd out)
         = <[CACHE_KEY := stringify_text (cache_record d (JArr []) (clock (snd out)) language)]>
             (localStorage w).
Proof.
  cbn zeta. rewrite fail_over_spec, acquire_secondary_spec.
  destruct (configured (OPENAI_API_KEY env)) eqn:Hkey; [|left; eauto].
  rewrite fetchOpenAIFallback_spec, Hkey. cbn zeta.
  destruct (settled (fetch env prompt)) as [response|err2] eqn:Hsettled;
    [|left; eauto].
  destruct (ok response) eqn:Hok; [|left; eauto].
  destruct (ServiceWithFallback.openai_payload (body response)) as [d|err2]
    eqn:Hpayload; [|left; eauto].
  right. exists d. split; [|split; reflexivity].
  split; [exact Hkey|]. exists response. auto.
Qed.

(** C8. On every path of [fetchNewsUpdates] the storage is left as it was,
    or the record that could not be deserialized has been removed, or (after
    a successful call of a provider whose text parsed) the new record has
    been written and the acquired pair is what is returned; this holds for
    the version with the configuration check and for the version with the
    fallback provider.  The degraded paths (missing credential, failed
    provider) never write.  A stored record that cannot be deserialized is a
    cache miss: the call runs as if the record were absent, and raises
    nothing. *)
Theorem cache_written_only_on_success (env : Env) (language : Language)
  (previousHighlights : list NewsHighlight) (w : World) :
  let run := Service.fetchNewsUpdates env language previousHighlights w in
  let run2 := ServiceWithFallback.fetchNewsUpdates env language previousHighlights w in
  let prompt := prompt_of language previousHighlights (clock w) in
  let m := localStorage w in
  let kept_or_cleared (m' : gmap jsstring jsstring) :=
    m' = m \/ (m' = delete CACHE_KEY m
               /\ exists c, m !! CACHE_KEY = Some c /\ corrupt c) in
  let written (out : completion NewsResult * World) (d srcs : jsval) :=
    fst out = Normal (mkResult d srcs)
    /\ localStorage (snd out)
       = <[CACHE_KEY := stringify_text (cache_record d srcs (clock (snd out)) language)]> m in
  let primary_gives (d srcs : jsval) :=
    exists response,
      configured (API_KEY env) = true
      /\ settled (generateContent env prompt) = Normal response
      /\ JSON_parse (cleanText (text_or_empty_object response)) = Normal d
      /\ srcs = sourcesOf response in
  (kept_or_cleared (localStorage (snd run))
   \/ exists d srcs, primary_gives d srcs /\ written run d srcs)
  /\ (kept_or_cleared (localStorage (snd run2))
      \/ exists d srcs,
          (primary_gives d srcs
           \/ (FallbackProps.primary_fails env prompt
               /\ FallbackProps.secondary_succeeds env prompt d /\ srcs = JArr []))
          /\ written run2 d srcs)
  /\ (configured (API_KEY env) = false \/ ServiceProps.primary_fails env prompt ->
      kept_or_cleared (localStorage (snd run)))
  /\ (forall c, m !! CACHE_KEY = Some c -> c <> [] -> corrupt c ->
      run = Service.fetchNewsUpdates env language previousHighlights
              (with_storage (delete CACHE_KEY) w)
      /\ exists r, fst run = Normal r).
Proof.
  intros run run2 prompt m kept_or_cleared written primary_gives.
  assert (Hrun : run = Service.fetchNewsUpdates env language previousHighlights w)
    by reflexivity.
  rewrite fetchNewsUpdates_spec in Hrun.
  assert (Hrun2 : run2
                  = ServiceWithFallback.fetchNewsUpdates env language previousHighlights w)
    by reflexivity.
  rewrite fallback_fetchNewsUpdates_spec in Hrun2.
  pose proof (after_check_storage language w) as Hcheck. fold m in Hcheck.
  split; [|split; [|split]].
  - subst kept_or_cleared written primary_gives. cbn beta. rewrite Hrun.
    destruct (cached_fresh language w) as [r|]; [left; left; reflexivity|].
    cbn zeta. fold prompt.
    destruct (configured (API_KEY env)) eqn:Hkey; [|left; exact Hcheck].
    rewrite acquire_primary_spec. cbn zeta.
    destruct (settled (generateContent env prompt)) as [response|err] eqn:Hsettled.
    + destruct (JSON_parse (cleanText (text_or_empty_object response))) as [d|err]
        eqn:Hparse.
      * right. exists d, (sourcesOf response). split.
        -- exists response. auto.
        -- split; [reflexivity|].
           cbn [snd with_storage localStorage clock called].
           apply insert_after_check.
      * left. rewrite fail_safe_spec. exact Hcheck.
    + left. rewrite fail_safe_spec. exact Hcheck.
  - subst kept_or_cleared written primary_gives. cbn beta. rewrite Hrun2.
    destruct (cached_fresh language w) as [r|]; [left; left; reflexivity|].
    cbn zeta. fold prompt.
    assert (Hover : forall err w2,
               localStorage w2 = localStorage (after_check language w) ->
               FallbackProps.primary_fails env prompt ->
               let out := ServiceWithFallback.fail_over env language prompt
                            (localStorage w !! CACHE_KEY) err w2 in
               (localStorage (snd out) = m
                \/ localStorage (snd out) = delete CACHE_KEY m
                   /\ exists c, m !! CACHE_KEY = Some c /\ corrupt c)
               \/ exists d srcs,
                   ((exists response,
                       configured (API_KEY env) = true
                       /\ settled (generateContent env prompt) = Normal response
                       /\ JSON_parse (cleanText (text_or_empty_object response)) = Normal d
                       /\ srcs = sourcesOf response)
                    \/ (FallbackProps.primary_fails env prompt
                        /\ FallbackProps.secondary_succeeds env prompt d
                        /\ srcs = JArr []))
                   /\ fst out = Normal (mkResult d srcs)
                   /\ localStorage (snd out)
                      = <[CACHE_KEY := stringify_text
                                         (cache_record d srcs (clock (snd out)) language)]> m).
    { intros err w2 Hst Hfails out.
      destruct (fail_over_storage env language prompt (localStorage w !! CACHE_KEY) err w2)
        as [[Hsame _]|(d & Hsec & Hres & Hstore)]; fold out in Hsame || fold out in Hres, Hstore.
      - left. rewrite Hsame, Hst. exact Hcheck.
      - right. exists d, (JArr []). split; [right; auto|]. split; [exact Hres|].
        rewrite Hstore, Hst. apply insert_after_check. }
    rewrite fallback_primary_spec.
    destruct (configured (API_KEY env)) eqn:Hkey.
    + cbn zeta.
      destruct (settled (generateContent env prompt)) as [response|err] eqn:Hsettled.
      * destruct (JSON_parse (cleanText (text_or_empty_object response))) as [d|err]
          eqn:Hparse.
        -- right. exists d, (sourcesOf response). split.
           ++ left. exists response. auto.
           ++ split; [reflexivity|].
              cbn [snd with_storage localStorage clock called].
              apply insert_after_check.
        -- apply Hover; [reflexivity|]. right. rewrite Hsettled.
           unfold malformed. rewrite Hparse. exact I.
      * apply Hover; [reflexivity|]. right. rewrite Hsettled. exact I.
    + apply Hover; [reflexivity|]. left. exact Hkey.
  - subst kept_or_cleared. cbn beta. rewrite Hrun. intros Hdegraded.
    destruct (cached_fresh language w) as [r|]; [left; reflexivity|].
    cbn zeta. fold prompt.
    destruct (configured (API_KEY env)) eqn:Hkey; [|exact Hcheck].
    destruct Hdegraded as [Hno|Hfail]; [discriminate|].
    destruct (service_primary_fails env language prompt (after_check language w) Hfail)
      as (err & w2 & Hprimary & Hst & _).
    rewrite Hprimary, fail_safe_spec. cbn [snd logged localStorage].
    rewrite Hst. exact Hcheck.
  - intros c Hstore Hne Hcorrupt.
    assert (Hread : throws (fresh_entry language (clock w) c))
      by (apply corrupt_iff_reading_throws; exact Hcorrupt).
    assert (Hmiss : cached_fresh language w = None).
    { unfold cached_fresh. fold m. rewrite Hstore.
      destruct c; [congruence|]. cbn [nonempty].
      destruct (fresh_entry _ _ _) as [[r|]|]; [destruct Hread | |]; reflexivity. }
    assert (Hafter : after_check language w = with_storage (delete CACHE_KEY) w).
    { unfold after_check. fold m. rewrite Hstore.
      destruct c; [congruence|]. cbn [nonempty].
      destruct (fresh_entry _ _ _) as [[r|]|]; [destruct Hread |destruct Hread|];
        reflexivity. }
    assert (Hdel : localStorage (with_storage (delete CACHE_KEY) w) !! CACHE_KEY = None)
      by apply lookup_delete_eq.
    destruct (empty_cache_not_served language _ Hdel) as [Hmiss' Hsame'].
    split.
    + rewrite Hrun, fetchNewsUpdates_spec, Hmiss, Hmiss', Hsame', Hafter.
      reflexivity.
    + rewrite Hrun, Hmiss. cbn zeta.
      destruct (configured (API_KEY env)); [|eauto].
      destruct (Service.acquire_primary _ _ _ _) as [[r|err] w2]; [eauto|].
      rewrite fail_safe_spec. eauto.
Qed.

(** ** The state update of [loadNews] *)

Lemma Get_spread_two (ps : list (jsstring * jsval)) (k1 k2 k : jsstring) (v1 v2 : jsval) :
  List.NoDup (List.map fst ps) ->
  Get (spread (JObj ps) [(k1, v1); (k2, v2)]) k
  = if jsstring_eqb k k2 then Normal v2
    else if jsstring_eqb k k1 then Normal v1
    else Get (JObj ps) k.
Proof.
  intros Hnd. unfold spread, object_of_props, own_props, Get.
  change (ps ++ [(k1, v1); (k2, v2)]) with (ps ++ [(k1, v1)] ++ [(k2, v2)]).
  rewrite !fold_left_app. cbn [fold_left fst snd].
  rewrite !lookup_set_prop.
  destruct (jsstring_eqb k k2); [reflexivity|].
  destruct (jsstring_eqb k k1); [reflexivity|].
  rewrite (lookup_fold_set_prop _ _ _ Hnd). cbn [lookup_prop].
  destruct (lookup_prop k ps); reflexivity.
Qed.

(** C2, as the code has it. When the response has status "NO NEW UPDATE"
    and its sources are an array, the update succeeds and leaves the
    reference highlights alone.  If the state already holds data, the new
    data is a copy of that data (so its highlights are the ones on display,
    whatever the response echoed) with [generated_at] and [status] taken
    from the response; if the state holds no data yet, the response is
    delivered as it is. *)
Theorem no_new_update_keeps_displayed_data (d : jsval) (srcs : list jsval) (now : Z)
  (prev : App.AppState) (ref : jsval) :
  Get d (js "status") = Normal (JStr (js "NO NEW UPDATE")) ->
  let out := App.loadNews_update (mkResult d (JArr srcs)) now prev ref in
  snd out = ref
  /\ exists st,
      fst out = Normal st
      /\ (truthy (App.data prev) = true ->
          App.data st
          = spread (App.data prev)
              [(js "generated_at", GetV d (js "generated_at"));
               (js "status", JStr (js "NO NEW UPDATE"))]
          /\ forall ps, App.data prev = JObj ps -> List.NoDup (List.map fst ps) ->
             Get (App.data st) (js "highlights") = Get (App.data prev) (js "highlights")
             /\ Get (App.data st) (js "generated_at") = Get d (js "generated_at")
             /\ Get (App.data st) (js "status") = Get d (js "status")
             /\ forall k, k <> js "generated_at" -> k <> js "status" ->
                Get (App.data st) k = Get (App.data prev) k)
      /\ (truthy (App.data prev) = false -> App.data st = d).
Proof.
  intros Hstatus out. subst out. unfold App.loadNews_update. rewrite Hstatus.
  change (strict_equals_string (JStr (js "NO NEW UPDATE")) (js "NO NEW UPDATE"))
    with true.
  change (strict_equals_string (JStr (js "NO NEW UPDATE")) (js "OK")) with false.
  change (Get (JArr srcs) (js "length"))
    with (Normal (JNum (int (Z.of_nat (List.length srcs))))).
  cbn [to_number fst snd andb].
  split; [reflexivity|]. eexists. split; [reflexivity|].
  cbn [App.data]. split.
  - intros Htruthy. rewrite Htruthy. split; [reflexivity|].
    intros ps Hps Hnd. rewrite Hps.
    assert (Hgen : Get d (js "generated_at") = Normal (GetV d (js "generated_at"))).
    { unfold GetV. destruct d; try discriminate; cbn [Get];
        repeat match goal with
               | |- context [if ?b then _ else _] => destruct b
               | |- context [match ?o with Some _ => _ | None => _ end] => destruct o
               end; reflexivity. }
    rewrite Hgen.
    split; [|split; [|split]].
    + rewrite (Get_spread_two _ _ _ _ _ _ Hnd). reflexivity.
    + rewrite (Get_spread_two _ _ _ _ _ _ Hnd). reflexivity.
    + rewrite (Get_spread_two _ _ _ _ _ _ Hnd). reflexivity.
    + intros k Hk1 Hk2. rewrite (Get_spread_two _ _ _ _ _ _ Hnd).
      apply jsstring_eqb_false in Hk1, Hk2. rewrite Hk1, Hk2. reflexivity.
  - intros Hfalsy. rewrite Hfalsy. reflexivity.
Qed.

(* ================================================================== *)
(** * Worked instances *)
(* ================================================================== *)

(** A record stored 500 seconds ago for [en] answers a request for [en]. *)
Lemma fresh_cache_served_iff_witness :
  let env := sample_env (Some (js "key")) None quota_exhausted quota_exhausted in
  let w := sample_world (Some (sample_record 1699999500000 en)) 1700000000000 in
  let run := Service.fetchNewsUpdates env en sample_previous w in
  localStorage w !! CACHE_KEY = Some (sample_record 1699999500000 en)
  /\ JSON_parse (sample_record 1699999500000 en)
     = Normal (cache_record (sample_data "OK") sample_sources 1699999500000 en)
  /\ fst run = Normal (mkResult (sample_data "OK") sample_sources)
  /\ calls (snd run) = [].
Proof.
  intros env w run.
  assert (H1 : localStorage w !! CACHE_KEY = Some (sample_record 1699999500000 en))
    by (vm_compute; reflexivity).
  assert (H2 : JSON_parse (sample_record 1699999500000 en)
               = Normal (cache_record (sample_data "OK") sample_sources 1699999500000 en))
    by (vm_compute; reflexivity).
  pose proof (fresh_cache_served_iff env en en sample_previous w _ _ _ _ H1 H2)
    as (Hiff & _).
  assert (Hfresh : (clock w - 1699999500000 < CACHE_DURATION_MS)%Z /\ en = en)
    by (split; [vm_compute; reflexivity | reflexivity]).
  apply Hiff in Hfresh. destruct Hfresh as (Hres & Hcalls & _).
  exact (conj H1 (conj H2 (conj Hres Hcalls))).
Defined.

(** A record stored for [en] long ago, a provider out of quota: the record
    is served, marked [QUOTA_EXCEEDED]. *)
Lemma stale_cache_marked_quota_exceeded_witness :
  let env := sample_env (Some (js "key")) None quota_exhausted quota_exhausted in
  let w := sample_world (Some (sample_record 1699990000000 en)) 1700000000000 in
  localStorage w !! CACHE_KEY = Some (sample_record 1699990000000 en)
  /\ JSON_parse (sample_record 1699990000000 en)
     = Normal (cache_record (sample_data "OK") sample_sources 1699990000000 en)
  /\ ~ ((clock w - 1699990000000 < CACHE_DURATION_MS)%Z /\ en = bn)
  /\ fst (Service.fetchNewsUpdates env bn sample_previous w)
     = Normal (mkResult (sample_data "QUOTA_EXCEEDED") sample_sources)
  /\ fst (ServiceWithFallback.fetchNewsUpdates env bn sample_previous w)
     = Normal (mkResult (sample_data "QUOTA_EXCEEDED") sample_sources).
Proof.
  intros env w.
  assert (H1 : localStorage w !! CACHE_KEY = Some (sample_record 1699990000000 en))
    by (vm_compute; reflexivity).
  assert (H2 : JSON_parse (sample_record 1699990000000 en)
               = Normal (cache_record (sample_data "OK") sample_sources 1699990000000 en))
    by (vm_compute; reflexivity).
  assert (H3 : ~ ((clock w - 1699990000000 < CACHE_DURATION_MS)%Z /\ en = bn))
    by (intros [_ Heq]; discriminate Heq).
  pose proof (stale_cache_marked_quota_exceeded env bn en sample_previous w _ _ _ _
                H1 H2 H3) as (Hservice & Hfallback & _).
  assert (Hkey : configured (API_KEY env) = true) by reflexivity.
  assert (Hfail : ServiceProps.primary_fails env
                    (prompt_of bn sample_previous (clock w))) by exact I.
  assert (Hfail' : FallbackProps.primary_fails env
                     (prompt_of bn sample_previous (clock w))) by (right; exact I).
  assert (Hsec : FallbackProps.secondary_fails env
                   (prompt_of bn sample_previous (clock w))) by (left; reflexivity).
  exact (conj H1 (conj H2 (conj H3
           (conj (proj1 (Hservice Hkey Hfail)) (proj1 (Hfallback Hfail' Hsec)))))).
Defined.


(** Nothing stored, provider out of quota: the static payload. *)
Lemma static_fallback_when_nothing_else_witness :
  let env := sample_env (Some (js "key")) None quota_exhausted quota_exhausted in
  let w := sample_world None 1700000000000 in
  localStorage w !! CACHE_KEY = None
  /\ fst (Service.fetchNewsUpdates env bn sample_previous w)
     = Normal (mkResult (FALLBACK_DATA env) (JArr []))
  /\ fst (ServiceWithFallback.fetchNewsUpdates env bn sample_previous w)
     = Normal (mkResult (FALLBACK_DATA env) (JArr [])).
Proof.
  intros env w.
  assert (H1 : localStorage w !! CACHE_KEY = None) by reflexivity.
  pose proof (static_fallback_when_nothing_else env bn sample_previous w H1)
    as (Hservice & Hfallback & _).
  refine (conj H1 (conj (Hservice _ _) (Hfallback _ _))).
  - reflexivity.
  - exact I.
  - right. exact I.
  - left. reflexivity.
Defined.

(** No credential, nothing stored: [acquire('en', [])]. *)
Lemma missing_key_gives_configuration_highlight_witness :
  let env := sample_env None None quota_exhausted quota_exhausted in
  let w := sample_world None 1700000000000 in
  localStorage w !! CACHE_KEY = None
  /\ configured (API_KEY env) = false
  /\ fst (Service.fetchNewsUpdates env en [] w)
     = Normal (mkResult
                 (news_response (js "2023-11-14T19:26:40.000Z") (js "en")
                    (js "QUOTA_EXCEEDED") [Service.configHighlight])
                 (JArr []))
  /\ calls (snd (Service.fetchNewsUpdates env en [] w)) = [].
Proof.
  intros env w.
  assert (H1 : localStorage w !! CACHE_KEY = None) by reflexivity.
  assert (H2 : configured (API_KEY env) = false) by reflexivity.
  pose proof (missing_key_gives_configuration_highlight env en [] w H1 H2) as Hrun.
  rewrite Hrun. exact (conj H1 (conj H2 (conj eq_refl eq_refl))).
Defined.

(** A request for [bn], long after the module was loaded. *)
Lemma degraded_payloads_not_localised_witness :
  let w := sample_world None 1700000000000 in
  let unconfigured := sample_env None None quota_exhausted quota_exhausted in
  let failing := sample_env (Some (js "key")) None quota_exhausted quota_exhausted in
  (cached_fresh bn w = None /\ configured (API_KEY unconfigured) = false
   /\ localStorage w !! CACHE_KEY = None /\ configured (API_KEY failing) = true
   /\ ServiceProps.primary_fails failing (prompt_of bn sample_previous (clock w)))
  /\ Get (Service.configErrorData unconfigured) (js "language") = Normal (JStr (js "en"))
  /\ Get (FALLBACK_DATA failing) (js "generated_at")
     = Normal (JStr (js "2023-11-14T19:26:40.000Z")).
Proof.
  intros w unconfigured failing.
  assert (H1 : cached_fresh bn w = None) by reflexivity.
  assert (H2 : configured (API_KEY unconfigured) = false) by reflexivity.
  assert (H3 : localStorage w !! CACHE_KEY = None) by reflexivity.
  assert (H4 : configured (API_KEY failing) = true) by reflexivity.
  assert (H5 : ServiceProps.primary_fails failing (prompt_of bn sample_previous (clock w)))
    by exact I.
  pose proof (degraded_payloads_not_localised unconfigured bn sample_previous w)
    as (Hconfig & _).
  pose proof (degraded_payloads_not_localised failing bn sample_previous w)
    as (_ & Hstatic).
  destruct (Hconfig H1 H2) as (_ & Hlang & _).
  destruct (Hstatic H3 H4 H5) as (_ & _ & Hgen).
  exact (conj (conj H1 (conj H2 (conj H3 (conj H4 H5)))) (conj Hlang Hgen)).
Defined.

(** A record that is not JSON is removed, and the call runs as without it. *)
Lemma cache_written_only_on_success_witness :
  let env := sample_env (Some (js "key")) None quota_exhausted quota_exhausted in
  let w := sample_world (Some (js "{not json")) 1700000000000 in
  let run := Service.fetchNewsUpdates env en sample_previous w in
  (localStorage w !! CACHE_KEY = Some (js "{not json") /\ corrupt (js "{not json"))
  /\ run = Service.fetchNewsUpdates env en sample_previous
             (with_storage (delete CACHE_KEY) w)
  /\ localStorage (snd run) !! CACHE_KEY = None.
Proof.
  intros env w run.
  assert (H1 : localStorage w !! CACHE_KEY = Some (js "{not json"))
    by (vm_compute; reflexivity).
  assert (H2 : js "{not json" <> []) by discriminate.
  assert (H3 : corrupt (js "{not json")) by exact I.
  pose proof (cache_written_only_on_success env en sample_previous w)
    as (_ & _ & _ & Hmiss).
  destruct (Hmiss _ H1 H2 H3) as [Hsame _].
  refine (conj (conj H1 H3) (conj Hsame _)).
  vm_compute. reflexivity.
Defined.

(** The data on display is kept when the provider reports no new update. *)
Lemma no_new_update_keeps_displayed_data_witness :
  let d := news_response (js "2023-11-14 23:00 UTC") (js "en") (js "NO NEW UPDATE")
             [sample_other_highlight] in
  let prev := App.mkAppState (sample_data "OK") false None (Some 1700000000000%Z)
                sample_sources in
  let out := App.loadNews_update (mkResult d (JArr [])) 1700000300000 prev
               (JArr [sample_highlight]) in
  Get d (js "status") = Normal (JStr (js "NO NEW UPDATE"))
  /\ snd out = JArr [sample_highlight]
  /\ exists st, fst out = Normal st
                /\ App.data st
                   = news_response (js "2023-11-14 23:00 UTC") (js "en")
                       (js "NO NEW UPDATE") [sample_highlight].
Proof.
  intros d prev out.
  assert (H1 : Get d (js "status") = Normal (JStr (js "NO NEW UPDATE"))) by reflexivity.
  pose proof (no_new_update_keeps_displayed_data d [] 1700000300000 prev
                (JArr [sample_highlight]) H1) as (Href & st & Hst & Hkeep & _).
  refine (conj H1 (conj Href (ex_intro _ st (conj Hst _)))).
  destruct (Hkeep eq_refl) as [Hdata _]. rewrite Hdata. reflexivity.
Defined.

(* ================================================================== *)
(** * Where the code departs from the wording *)
(* ================================================================== *)

(** C2, counterexample. On the first load the state holds no data and the
    reference highlights are empty; a response with status "NO NEW UPDATE"
    is then delivered with the highlights it carries, not with the
    reference ones. *)
Lemma no_new_update_first_load_delivers_echo :
  let H := JArr [] in
  let H' := JArr [sample_highlight] in
  let response := mkResult (sample_data "NO NEW UPDATE") (JArr []) in
  exists st,
    App.loadNews_update response 1700000000000 App.initialState H = (Normal st, H)
    /\ Get (App.data st) (js "status") = Normal (JStr (js "NO NEW UPDATE"))
    /\ Get (App.data st) (js "highlights") = Normal H'
    /\ H' <> H.
Proof.
  eexists. split; [vm_compute; reflexivity|].
  split; [reflexivity|]. split; [reflexivity | discriminate].
Qed.

(** C7, counterexample. A text that is JSON but not a news response is
    accepted as it is; and the error thrown for a text that is not JSON
    carries a fixed message, not the raw text. *)
Lemma normalize_accepts_shapeless_json :
  let w := sample_world None 1700000000000 in
  let fenced := mkResponse (Some (js "```json 42 ```")) None in
  let prose := mkResponse (Some (js "Sorry, no news today.")) None in
  (Service.normalize fenced w = (Normal (JNum (int 42)), w)
   /\ is_NewsResponse (JNum (int 42)) = false)
  /\ (exists e, fst (Service.normalize prose w) = Throw e
                /\ message_of e = js "Invalid response format from news engine."
                /\ message_of e <> js "Sorry, no news today.").
Proof.
  split.
  - split; vm_compute; reflexivity.
  - eexists. split; [vm_compute; reflexivity|].
    split; [reflexivity | discriminate].
Qed.

(** C9, counterexample. The configuration-error payload holds the single
    "Configuration Required" highlight: the three archival highlights that
    the wording keeps are gone. *)
Lemma configuration_error_drops_archive :
  let env := sample_env None None quota_exhausted quota_exhausted in
  let run := Service.fetchNewsUpdates env en [] (sample_world None 1700000000000) in
  exists r,
    fst run = Normal r
    /\ Get (data r) (js "highlights") = Normal (JArr [Service.configHighlight])
    /\ Get (data r) (js "highlights") <> Normal (JArr spec_config_highlights)
    /\ List.length spec_config_highlights = 4%nat.
Proof.
  eexists. split; [vm_compute; reflexivity|].
  split; [reflexivity|]. split; [|reflexivity].
  vm_compute. discriminate.
Qed.

(* ================================================================== *)
(** * The digits of a number *)
(* ================================================================== *)

Lemma value_of_digits_app (xs ys : jsstring) :
  value_of_digits (xs ++ ys)
  = fold_left (fun acc c => acc * 10 + (Z.of_N c - 48))%Z ys (value_of_digits xs).
Proof. unfold value_of_digits. apply fold_left_app. Qed.

Lemma digits_fuel_value (fuel : nat) :
  forall n acc, (n < 2 ^ N.of_nat fuel)%N ->
    exists ds, digits_fuel fuel n acc = ds ++ acc
               /\ value_of_digits ds = Z.of_N n.
Proof.
  induction fuel as [|f IH]; intros n acc Hn.
  - exists []. split; [reflexivity|]. cbn in Hn. cbn. lia.
  - cbn [digits_fuel]. destruct (n <? 10)%N eqn:Hlt.
    + apply N.ltb_lt in Hlt. exists [(48 + n mod 10)%N]. split; [reflexivity|].
      cbn. rewrite N.mod_small by exact Hlt. lia.
    + apply N.ltb_ge in Hlt.
      assert (Hdiv : (n / 10 < 2 ^ N.of_nat f)%N).
      { rewrite Nat2N.inj_succ, N.pow_succ_r' in Hn.
        apply N.Div0.div_lt_upper_bound. lia. }
      destruct (IH (n / 10)%N ((48 + n mod 10)%N :: acc) Hdiv) as (ds & Heq & Hval).
      exists (ds ++ [(48 + n mod 10)%N]). split.
      * rewrite Heq, <- app_assoc. reflexivity.
      * rewrite value_of_digits_app, Hval. cbn.
        pose proof (N.div_mod n 10 ltac:(lia)) as Hdm. lia.
Qed.

(** [digits] gives every number all of its digits. *)
Theorem digits_value (n : N) : value_of_digits (digits n) = Z.of_N n.
Proof.
  unfold digits.
  assert (Hn : (n < 2 ^ N.of_nat (S (N.to_nat (N.log2 n))))%N).
  { rewrite Nat2N.inj_succ, N2Nat.id.
    destruct n as [|p]; [reflexivity|]. apply N.log2_spec. lia. }
  destruct (digits_fuel_value _ n [] Hn) as (ds & Heq & Hval).
  rewrite Heq, app_nil_r. exact Hval.
Qed.

(* ================================================================== *)
(** * The parser never runs out of fuel *)
(* ================================================================== *)

Lemma skip_ws_length (s : jsstring) : List.length (skip_ws s) <= List.length s.
Proof.
  induction s as [|c r IH]; cbn; [lia|].
  destruct (is_json_ws c); cbn; lia.
Qed.

Lemma starts_with_length (c : N) (s r : jsstring) :
  starts_with c s = Some r -> List.length s = S (List.length r).
Proof.
  destruct s as [|x t]; cbn; [discriminate|].
  destruct (x =? c)%N; [|discriminate]. intros [= ->]. reflexivity.
Qed.

Lemma span_digits_length (s d t : jsstring) :
  span_digits s = (d, t) -> List.length s = (List.length d + List.length t)%nat.
Proof.
  revert d t. induction s as [|c r IH]; cbn; intros d t.
  - intros [= <- <-]. reflexivity.
  - destruct (is_digit c).
    + destruct (span_digits r) as [d' t'] eqn:E. intros [= <- <-].
      cbn. rewrite (IH _ _ eq_refl). reflexivity.
    + intros [= <- <-]. reflexivity.
Qed.

Lemma parse_string_body_length (n : nat) :
  forall s acc k r, List.length s <= n ->
    parse_string_body s acc = Some (k, r) -> List.length r < List.length s.
Proof.
  induction n as [|n IH]; intros s acc k r Hn.
  - destruct s; [discriminate | cbn in Hn; lia].
  - destruct s as [|c t]; [discriminate|]. cbn [parse_string_body].
    cbn in Hn.
    destruct (c =? 34)%N; [intros [= <- <-]; cbn; lia|].
    destruct (c =? 92)%N.
    + destruct t as [|e t1]; [discriminate|].
      destruct (e =? 117)%N.
      * destruct t1 as [|h1 [|h2 [|h3 [|h4 t2]]]]; try discriminate.
        destruct (hex4 h1 h2 h3 h4); [|discriminate].
        intros H. apply IH in H; cbn in *; lia.
      * destruct (simple_escape e); [|discriminate].
        intros H. apply IH in H; cbn in *; lia.
    + destruct (c <? 32)%N; [discriminate|].
      intros H. apply IH in H; cbn in *; lia.
Qed.

Lemma parse_fraction_length (s fp r : jsstring) :
  parse_fraction s = Some (fp, r) -> List.length r <= List.length s.
Proof.
  unfold parse_fraction.
  destruct (starts_with 46 s) as [t|] eqn:Hdot.
  - apply starts_with_length in Hdot.
    destruct (span_digits t) as [d u] eqn:Hspan.
    apply span_digits_length in Hspan.
    destruct d; [discriminate|]. intros [= <- <-]. lia.
  - intros [= <- <-]. lia.
Qed.

Lemma parse_exponent_length (s : jsstring) (e : Z) (r : jsstring) :
  parse_exponent s = Some (e, r) -> List.length r <= List.length s.
Proof.
  unfold parse_exponent. destruct s as [|c t]; [intros [= <- <-]; lia|].
  destruct ((c =? 101) || (c =? 69))%N; [|intros [= <- <-]; lia].
  assert (Hsign : forall neg t1,
             (match starts_with 45 t with
              | Some u => (true, u)
              | None => match starts_with 43 t with
                        | Some u => (false, u)
                        | None => (false, t)
                        end
              end) = (neg, t1) -> List.length t1 <= List.length t).
  { intros neg t1.
    destruct (starts_with 45 t) as [u|] eqn:H1.
    - apply starts_with_length in H1. intros [= <- <-]. lia.
    - destruct (starts_with 43 t) as [u|] eqn:H2.
      + apply starts_with_length in H2. intros [= <- <-]. lia.
      + intros [= <- <-]. lia. }
  destruct (match starts_with 45 t with Some u => _ | None => _ end) as [neg t1].
  specialize (Hsign _ _ eq_refl).
  destruct (span_digits t1) as [d u] eqn:Hspan.
  apply span_digits_length in Hspan.
  destruct d; [discriminate|]. intros [= <- <-]. cbn in *. lia.
Qed.

Lemma parse_number_length (s : jsstring) (x : number) (r : jsstring) :
  parse_number s = Some (x, r) -> List.length r < List.length s.
Proof.
  unfold parse_number.
  assert (Hsign : forall neg s1,
             (match starts_with 45 s with
              | Some t => (true, t)
              | None => (false, s)
              end) = (neg, s1) -> List.length s1 <= List.length s).
  { intros neg s1. destruct (starts_with 45 s) as [t|] eqn:H1.
    - apply starts_with_length in H1. intros [= <- <-]. lia.
    - intros [= <- <-]. lia. }
  destruct (match starts_with 45 s with Some t => _ | None => _ end) as [neg s1].
  specialize (Hsign _ _ eq_refl).
  destruct (span_digits s1) as [ip s2] eqn:Hspan.
  apply span_digits_length in Hspan.
  destruct (int_part_ok ip) eqn:Hok; [|discriminate].
  assert (Hip : 0 < List.length ip) by (destruct ip; [discriminate | cbn; lia]).
  destruct (parse_fraction s2) as [[fp s3]|] eqn:Hfrac; [|discriminate].
  apply parse_fraction_length in Hfrac.
  destruct (parse_exponent s3) as [[e s4]|] eqn:Hexp; [|discriminate].
  apply parse_exponent_length in Hexp.
  intros [= <- <-]. lia.
Qed.

Lemma is_prefix_length (p s : jsstring) :
  is_prefix p s = true -> List.length p <= List.length s.
Proof.
  revert s. induction p as [|a p IH]; intros [|b s]; cbn; try lia; try discriminate.
  intros H. apply andb_true_iff in H. destruct H as [_ H]. apply IH in H. lia.
Qed.

Lemma parse_literal_length (word : jsstring) (v v' : jsval) (s r : jsstring) :
  0 < List.length word ->
  parse_literal word v s = POk v' r -> List.length r < List.length s.
Proof.
  unfold parse_literal. intros Hword.
  destruct (is_prefix word s) eqn:Hp; [|discriminate].
  apply is_prefix_length in Hp. intros [= <- <-].
  rewrite length_skipn. lia.
Qed.

Lemma separator_of_length (close : N) (s : jsstring) :
  match separator_of close s with
  | Comma r | Close r => List.length r < List.length s
  | Neither => True
  end.
Proof.
  unfold separator_of. pose proof (skip_ws_length s) as Hws.
  destruct (starts_with 44 (skip_ws s)) as [r|] eqn:H1.
  - apply starts_with_length in H1. lia.
  - destruct (starts_with close (skip_ws s)) as [r|] eqn:H2; [|exact I].
    apply starts_with_length in H2. lia.
Qed.

(** Whatever is parsed consumes input. *)
Lemma parse_consumes (fuel : nat) :
  (forall s v r, parse_value fuel s = POk v r -> List.length r < List.length s)
  /\ (forall s acc v r, parse_elements fuel s acc = POk v r ->
        List.length r < List.length s)
  /\ (forall s acc v r, parse_members fuel s acc = POk v r ->
        List.length r < List.length s).
Proof.
  induction fuel as [|f (IHv & IHe & IHm)];
    [repeat split; intros; discriminate|].
  split; [|split].
  - intros s v r. cbn [parse_value].
    pose proof (skip_ws_length s) as Hws.
    destruct (skip_ws s) as [|c t]; [discriminate|]. cbn in Hws.
    pose proof (skip_ws_length t) as Hwt.
    destruct (c =? 123)%N.
    { destruct (starts_with 125 (skip_ws t)) as [r'|] eqn:H1.
      - apply starts_with_length in H1. intros [= <- <-]. lia.
      - intros H. apply IHm in H. lia. }
    destruct (c =? 91)%N.
    { destruct (starts_with 93 (skip_ws t)) as [r'|] eqn:H1.
      - apply starts_with_length in H1. intros [= <- <-]. lia.
      - intros H. apply IHe in H. lia. }
    destruct (c =? 34)%N.
    { destruct (parse_string_body t []) as [[str r']|] eqn:H1; [|discriminate].
      apply (parse_string_body_length _ _ _ _ _ (Nat.le_refl _)) in H1.
      intros [= <- <-]. lia. }
    destruct (c =? 116)%N.
    { intros H. apply parse_literal_length in H; cbn in *; lia. }
    destruct (c =? 102)%N.
    { intros H. apply parse_literal_length in H; cbn in *; lia. }
    destruct (c =? 110)%N.
    { intros H. apply parse_literal_length in H; cbn in *; lia. }
    destruct (parse_number (c :: t)) as [[x r']|] eqn:H1; [|discriminate].
    apply parse_number_length in H1. intros [= <- <-]. cbn in H1. lia.
  - intros s acc v r. cbn [parse_elements].
    destruct (parse_value f s) as [v1 r1| |] eqn:H1; try discriminate.
    apply IHv in H1. pose proof (separator_of_length 93 r1) as Hsep.
    destruct (separator_of 93 r1) as [r'|r'|]; [| |discriminate].
    + intros H. apply IHe in H. lia.
    + intros [= <- <-]. lia.
  - intros s acc v r. cbn [parse_members].
    pose proof (skip_ws_length s) as Hws.
    destruct (starts_with 34 (skip_ws s)) as [t|] eqn:H1; [|discriminate].
    apply starts_with_length in H1.
    destruct (parse_string_body t []) as [[k r1]|] eqn:H2; [|discriminate].
    apply (parse_string_body_length _ _ _ _ _ (Nat.le_refl _)) in H2.
    pose proof (skip_ws_length r1) as Hw1.
    destruct (starts_with 58 (skip_ws r1)) as [r2|] eqn:H3; [|discriminate].
    apply starts_with_length in H3.
    destruct (parse_value f r2) as [v1 r3| |] eqn:H4; try discriminate.
    apply IHv in H4. pose proof (separator_of_length 125 r3) as Hsep.
    destruct (separator_of 125 r3) as [r4|r4|]; [| |discriminate].
    + intros H. apply IHm in H. lia.
    + intros [= <- <-]. lia.
Qed.

Lemma parse_fuel_enough (fuel : nat) :
  (forall s, 2 * List.length s + 2 <= fuel -> parse_value fuel s <> PFuel)
  /\ (forall s acc, 2 * List.length s + 3 <= fuel -> parse_elements fuel s acc <> PFuel)
  /\ (forall s acc, 2 * List.length s + 3 <= fuel -> parse_members fuel s acc <> PFuel).
Proof.
  induction fuel as [|f (IHv & IHe & IHm)];
    [repeat split; intros; lia|].
  split; [|split].
  - intros s Hf. cbn [parse_value].
    pose proof (skip_ws_length s) as Hws.
    destruct (skip_ws s) as [|c t]; [discriminate|]. cbn in Hws.
    destruct (c =? 123)%N.
    { destruct (starts_with 125 (skip_ws t)); [discriminate|]. apply IHm. lia. }
    destruct (c =? 91)%N.
    { destruct (starts_with 93 (skip_ws t)); [discriminate|]. apply IHe. lia. }
    destruct (c =? 34)%N.
    { destruct (parse_string_body t []) as [[str r']|]; discriminate. }
    unfold parse_literal.
    destruct (c =? 116)%N; [destruct (is_prefix _ _); discriminate|].
    destruct (c =? 102)%N; [destruct (is_prefix _ _); discriminate|].
    destruct (c =? 110)%N; [destruct (is_prefix _ _); discriminate|].
    destruct (parse_number (c :: t)) as [[x r']|]; discriminate.
  - intros s acc Hf. cbn [parse_elements].
    assert (Hv : parse_value f s <> PFuel) by (apply IHv; lia).
    destruct (parse_value f s) as [v1 r1| |] eqn:H1; [|discriminate|congruence].
    apply (proj1 (parse_consumes f)) in H1.
    pose proof (separator_of_length 93 r1) as Hsep.
    destruct (separator_of 93 r1) as [r'|r'|]; try discriminate.
    apply IHe. lia.
  - intros s acc Hf. cbn [parse_members].
    pose proof (skip_ws_length s) as Hws.
    destruct (starts_with 34 (skip_ws s)) as [t|] eqn:H1; [|discriminate].
    apply starts_with_length in H1.
    destruct (parse_string_body t []) as [[k r1]|] eqn:H2; [|discriminate].
    apply (parse_string_body_length _ _ _ _ _ (Nat.le_refl _)) in H2.
    pose proof (skip_ws_length r1) as Hw1.
    destruct (starts_with 58 (skip_ws r1)) as [r2|] eqn:H3; [|discriminate].
    apply starts_with_length in H3.
    assert (Hv : parse_value f r2 <> PFuel) by (apply IHv; lia).
    destruct (parse_value f r2) as [v1 r3| |] eqn:H4; [|discriminate|congruence].
    apply (proj1 (parse_consumes f)) in H4.
    pose proof (separator_of_length 125 r3) as Hsep.
    destruct (separator_of 125 r3) as [r4|r4|]; try discriminate.
    apply IHm. lia.
Qed.

(** [JSON_parse] gives each text enough fuel: a [SyntaxError] is always a
    verdict of the grammar. *)
Theorem JSON_parse_fuel_sufficient (text : jsstring) :
  parse_value (parse_fuel text) text <> PFuel.
Proof. apply parse_fuel_enough. unfold parse_fuel. lia. Qed.

(* ================================================================== *)
(** * The runtime on concrete inputs *)
(* ================================================================== *)

Example number_to_string_examples :
  number_to_string (int 1700000000000) = js "1700000000000"
  /\ number_to_string (Dec 15 (-1)) = js "1.5"
  /\ number_to_string (Dec (-25) (-4)) = js "-0.0025"
  /\ number_to_string (Dec 1 21) = js "1e+21"
  /\ number_to_string (Dec 123 (-9)) = js "1.23e-7"
  /\ number_to_string (Dec 1200 0) = js "1200".
Proof. vm_compute. repeat split. Qed.


Example string_to_number_examples :
  string_to_number (js " 12.50 ") = Dec 1250 (-2)
  /\ string_to_number (js "") = int 0
  /\ string_to_number (js "0x1F") = int 31
  /\ string_to_number (js "-Infinity") = NegInf
  /\ string_to_number (js "1e3") = Dec 1 3
  /\ string_to_number (js ".5") = Dec 5 (-1)
  /\ string_to_number (js "5.") = Dec 5 0
  /\ string_to_number (js "12px") = NaN
  /\ string_to_number (js "-0x10") = NaN
  /\ string_to_number (js ".") = NaN.
Proof. vm_compute. repeat split. Qed.


Example to_number_examples :
  to_number (JArr [JNum (int 5)]) = Normal (int 5)
  /\ to_number (JArr []) = Normal (int 0)
  /\ to_number (JArr [JNum (int 1); JNum (int 2)]) = Normal NaN
  /\ to_number (JObj []) = Normal NaN
  /\ to_number (JObj [(js "toString", JNull)]) = Throw cannot_convert.
Proof. vm_compute. repeat split. Qed.


Example JSON_parse_examples :
  JSON_parse (js "{}") = Normal (JObj [])
  /\ JSON_parse (js " [1, 2.50, -3e2, true, null] ")
     = Normal (JArr [JNum (int 1); JNum (Dec 250 (-2)); JNum (Dec (-3) 2);
                     JBool true; JNull])
  /\ JSON_parse (js "{'a':1}") = Throw unexpected_token
  /\ JSON_parse (js "") = Throw unexpected_token
  /\ JSON_parse (js "[1,]") = Throw unexpected_token
  /\ JSON_parse (js "01") = Throw unexpected_token
  /\ JSON_parse (js "nullx") = Throw unexpected_token
  /\ JSON_parse ([123; 34; 97; 34; 58; 34; 92; 117; 48; 48; 52; 49; 34; 125]%N)
     = Normal (JObj [(js "a", JStr (js "A"))])
  /\ JSON_parse ([123; 34; 98; 34; 58; 49; 44; 34; 50; 34; 58; 50; 44; 34; 98;
                  34; 58; 51; 125]%N)
     = Normal (JObj [(js "2", JNum (int 2)); (js "b", JNum (int 3))]).
Proof. vm_compute. repeat split. Qed.


Example JSON_stringify_examples :
  JSON_stringify (JObj [(js "a", JArr [JNum (int 1); JUndefined; JNum NaN]);
                        (js "b", JUndefined); (js "c", JStr [10; 34; 55357]%N)])
  = JStr ([123; 34; 97; 34; 58; 91; 49; 44; 110; 117; 108; 108; 44; 110; 117;
           108; 108; 93; 44; 34; 99; 34; 58; 34; 92; 110; 92; 34; 92; 117; 100;
           56; 51; 100; 34; 125]%N)
  /\ JSON_stringify JUndefined = JUndefined.
Proof. vm_compute. repeat split. Qed.

Example cleanText_examples :
  cleanText (js "```json {} ```") = js "{}"
  /\ cleanText (js "  [1]  ") = js "[1]"
  /\ remove_all (js "```") (js "a````b``c```") = js "a`b``c"
  /\ trim [160; 32; 97; 32; 98; 9; 65279]%N = js "a b".
Proof. vm_compute. repeat split. Qed.

Example toISOString_examples :
  toISOString 0 = js "1970-01-01T00:00:00.000Z"
  /\ toISOString 1700000000000 = js "2023-11-14T22:13:20.000Z"
  /\ toISOString 951782400000 = js "2000-02-29T00:00:00.000Z"
  /\ toISOString 1709164800123 = js "2024-02-29T00:00:00.123Z"
  /\ toISOString (-1) = js "1969-12-31T23:59:59.999Z"
  /\ toISOString 253402300800000 = js "+010000-01-01T00:00:00.000Z".
Proof. vm_compute. repeat split. Qed.

Example spread_examples :
  spread (JArr [JBool true; JNull]) [(js "status", JStr (js "QUOTA_EXCEEDED"))]
  = JObj [(js "0", JBool true); (js "1", JNull);
          (js "status", JStr (js "QUOTA_EXCEEDED"))]
  /\ spread JUndefined [(js "status", JStr (js "QUOTA_EXCEEDED"))]
     = JObj [(js "status", JStr (js "QUOTA_EXCEEDED"))]
  /\ spread (JObj [(js "b", JNull)]) [(js "10", JNull); (js "9", JNull)]
     = JObj [(js "9", JNull); (js "10", JNull); (js "b", JNull)].
Proof. vm_compute. repeat split. Qed.

(** A successful acquisition is written to the storage, and the next call,
    five minutes later, is answered from it without calling the provider. *)
Example acquire_then_serve_from_cache :
  let response :=
    mkResponse (Some (js "```json" ++ stringify_text (sample_data "OK") ++ js "```"))
      (Some [mkCandidate (Some (mkMetadata (Some
         [mkChunk (JObj [(js "uri", JStr (js "https://example.org/summit"));
                         (js "title", JStr (js "Example"))]);
          mkChunk JUndefined;
          mkChunk (JObj [(js "uri", JStr (js "https://example.org/untitled"))])])))]) in
  let env := sample_env (Some (js "key")) None (answers response) quota_exhausted in
  let first := Service.fetchNewsUpdates env en [] (sample_world None 1700000000000) in
  let later := mkWorld (localStorage (snd first)) [] 1700000300000 [] in
  let second := Service.fetchNewsUpdates env en [] later in
  fst first = Normal (mkResult (sample_data "OK") sample_sources)
  /\ localStorage (snd first) !! CACHE_KEY = Some (sample_record 1700000001200 en)
  /\ fst second = Normal (mkResult (sample_data "OK") sample_sources)
  /\ calls (snd second) = []
  /\ console (snd second) = [served_line].
Proof. vm_compute. repeat split. Qed.

(** A stored record whose [timestamp] cannot be converted to a number is
    removed like one that is not JSON. *)
Example unconvertible_timestamp_is_corrupt :
  let c := js "{'data':{},'timestamp':{'toString':1},'lang':'en'}" in
  let c := List.map (fun x => if (x =? 39)%N then 34%N else x) c in
  let env := sample_env None None quota_exhausted quota_exhausted in
  corrupt c
  /\ localStorage (snd (Service.fetchNewsUpdates env en []
                          (sample_world (Some c) 1700000000000))) !! CACHE_KEY = None.
Proof. vm_compute. repeat split. Qed.

(* ================================================================== *)
(** * Storing and reading back *)
(* ================================================================== *)

(** ** Strings *)

Lemma radix_digit_hex_digit (d : N) :
  (d < 16)%N -> radix_digit 16 (hex_digit d) = Some (Z.of_N d).
Proof.
  intros Hd.
  assert (H : (d = 0 \/ d = 1 \/ d = 2 \/ d = 3 \/ d = 4 \/ d = 5 \/ d = 6 \/ d = 7
               \/ d = 8 \/ d = 9 \/ d = 10 \/ d = 11 \/ d = 12 \/ d = 13 \/ d = 14
               \/ d = 15)%N) by lia.
  repeat (destruct H as [-> | H]; [reflexivity|]). subst d. reflexivity.
Qed.

Lemma hex4_unicode_escape (c : N) :
  (c < 65536)%N ->
  hex4 (hex_digit ((c / 4096) mod 16)) (hex_digit ((c / 256) mod 16))
       (hex_digit ((c / 16) mod 16)) (hex_digit (c mod 16)) = Some c.
Proof.
  intros Hc. unfold hex4.
  rewrite !radix_digit_hex_digit by (apply N.mod_upper_bound; discriminate).
  f_equal.
  pose proof (N.div_mod c 16 ltac:(discriminate)) as H1.
  pose proof (N.div_mod (c / 16) 16 ltac:(discriminate)) as H2.
  pose proof (N.div_mod (c / 16 / 16) 16 ltac:(discriminate)) as H3.
  pose proof (N.mod_upper_bound c 16 ltac:(discriminate)) as B1.
  pose proof (N.mod_upper_bound (c / 16) 16 ltac:(discriminate)) as B2.
  pose proof (N.mod_upper_bound (c / 16 / 16) 16 ltac:(discriminate)) as B3.
  change 256%N with (16 * 16)%N. change 4096%N with (16 * 16 * 16)%N.
  rewrite <- !N.Div0.div_div.
  assert (Hq : (c / 16 / 16 / 16 < 16)%N).
  { apply N.Div0.div_lt_upper_bound. apply N.Div0.div_lt_upper_bound.
    apply N.Div0.div_lt_upper_bound. lia. }
  rewrite (N.mod_small (c / 16 / 16 / 16) 16 Hq).
  pose proof (N.div_mod (c / 16 / 16 / 16) 16 ltac:(discriminate)) as H4.
  rewrite (N.mod_small _ _ Hq) in H4.
  lia.
Qed.

Lemma parse_string_body_escape (c : N) (t acc : jsstring) :
  (c < 65536)%N ->
  parse_string_body (unicode_escape c ++ t) acc = parse_string_body t (c :: acc).
Proof.
  intros Hc. unfold unicode_escape. cbn [app parse_string_body].
  change (92 =? 34)%N with false. change (92 =? 92)%N with true.
  change (117 =? 117)%N with true. cbn iota.
  rewrite (hex4_unicode_escape c Hc). reflexivity.
Qed.

Lemma parse_string_body_plain (c : N) (t acc : jsstring) :
  (c =? 34)%N = false -> (c =? 92)%N = false -> (c <? 32)%N = false ->
  parse_string_body (c :: t) acc = parse_string_body t (c :: acc).
Proof. intros H1 H2 H3. cbn [parse_string_body]. rewrite H1, H2, H3. reflexivity. Qed.

Lemma parse_string_body_unit (c : N) (t acc : jsstring) :
  is_high_surrogate c = false ->
  parse_string_body (quote_unit c ++ t) acc = parse_string_body t (c :: acc).
Proof.
  intros Hhigh. unfold quote_unit.
  destruct (c =? 8)%N eqn:E8; [apply N.eqb_eq in E8; subst; reflexivity|].
  destruct (c =? 9)%N eqn:E9; [apply N.eqb_eq in E9; subst; reflexivity|].
  destruct (c =? 10)%N eqn:E10; [apply N.eqb_eq in E10; subst; reflexivity|].
  destruct (c =? 12)%N eqn:E12; [apply N.eqb_eq in E12; subst; reflexivity|].
  destruct (c =? 13)%N eqn:E13; [apply N.eqb_eq in E13; subst; reflexivity|].
  destruct (c =? 34)%N eqn:E34; [apply N.eqb_eq in E34; subst; reflexivity|].
  destruct (c =? 92)%N eqn:E92; [apply N.eqb_eq in E92; subst; reflexivity|].
  destruct ((c <? 32)%N || is_low_surrogate c) eqn:Hesc.
  - apply parse_string_body_escape.
    apply orb_true_iff in Hesc. destruct Hesc as [Hlt|Hlow].
    + apply N.ltb_lt in Hlt. lia.
    + unfold is_low_surrogate in Hlow. apply andb_true_iff in Hlow.
      destruct Hlow as [_ Hle]. apply N.leb_le in Hle. lia.
  - apply orb_false_iff in Hesc. destruct Hesc as [Hlt _].
    apply parse_string_body_plain; assumption.
Qed.

Lemma surrogate_plain (c : N) :
  is_high_surrogate c = true \/ is_low_surrogate c = true ->
  (c =? 34)%N = false /\ (c =? 92)%N = false /\ (c <? 32)%N = false
  /\ (c < 65536)%N.
Proof.
  unfold is_high_surrogate, is_low_surrogate.
  rewrite !andb_true_iff, !N.leb_le.
  intros H. rewrite !N.eqb_neq, N.ltb_ge. lia.
Qed.

(** Reading back the quoted form of a string gives the string. *)
Lemma parse_quote_body (n : nat) :
  forall s acc rest, List.length s <= n ->
    parse_string_body (quote_body s ++ 34%N :: rest) acc
    = Some (List.rev acc ++ s, rest).
Proof.
  induction n as [|n IH]; intros s acc rest Hn.
  - destruct s; [|cbn in Hn; lia]. cbn. rewrite app_nil_r. reflexivity.
  - destruct s as [|c r]; [cbn; rewrite app_nil_r; reflexivity|].
    cbn in Hn. cbn [quote_body].
    destruct (is_high_surrogate c) eqn:Hhigh.
    + destruct (surrogate_plain c (or_introl Hhigh)) as (H1 & H2 & H3 & H4).
      destruct r as [|d r'].
      * rewrite parse_string_body_escape by exact H4.
        cbn. rewrite <- ?app_assoc. reflexivity.
      * destruct (is_low_surrogate d) eqn:Hlow.
        -- destruct (surrogate_plain d (or_intror Hlow)) as (G1 & G2 & G3 & _).
           cbn [app].
           rewrite (parse_string_body_plain c _ _ H1 H2 H3).
           rewrite (parse_string_body_plain d _ _ G1 G2 G3).
           rewrite IH by (cbn in Hn; lia).
           cbn. rewrite <- ?app_assoc. reflexivity.
        -- rewrite <- app_assoc.
           rewrite parse_string_body_escape by exact H4.
           rewrite IH by lia. cbn. rewrite <- ?app_assoc. reflexivity.
    + rewrite <- app_assoc. rewrite parse_string_body_unit by exact Hhigh.
      rewrite IH by lia. cbn. rewrite <- ?app_assoc. reflexivity.
Qed.

(** ** Integers *)

Lemma is_digit_spec (c : N) : is_digit c = true <-> (48 <= c <= 57)%N.
Proof.
  unfold is_digit, digit_of.
  destruct ((48 <=? c) && (c <=? 57))%N eqn:E.
  - apply andb_true_iff in E. rewrite !N.leb_le in E. tauto.
  - apply andb_false_iff in E. rewrite !N.leb_gt in E.
    split; [discriminate | lia].
Qed.

Lemma digits_fuel_all_digits (fuel : nat) :
  forall n acc, forallb is_digit acc = true ->
    forallb is_digit (digits_fuel fuel n acc) = true.
Proof.
  induction fuel as [|f IH]; intros n acc Hacc; [exact Hacc|].
  cbn [digits_fuel].
  assert (Hd : forallb is_digit ((48 + n mod 10)%N :: acc) = true).
  { cbn [forallb]. rewrite Hacc, andb_true_r. apply is_digit_spec.
    pose proof (N.mod_upper_bound n 10 ltac:(discriminate)) as Hmod.
    set (x := (n mod 10)%N) in *. clearbody x. lia. }
  destruct (n <? 10)%N; [exact Hd | apply IH, Hd].
Qed.

Lemma digits_fuel_head (fuel : nat) :
  forall n acc, (1 <= n)%N -> (n < 2 ^ N.of_nat fuel)%N ->
    exists d r, digits_fuel fuel n acc = d :: r /\ (d =? 48)%N = false.
Proof.
  induction fuel as [|f IH]; intros n acc H1 Hn; [cbn in Hn; lia|].
  cbn [digits_fuel]. destruct (n <? 10)%N eqn:Hlt.
  - apply N.ltb_lt in Hlt. eexists _, _. split; [reflexivity|].
    rewrite N.mod_small by exact Hlt. apply N.eqb_neq. lia.
  - apply N.ltb_ge in Hlt. apply IH.
    + apply N.div_le_lower_bound; lia.
    + rewrite Nat2N.inj_succ, N.pow_succ_r' in Hn.
      apply N.Div0.div_lt_upper_bound. lia.
Qed.

Lemma digits_fuel_bound (n : N) : (n < 2 ^ N.of_nat (S (N.to_nat (N.log2 n))))%N.
Proof.
  rewrite Nat2N.inj_succ, N2Nat.id.
  destruct n as [|p]; [reflexivity|]. apply N.log2_spec. lia.
Qed.

Lemma digits_all_digits (n : N) : forallb is_digit (digits n) = true.
Proof. apply digits_fuel_all_digits. reflexivity. Qed.

(** The digits of a number start with a digit, which is [0] only for the
    number zero. *)
Lemma digits_int_part_ok (n : N) :
  exists d r, digits n = d :: r /\ is_digit d = true /\ int_part_ok (d :: r) = true.
Proof.
  destruct (N.eq_dec n 0%N) as [->|Hn].
  - exists 48%N, []. repeat split.
  - destruct (digits_fuel_head _ n [] ltac:(lia) (digits_fuel_bound n))
      as (d & r & Heq & Hd).
    exists d, r. fold (digits n) in Heq. split; [exact Heq|].
    pose proof (digits_all_digits n) as Hall. rewrite Heq in Hall.
    cbn [forallb] in Hall. apply andb_true_iff in Hall. split; [tauto|].
    cbn. destruct r; [reflexivity|]. rewrite Hd. reflexivity.
Qed.

Lemma digits_fuel_length (fuel : nat) :
  forall n acc k, (1 <= k)%nat -> (n < 10 ^ N.of_nat k)%N ->
    List.length (digits_fuel fuel n acc) <= k + List.length acc.
Proof.
  induction fuel as [|f IH]; intros n acc k Hk Hn; [cbn; lia|].
  cbn [digits_fuel]. destruct (n <? 10)%N eqn:Hlt; [cbn; lia|].
  apply N.ltb_ge in Hlt.
  destruct k as [|[|k]]; [lia | cbn in Hn; lia |].
  assert (Hdiv : (n / 10 < 10 ^ N.of_nat (S k))%N).
  { rewrite (Nat2N.inj_succ (S k)), N.pow_succ_r' in Hn.
    apply N.Div0.div_lt_upper_bound. exact Hn. }
  pose proof (IH (n / 10)%N ((48 + n mod 10)%N :: acc) (S k) ltac:(lia) Hdiv) as Hlen.
  cbn [List.length] in Hlen. lia.
Qed.

Lemma drop_zeros_split (l : jsstring) :
  l = zeros (List.length l - List.length (drop_zeros l)) ++ drop_zeros l
  /\ List.length (drop_zeros l) <= List.length l.
Proof.
  induction l as [|c r [IH Hlen]]; [split; reflexivity|].
  cbn [drop_zeros]. destruct (c =? 48)%N eqn:Hc.
  - apply N.eqb_eq in Hc. subst c. split; [|cbn; lia].
    cbn [List.length].
    replace (S (List.length r) - List.length (drop_zeros r))
      with (S (List.length r - List.length (drop_zeros r))) by lia.
    cbn [zeros repeat app]. f_equal. exact IH.
  - split; [|lia]. rewrite Nat.sub_diag. reflexivity.
Qed.

Lemma strip_trailing_zeros_restore (l : jsstring) :
  strip_trailing_zeros l
    ++ zeros (List.length l - List.length (strip_trailing_zeros l)) = l
  /\ List.length (strip_trailing_zeros l) <= List.length l.
Proof.
  unfold strip_trailing_zeros.
  destruct (drop_zeros_split (List.rev l)) as [Hsplit Hlen].
  rewrite !length_rev in *. split; [|exact Hlen].
  transitivity (List.rev (zeros (List.length l - List.length (drop_zeros (List.rev l)))
                          ++ drop_zeros (List.rev l))).
  - rewrite rev_app_distr. unfold zeros. rewrite rev_repeat. reflexivity.
  - rewrite <- Hsplit. apply rev_involutive.
Qed.

(** An integer below [10^21] is printed as its digits. *)
Lemma number_to_string_int (m : Z) :
  (Z.abs m < 10 ^ 21)%Z ->
  number_to_string (Dec m 0)
  = (if (m <? 0)%Z then js "-" else []) ++ digits (Z.abs_N m).
Proof.
  intros Hm.
  assert (Hpos : forall p, (Zpos p < 10 ^ 21)%Z ->
             positive_to_string (Npos p) 0 = digits (Npos p)).
  { intros p Hp. unfold positive_to_string.
    destruct (strip_trailing_zeros_restore (digits (Npos p))) as [Hrestore Hlen].
    assert (Hdig : List.length (digits (Npos p)) <= 21).
    { pose proof (digits_fuel_length (S (N.to_nat (N.log2 (Npos p)))) (Npos p) [] 21
                    ltac:(lia)) as Hb.
      cbn [List.length] in Hb. fold (digits (Npos p)) in Hb.
      rewrite Nat.add_0_r in Hb. apply Hb.
      change (10 ^ N.of_nat 21)%N with (Z.to_N (10 ^ 21)). lia. }
    rewrite Z.add_0_r.
    assert (Hcond : ((Z.of_nat (List.length (strip_trailing_zeros (digits (Npos p))))
                      <=? Z.of_nat (List.length (digits (Npos p))))
                     && (Z.of_nat (List.length (digits (Npos p))) <=? 21))%Z = true).
    { apply andb_true_iff. rewrite !Z.leb_le. lia. }
    rewrite Hcond.
    replace (Z.to_nat (Z.of_nat (List.length (digits (Npos p)))
                       - Z.of_nat (List.length (strip_trailing_zeros (digits (Npos p))))))
      with (List.length (digits (Npos p))
            - List.length (strip_trailing_zeros (digits (Npos p)))) by lia.
    exact Hrestore. }
  destruct m as [|p|p]; cbn [number_to_string Z.ltb Z.compare Z.abs_N Z.abs].
  - reflexivity.
  - rewrite Hpos by exact Hm. reflexivity.
  - rewrite Hpos by exact Hm. reflexivity.
Qed.

Lemma delimited_not_digit (rest : jsstring) :
  delimited rest ->
  span_digits rest = ([], rest)
  /\ starts_with 46 rest = None
  /\ parse_exponent rest = Some (0%Z, rest)
  /\ skip_ws rest = rest.
Proof.
  destruct rest as [|c t]; [repeat split|].
  intros [-> | [-> | ->]]; repeat split.
Qed.

Lemma span_digits_app (ds rest : jsstring) :
  forallb is_digit ds = true -> span_digits rest = ([], rest) ->
  span_digits (ds ++ rest) = (ds, rest).
Proof.
  intros Hds Hrest. induction ds as [|c r IH]; [exact Hrest|].
  cbn [forallb] in Hds. apply andb_true_iff in Hds. destruct Hds as [Hc Hr].
  cbn [app span_digits]. rewrite Hc, (IH Hr). reflexivity.
Qed.

Lemma parse_number_digits (n : N) (rest : jsstring) :
  delimited rest ->
  parse_number (digits n ++ rest) = Some (Dec (Z.of_N n) 0, rest)
  /\ parse_number (45%N :: digits n ++ rest) = Some (Dec (- Z.of_N n) 0, rest).
Proof.
  intros Hrest.
  destruct (delimited_not_digit rest Hrest) as (Hspan & Hdot & Hexp & _).
  destruct (digits_int_part_ok n) as (d & r & Heq & Hd & Hok).
  pose proof (span_digits_app _ _ (digits_all_digits n) Hspan) as Hsd.
  assert (Hminus : starts_with 45 (digits n ++ rest) = None).
  { rewrite Heq. cbn. apply is_digit_spec in Hd.
    destruct (d =? 45)%N eqn:E; [apply N.eqb_eq in E; lia | reflexivity]. }
  split.
  - unfold parse_number. rewrite Hminus, Hsd, Heq, Hok, <- Heq.
    unfold parse_fraction. rewrite Hdot, Hexp. cbn [List.length].
    rewrite app_nil_r, digits_value. reflexivity.
  - unfold parse_number. cbn [starts_with]. change (45 =? 45)%N with true.
    cbn iota. rewrite Hsd, Heq, Hok, <- Heq.
    unfold parse_fraction. rewrite Hdot, Hexp. cbn [List.length].
    rewrite app_nil_r, digits_value. reflexivity.
Qed.

Lemma parse_value_number_start (fuel : nat) (c : N) (r : jsstring) :
  (c = 45 \/ 48 <= c <= 57)%N ->
  parse_value (S fuel) (c :: r)
  = match parse_number (c :: r) with
    | Some (x, r') => POk (JNum x) r'
    | None => PSyntax
    end.
Proof.
  intros Hc. cbn [parse_value skip_ws].
  assert (Hws : is_json_ws c = false).
  { unfold is_json_ws. rewrite !orb_false_iff, !N.eqb_neq. lia. }
  rewrite Hws.
  assert (Hne : forall k, (k = 123 \/ k = 91 \/ k = 34 \/ k = 116 \/ k = 102 \/ k = 110)%N ->
                          (c =? k)%N = false).
  { intros k Hk. apply N.eqb_neq. lia. }
  rewrite !Hne by tauto. reflexivity.
Qed.

(** An integer below [10^21] is read back from its printed form. *)
Lemma parse_value_int (fuel : nat) (m : Z) (rest : jsstring) :
  (Z.abs m < 10 ^ 21)%Z -> delimited rest ->
  parse_value (S fuel) (number_to_string (Dec m 0) ++ rest) = POk (JNum (Dec m 0)) rest.
Proof.
  intros Hm Hrest. rewrite number_to_string_int by exact Hm.
  destruct (parse_number_digits (Z.abs_N m) rest Hrest) as [Hpos Hneg].
  destruct (digits_int_part_ok (Z.abs_N m)) as (d & r & Heq & Hd & _).
  apply is_digit_spec in Hd.
  destruct (m <? 0)%Z eqn:Hsign.
  - apply Z.ltb_lt in Hsign. cbn [js list_ascii_of_string List.map app].
    change (N_of_ascii "-") with 45%N.
    rewrite parse_value_number_start by (left; reflexivity).
    rewrite Hneg. do 2 f_equal. f_equal. lia.
  - apply Z.ltb_ge in Hsign. cbn [app]. rewrite Heq. cbn [app].
    rewrite parse_value_number_start by (right; exact Hd).
    change (d :: r ++ rest) with ((d :: r) ++ rest).
    rewrite <- Heq, Hpos. do 2 f_equal. f_equal. lia.
Qed.

(** ** More fuel changes nothing *)

Lemma parse_value_unfold (f : nat) (s : jsstring) :
  parse_value (S f) s =
  match skip_ws s with
  | [] => PSyntax
  | c :: r =>
      if (c =? 123)%N then
        match starts_with 125 (skip_ws r) with
        | Some r' => POk (JObj []) r'
        | None => parse_members f r []
        end
      else if (c =? 91)%N then
        match starts_with 93 (skip_ws r) with
        | Some r' => POk (JArr []) r'
        | None => parse_elements f r []
        end
      else if (c =? 34)%N then
        match parse_string_body r [] with
        | Some (str, r') => POk (JStr str) r'
        | None => PSyntax
        end
      else if (c =? 116)%N then parse_literal (js "true") (JBool true) (c :: r)
      else if (c =? 102)%N then parse_literal (js "false") (JBool false) (c :: r)
      else if (c =? 110)%N then parse_literal (js "null") JNull (c :: r)
      else
        match parse_number (c :: r) with
        | Some (x, r') => POk (JNum x) r'
        | None => PSyntax
        end
  end.
Proof. reflexivity. Qed.

Lemma parse_elements_unfold (f : nat) (s : jsstring) (acc : list jsval) :
  parse_elements (S f) s acc =
  match parse_value f s with
  | POk v r =>
      match separator_of 93 r with
      | Comma r' => parse_elements f r' (v :: acc)
      | Close r' => POk (JArr (List.rev (v :: acc))) r'
      | Neither => PSyntax
      end
  | PSyntax => PSyntax
  | PFuel => PFuel
  end.
Proof. reflexivity. Qed.

Lemma parse_members_unfold (f : nat) (s : jsstring) (acc : list (jsstring * jsval)) :
  parse_members (S f) s acc =
  match starts_with 34 (skip_ws s) with
  | Some r =>
      match parse_string_body r [] with
      | Some (k, r1) =>
          match starts_with 58 (skip_ws r1) with
          | Some r2 =>
              match parse_value f r2 with
              | POk v r3 =>
                  match separator_of 125 r3 with
                  | Comma r4 => parse_members f r4 (set_prop acc k v)
                  | Close r4 => POk (JObj (set_prop acc k v)) r4
                  | Neither => PSyntax
                  end
              | PSyntax => PSyntax
              | PFuel => PFuel
              end
          | None => PSyntax
          end
      | None => PSyntax
      end
  | None => PSyntax
  end.
Proof. reflexivity. Qed.

Lemma parse_fuel_step (f : nat) :
  (forall s, parse_value f s <> PFuel -> parse_value (S f) s = parse_value f s)
  /\ (forall s acc, parse_elements f s acc <> PFuel ->
        parse_elements (S f) s acc = parse_elements f s acc)
  /\ (forall s acc, parse_members f s acc <> PFuel ->
        parse_members (S f) s acc = parse_members f s acc).
Proof.
  induction f as [|f (IHv & IHe & IHm)].
  - repeat split; intros; exfalso; auto.
  - split; [|split].
    + intros s. rewrite (parse_value_unfold (S f)), (parse_value_unfold f).
      destruct (skip_ws s) as [|c r]; [reflexivity|].
      destruct (c =? 123)%N.
      { destruct (starts_with 125 (skip_ws r)); [reflexivity | apply IHm]. }
      destruct (c =? 91)%N.
      { destruct (starts_with 93 (skip_ws r)); [reflexivity | apply IHe]. }
      reflexivity.
    + intros s acc. rewrite (parse_elements_unfold (S f)), (parse_elements_unfold f).
      destruct (parse_value f s) as [v r| |] eqn:Hv; [| |congruence].
      * rewrite (IHv s) by congruence. rewrite Hv.
        destruct (separator_of 93 r); [apply IHe | reflexivity | reflexivity].
      * rewrite (IHv s) by congruence. rewrite Hv. reflexivity.
    + intros s acc. rewrite (parse_members_unfold (S f)), (parse_members_unfold f).
      destruct (starts_with 34 (skip_ws s)) as [r|]; [|reflexivity].
      destruct (parse_string_body r []) as [[k r1]|]; [|reflexivity].
      destruct (starts_with 58 (skip_ws r1)) as [r2|]; [|reflexivity].
      destruct (parse_value f r2) as [v r3| |] eqn:Hv; [| |congruence].
      * rewrite (IHv r2) by congruence. rewrite Hv.
        destruct (separator_of 125 r3); [apply IHm | reflexivity | reflexivity].
      * rewrite (IHv r2) by congruence. rewrite Hv. reflexivity.
Qed.

(** Once the parser has a verdict, more fuel gives the same verdict. *)
Lemma parse_fuel_more (f f' : nat) :
  f <= f' ->
  (forall s, parse_value f s <> PFuel -> parse_value f' s = parse_value f s)
  /\ (forall s acc, parse_elements f s acc <> PFuel ->
        parse_elements f' s acc = parse_elements f s acc)
  /\ (forall s acc, parse_members f s acc <> PFuel ->
        parse_members f' s acc = parse_members f s acc).
Proof.
  induction 1 as [|g Hle (IHv & IHe & IHm)]; [repeat split; reflexivity|].
  destruct (parse_fuel_step g) as (Sv & Se & Sm).
  split; [|split].
  - intros s H. rewrite Sv; [apply IHv, H | rewrite IHv; exact H].
  - intros s acc H. rewrite Se; [apply IHe, H | rewrite IHe; exact H].
  - intros s acc H. rewrite Sm; [apply IHm, H | rewrite IHm; exact H].
Qed.

Lemma parse_value_ok_more (f f' : nat) (s : jsstring) (v : jsval) (r : jsstring) :
  parse_value f s = POk v r -> f <= f' -> parse_value f' s = POk v r.
Proof.
  intros H Hle. destruct (parse_fuel_more f f' Hle) as (Hv & _).
  rewrite Hv; [exact H | congruence].
Qed.

(** A verdict reached with some fuel is the verdict of [JSON_parse]. *)
Lemma JSON_parse_of_fuel (f : nat) (s : jsstring) (v : jsval) :
  parse_value f s = POk v [] -> JSON_parse s = Normal v.
Proof.
  intros H. unfold JSON_parse.
  assert (Heq : parse_value (parse_fuel s) s = POk v []).
  { destruct (Nat.le_ge_cases f (parse_fuel s)) as [Hle|Hge].
    - exact (parse_value_ok_more _ _ _ _ _ H Hle).
    - destruct (parse_fuel_more _ _ Hge) as (Hv & _).
      rewrite <- Hv; [exact H | apply JSON_parse_fuel_sufficient]. }
  rewrite Heq. reflexivity.
Qed.

(** ** Values *)

Lemma jsval_nested_ind (P : jsval -> Prop) :
  P JUndefined -> P JNull -> (forall b, P (JBool b)) -> (forall n, P (JNum n)) ->
  (forall s, P (JStr s)) ->
  (forall l, Forall P l -> P (JArr l)) ->
  (forall ps, Forall (fun kv => P (snd kv)) ps -> P (JObj ps)) ->
  forall v, P v.
Proof.
  intros H1 H2 H3 H4 H5 H6 H7. fix IH 1.
  intros [| |b|n|s|l|ps];
    [exact H1 | exact H2 | apply H3 | apply H4 | apply H5 | |].
  - apply H6. revert l. fix IHl 1. intros [|x l]; constructor; [apply IH | apply IHl].
  - apply H7. revert ps. fix IHps 1. intros [|kv ps]; constructor;
      [apply IH | apply IHps].
Qed.

Lemma storable_array (l : list jsval) : storable (JArr l) <-> Forall storable l.
Proof.
  induction l as [|x l IH]; [split; [constructor | exact (fun _ => I)]|].
  change (storable (JArr (x :: l))) with (storable x /\ storable (JArr l)).
  rewrite Forall_cons_iff, IH. reflexivity.
Qed.

Lemma storable_object (ps : list (jsstring * jsval)) :
  storable (JObj ps)
  <-> object_of_props ps = ps /\ Forall (fun kv => storable (snd kv)) ps.
Proof.
  change (storable (JObj ps))
    with (object_of_props ps = ps
          /\ (fix all (ps : list (jsstring * jsval)) : Prop :=
                match ps with
                | [] => True
                | kv :: r => storable (snd kv) /\ all r
                end) ps).
  apply and_iff_compat_l.
  induction ps as [|kv ps IH]; [split; [constructor | exact (fun _ => I)]|].
  rewrite Forall_cons_iff, <- IH. reflexivity.
Qed.

Lemma storable_stringify (v : jsval) :
  storable v -> stringify v = Some (stringify_text v).
Proof.
  unfold stringify_text.
  destruct v as [| |[]|[| | |m e]|s|l|ps]; cbn; try tauto; reflexivity.
Qed.

Lemma stringify_array_text (l : list jsval) :
  Forall storable l ->
  stringify_text (JArr l)
  = js "[" ++ join_with (js ",") (List.map stringify_text l) ++ js "]".
Proof.
  intros Hl. unfold stringify_text at 1. cbn [stringify]. do 3 f_equal.
  induction Hl as [|x l Hx Hl IH]; [reflexivity|].
  cbn [List.map]. rewrite (storable_stringify x Hx). f_equal. exact IH.
Qed.

Lemma stringify_object_text (ps : list (jsstring * jsval)) :
  Forall (fun kv => storable (snd kv)) ps ->
  stringify_text (JObj ps)
  = js "{" ++ join_with (js ",") (List.map member_text ps) ++ js "}".
Proof.
  intros Hps. unfold stringify_text at 1. cbn [stringify]. do 3 f_equal.
  induction Hps as [|[k x] ps Hx Hps IH]; [reflexivity|].
  cbn [List.map snd] in *. rewrite (storable_stringify x Hx).
  unfold member_text at 1. cbn [fst snd]. f_equal. exact IH.
Qed.

(** The text of a storable value starts with a character that is neither
    white space nor a separator. *)
Lemma stringify_text_start (v : jsval) :
  storable v ->
  exists c t, stringify_text v = c :: t
              /\ is_json_ws c = false
              /\ (c =? 93)%N = false /\ (c =? 125)%N = false.
Proof.
  destruct v as [| |[]|[| | |m e]|s|l|ps]; cbn [storable]; try tauto; intros Hv;
    try (eexists _, _; split; [reflexivity | repeat split]).
  destruct Hv as [-> Hm].
  assert (Htext : stringify_text (JNum (Dec m 0)) = number_to_string (Dec m 0))
    by reflexivity.
  rewrite Htext, (number_to_string_int m Hm).
  destruct (m <? 0)%Z.
  - eexists _, _. split; [reflexivity | repeat split].
  - destruct (digits_int_part_ok (Z.abs_N m)) as (d & r & Heq & Hd & _).
    apply is_digit_spec in Hd. rewrite Heq. exists d, r.
    split; [reflexivity|]. unfold is_json_ws.
    rewrite !orb_false_iff, !N.eqb_neq. lia.
Qed.

Lemma skip_ws_start (c : N) (t : jsstring) :
  is_json_ws c = false -> skip_ws (c :: t) = c :: t.
Proof. intros H. cbn. rewrite H. reflexivity. Qed.

Lemma parse_elements_reads_back (l : list jsval) :
  l <> [] -> Forall storable l -> Forall reads_back l ->
  forall acc rest,
    exists f, parse_elements f
                (join_with (js ",") (List.map stringify_text l) ++ 93%N :: rest) acc
              = POk (JArr (List.rev acc ++ l)) rest.
Proof.
  induction l as [|x l IH]; [congruence|]. intros _ Hst Hrb acc rest.
  inversion Hst as [|? ? Hx Hl]; subst. inversion Hrb as [|? ? Rx Rl]; subst.
  destruct l as [|y l'].
  - cbn [List.map join_with].
    destruct (Rx (93%N :: rest)) as (f & Hf); [right; left; reflexivity|].
    exists (S f). rewrite parse_elements_unfold, Hf.
    change (separator_of 93 (93%N :: rest)) with (Close rest).
    cbn [List.rev]. reflexivity.
  - destruct (IH ltac:(discriminate) Hl Rl (x :: acc) rest) as (f2 & Hf2).
    change (join_with (js ",") (List.map stringify_text (x :: y :: l')))
      with (stringify_text x
            ++ js "," ++ join_with (js ",") (List.map stringify_text (y :: l'))).
    rewrite <- !app_assoc.
    change (js "," ++ ?t) with (44%N :: t).
    set (tail := join_with (js ",") (List.map stringify_text (y :: l')) ++ 93%N :: rest)
      in *.
    destruct (Rx (44%N :: tail)) as (f1 & Hf1); [left; reflexivity|].
    exists (S (Nat.max f1 f2)). rewrite parse_elements_unfold.
    rewrite (parse_value_ok_more _ _ _ _ _ Hf1 (Nat.le_max_l f1 f2)).
    change (separator_of 93 (44%N :: tail)) with (Comma tail).
    destruct (parse_fuel_more f2 (Nat.max f1 f2) (Nat.le_max_r f1 f2)) as (_ & He & _).
    rewrite He by congruence. rewrite Hf2.
    cbn [List.rev]. rewrite <- app_assoc. reflexivity.
Qed.

Lemma parse_members_reads_back (ps : list (jsstring * jsval)) :
  ps <> [] -> Forall (fun kv => storable (snd kv)) ps ->
  Forall (fun kv => reads_back (snd kv)) ps ->
  forall acc rest,
    exists f, parse_members f
                (join_with (js ",") (List.map member_text ps) ++ 125%N :: rest) acc
              = POk (JObj (fold_left (fun o kv => set_prop o (fst kv) (snd kv)) ps acc))
                    rest.
Proof.
  induction ps as [|[k x] ps IH]; [congruence|]. intros _ Hst Hrb acc rest.
  inversion Hst as [|? ? Hx Hl]; subst. inversion Hrb as [|? ? Rx Rl]; subst.
  cbn [snd] in Hx, Rx.
  assert (Hkey : forall tail f,
             parse_members (S f) (member_text (k, x) ++ tail) acc
             = match parse_value f (stringify_text x ++ tail) with
               | POk v r3 =>
                   match separator_of 125 r3 with
                   | Comma r4 => parse_members f r4 (set_prop acc k v)
                   | Close r4 => POk (JObj (set_prop acc k v)) r4
                   | Neither => PSyntax
                   end
               | PSyntax => PSyntax
               | PFuel => PFuel
               end).
  { intros tail f. rewrite parse_members_unfold.
    unfold member_text, quote. cbn [fst snd].
    change ((34%N :: quote_body k ++ [34%N]) ++ js ":" ++ stringify_text x)
      with (34%N :: ((quote_body k ++ [34%N]) ++ 58%N :: stringify_text x)).
    cbn [app]. rewrite skip_ws_start by reflexivity.
    cbn [starts_with]. change (34 =? 34)%N with true. cbn iota.
    rewrite <- !app_assoc. cbn [app].
    rewrite (parse_quote_body _ k [] _ (Nat.le_refl _)). cbn [List.rev app].
    rewrite skip_ws_start by reflexivity.
    cbn [starts_with]. change (58 =? 58)%N with true. reflexivity. }
  destruct ps as [|kv ps'].
  - cbn [List.map join_with fold_left fst snd].
    destruct (Rx (125%N :: rest)) as (f & Hf); [right; right; reflexivity|].
    exists (S f). rewrite Hkey, Hf.
    change (separator_of 125 (125%N :: rest)) with (Close rest). reflexivity.
  - destruct (IH ltac:(discriminate) Hl Rl (set_prop acc k x) rest) as (f2 & Hf2).
    change (join_with (js ",") (List.map member_text ((k, x) :: kv :: ps')))
      with (member_text (k, x)
            ++ js "," ++ join_with (js ",") (List.map member_text (kv :: ps'))).
    rewrite <- !app_assoc.
    change (js "," ++ ?t) with (44%N :: t).
    set (tail := join_with (js ",") (List.map member_text (kv :: ps')) ++ 125%N :: rest)
      in *.
    destruct (Rx (44%N :: tail)) as (f1 & Hf1); [left; reflexivity|].
    exists (S (Nat.max f1 f2)). rewrite Hkey.
    rewrite (parse_value_ok_more _ _ _ _ _ Hf1 (Nat.le_max_l f1 f2)).
    change (separator_of 125 (44%N :: tail)) with (Comma tail).
    destruct (parse_fuel_more f2 (Nat.max f1 f2) (Nat.le_max_r f1 f2)) as (_ & _ & Hm).
    rewrite Hm by congruence. rewrite Hf2. reflexivity.
Qed.

(** The parser reads back the text of every storable value. *)
Lemma storable_reads_back (v : jsval) : storable v -> reads_back v.
Proof.
  induction v as [| |b|n|s|l IH|ps IH] using jsval_nested_ind; intros Hv rest Hrest.
  - destruct Hv.
  - exists 1. reflexivity.
  - exists 1. destruct b; reflexivity.
  - destruct n as [| | |m e]; [destruct Hv | destruct Hv | destruct Hv |].
    destruct Hv as [-> Hm].
    exists 1. exact (parse_value_int 0 m rest Hm Hrest).
  - exists 1. rewrite parse_value_unfold.
    change (stringify_text (JStr s)) with (34%N :: quote_body s ++ [34%N]).
    cbn [app]. rewrite skip_ws_start by reflexivity.
    change (34 =? 123)%N with false. change (34 =? 91)%N with false.
    change (34 =? 34)%N with true. cbn iota.
    rewrite <- app_assoc. cbn [app].
    rewrite (parse_quote_body _ s [] rest (Nat.le_refl _)). reflexivity.
  - apply storable_array in Hv.
    rewrite (stringify_array_text l Hv).
    destruct l as [|x l'].
    + exists 1. reflexivity.
    + assert (Hrb : Forall reads_back (x :: l')).
      { rewrite Forall_forall in *. intros y Hy. apply IH; [exact Hy | apply Hv, Hy]. }
      destruct (parse_elements_reads_back (x :: l') ltac:(discriminate) Hv Hrb [] rest)
        as (f & Hf).
      exists (S f). rewrite parse_value_unfold.
      inversion Hv as [|? ? Hx _]; subst.
      destruct (stringify_text_start x Hx) as (c & t & Hc & Hws & H93 & _).
      change (js "[" ++ ?u) with (91%N :: u).
      cbn [app]. rewrite <- app_assoc. change (js "]" ++ rest) with (93%N :: rest).
      rewrite skip_ws_start by reflexivity.
      change (91 =? 123)%N with false. change (91 =? 91)%N with true. cbn iota.
      assert (Hhead : exists u,
                 join_with (js ",") (List.map stringify_text (x :: l')) ++ 93%N :: rest
                 = c :: u).
      { destruct l'; cbn [List.map join_with]; rewrite Hc; eexists; reflexivity. }
      destruct Hhead as (u & Hu). rewrite Hu in *.
      rewrite skip_ws_start by exact Hws. cbn [starts_with]. rewrite H93.
      exact Hf.
  - apply storable_object in Hv. destruct Hv as [Hcanon Hv].
    rewrite (stringify_object_text ps Hv).
    destruct ps as [|kv ps'].
    + exists 1. reflexivity.
    + assert (Hrb : Forall (fun kv => reads_back (snd kv)) (kv :: ps')).
      { rewrite Forall_forall in *. intros y Hy. apply IH; [exact Hy | apply Hv, Hy]. }
      destruct (parse_members_reads_back (kv :: ps') ltac:(discriminate) Hv Hrb [] rest)
        as (f & Hf).
      exists (S f). rewrite parse_value_unfold.
      change (js "{" ++ ?u) with (123%N :: u).
      cbn [app]. rewrite <- app_assoc. change (js "}" ++ rest) with (125%N :: rest).
      rewrite skip_ws_start by reflexivity.
      change (123 =? 123)%N with true. cbn iota.
      assert (Hhead : exists u,
                 join_with (js ",") (List.map member_text (kv :: ps')) ++ 125%N :: rest
                 = 34%N :: u).
      { destruct ps'; cbn [List.map join_with]; eexists; reflexivity. }
      destruct Hhead as (u & Hu). rewrite Hu in *.
      rewrite skip_ws_start by reflexivity. cbn [starts_with].
      change (34 =? 125)%N with false.
      rewrite Hf. unfold object_of_props in Hcanon. rewrite Hcanon. reflexivity.
Qed.

(** What [JSON.stringify] writes for a storable value, [JSON.parse] reads
    back as that value. *)
Theorem JSON_parse_stringify (v : jsval) :
  storable v ->
  JSON_stringify v = JStr (stringify_text v)
  /\ JSON_parse (stringify_text v) = Normal v.
Proof.
  intros Hv. split.
  - unfold JSON_stringify. rewrite (storable_stringify v Hv). reflexivity.
  - destruct (storable_reads_back v Hv [] I) as (f & Hf).
    rewrite app_nil_r in Hf. exact (JSON_parse_of_fuel f _ _ Hf).
Qed.

(* ================================================================== *)
(** * Beyond the claims: the acquisition paths *)
(* ================================================================== *)

Lemma cached_fresh_record (language stored : Language) (w : World) (c : jsstring)
  (d srcs : jsval) (ts : Z) :
  localStorage w !! CACHE_KEY = Some c ->
  JSON_parse c = Normal (cache_record d srcs ts stored) ->
  cached_fresh language w
  = (if (clock w - ts <? CACHE_DURATION_MS)%Z && bool_decide (stored = language)
     then Some (mkResult d srcs) else None)
  /\ after_check language w = w.
Proof.
  intros Hstore Hparse. unfold cached_fresh, after_check.
  rewrite Hstore, (JSON_parse_nonempty _ _ Hparse).
  rewrite (fresh_entry_record _ _ _ _ _ _ _ Hparse).
  destruct (_ && _); split; reflexivity.
Qed.


(** ** The record that is written is the record that is read *)

Lemma cache_record_storable (d srcs : jsval) (ts : Z) (language : Language) :
  storable d -> storable srcs -> (Z.abs ts < 10 ^ 21)%Z ->
  storable (cache_record d srcs ts language).
Proof.
  intros Hd Hs Hts. unfold cache_record. cbn [storable snd].
  split; [reflexivity|]. repeat split; assumption.
Qed.

Lemma cache_record_reads_back (d srcs : jsval) (ts : Z) (language : Language) :
  storable d -> storable srcs -> (Z.abs ts < 10 ^ 21)%Z ->
  JSON_parse (stringify_text (cache_record d srcs ts language))
  = Normal (cache_record d srcs ts language).
Proof.
  intros Hd Hs Hts.
  exact (proj2 (JSON_parse_stringify _ (cache_record_storable d srcs ts language Hd Hs Hts))).
Qed.

Lemma after_check_clock (language : Language) (w : World) :
  clock (after_check language w) = clock w.
Proof.
  unfold after_check. destruct (nonempty _); [|reflexivity].
  destruct (fresh_entry _ _ _) as [[r|]|]; reflexivity.
Qed.

(** X2. What a successful acquisition writes is what the next call reads:
    after the provider has answered with a text that parses to [d] (a value
    that survives serialization, as do the citations), any call for the same
    language made less than 15 minutes after the answer, with the storage
    left as the acquisition left it, resolves to the same pair
    [{ data: d, sources }], logs the line of the fresh cache and changes
    nothing else: no provider is called and the storage is not touched. *)
Theorem acquired_answer_served_to_next_call (env : Env) (language : Language)
  (previousHighlights : list NewsHighlight) (w : World)
  (response : GenerateContentResponse) (d : jsval) :
  let prompt := prompt_of language previousHighlights (clock w) in
  cached_fresh language w = None ->
  configured (API_KEY env) = true ->
  settled (generateContent env prompt) = Normal response ->
  JSON_parse (cleanText (text_or_empty_object response)) = Normal d ->
  storable d ->
  storable (sourcesOf response) ->
  (Z.abs (clock w + Z.of_N (latency (generateContent env prompt))) < 10 ^ 21)%Z ->
  let round_trip (fetchNewsUpdates : Env -> Language -> list NewsHighlight -> M NewsResult) :=
    let w1 := snd (fetchNewsUpdates env language previousHighlights w) in
    forall (env' : Env) (previous' : list NewsHighlight) (w' : World),
      localStorage w' = localStorage w1 ->
      (clock w' - clock w1 < CACHE_DURATION_MS)%Z ->
      fetchNewsUpdates env' language previous' w'
      = (Normal (mkResult d (sourcesOf response)), logged served_line w') in
  round_trip Service.fetchNewsUpdates
  /\ round_trip ServiceWithFallback.fetchNewsUpdates.
Proof.
  intros prompt Hmiss Hkey Hsettled Hparse Hd Hs Hts round_trip. subst round_trip.
  pose proof (cache_record_reads_back d (sourcesOf response) _ language Hd Hs Hts) as Hread.
  assert (Hserved : forall w' : World,
    localStorage w' !! CACHE_KEY
    = Some (stringify_text (cache_record d (sourcesOf response)
              (clock w + Z.of_N (latency (generateContent env prompt))) language)) ->
    (clock w' - (clock w + Z.of_N (latency (generateContent env prompt)))
     < CACHE_DURATION_MS)%Z ->
    cached_fresh language w' = Some (mkResult d (sourcesOf response))).
  { intros w' Hstore Hfresh.
    destruct (cached_fresh_record language language w' _ _ _ _ Hstore Hread) as [-> _].
    rewrite (proj2 (Z.ltb_lt _ _) Hfresh), bool_decide_eq_true_2 by reflexivity.
    reflexivity. }
  split; cbn beta zeta.
  - rewrite fetchNewsUpdates_spec, Hmiss, Hkey. cbn zeta. fold prompt.
    rewrite acquire_primary_spec. cbn zeta. rewrite Hsettled, Hparse.
    cbn [fst snd with_storage called localStorage clock].
    rewrite after_check_clock. intros env' previous' w' Hstore Hfresh.
    rewrite fetchNewsUpdates_spec, (Hserved w'); [reflexivity| |exact Hfresh].
    rewrite Hstore. apply lookup_insert_eq.
  - rewrite fallback_fetchNewsUpdates_spec, Hmiss. cbn zeta. fold prompt.
    rewrite fallback_primary_spec, Hkey. cbn zeta. rewrite Hsettled, Hparse.
    cbn [fst snd with_storage called localStorage clock].
    rewrite after_check_clock. intros env' previous' w' Hstore Hfresh.
    rewrite fallback_fetchNewsUpdates_spec, (Hserved w'); [reflexivity| |exact Hfresh].
    rewrite Hstore. apply lookup_insert_eq.
Qed.

(** ** Which providers are called, and in which order *)

Lemma after_check_calls (language : Language) (w : World) :
  calls (after_check language w) = calls w.
Proof.
  unfold after_check. destruct (nonempty _); [|reflexivity].
  destruct (fresh_entry _ _ _) as [[r|]|]; reflexivity.
Qed.

Lemma acquire_secondary_calls (env : Env) (language : Language) (prompt : Prompt)
  (w : World) :
  calls (snd (ServiceWithFallback.acquire_secondary env language prompt w))
  = calls w ++ (if configured (OPENAI_API_KEY env) then [OpenAIRequest prompt] else []).
Proof.
  rewrite acquire_secondary_spec, fetchOpenAIFallback_spec.
  destruct (configured (OPENAI_API_KEY env)); [|cbn; now rewrite app_nil_r].
  cbn zeta. destruct (settled (fetch env prompt)) as [response|]; [|reflexivity].
  destruct (ok response); [|reflexivity].
  destruct (ServiceWithFallback.openai_payload _); reflexivity.
Qed.

Lemma fail_over_calls (env : Env) (language : Language) (prompt : Prompt)
  (cached : option jsstring) (error : exn) (w : World) :
  calls (snd (ServiceWithFallback.fail_over env language prompt cached error w))
  = calls w ++ (if configured (OPENAI_API_KEY env) then [OpenAIRequest prompt] else []).
Proof.
  rewrite fail_over_spec.
  pose proof (acquire_secondary_calls env language prompt
                (logged (primary_failed_line error) w)) as Hc.
  destruct (ServiceWithFallback.acquire_secondary _ _ _ _) as [[[r|]|e] w2]; exact Hc.
Qed.

Ltac settle_calls :=
  repeat match goal with
         | |- _ /\ _ => split
         | |- _ <-> _ => split
         end;
  cbn [In throws];
  intuition (try discriminate; try congruence; auto).

(** X3. The version with the OpenAI fallback makes at most one call to each
    provider, the primary first, both with the prompt built at the start of
    the call.  The primary is called exactly when the cache does not answer
    and its credential is configured; the secondary is called exactly when
    the cache does not answer, the primary has failed (no credential, failed
    call, or text that does not parse) and the secondary credential is
    configured. *)
Theorem providers_called_in_order (env : Env) (language : Language)
  (previousHighlights : list NewsHighlight) (w : World) :
  let run := ServiceWithFallback.fetchNewsUpdates env language previousHighlights w in
  let prompt := prompt_of language previousHighlights (clock w) in
  exists made : list Request,
    calls (snd run) = calls w ++ made
    /\ (made = [] \/ made = [GeminiRequest prompt] \/ made = [OpenAIRequest prompt]
        \/ made = [GeminiRequest prompt; OpenAIRequest prompt])
    /\ (In (GeminiRequest prompt) made
        <-> cached_fresh language w = None /\ configured (API_KEY env) = true)
    /\ (In (OpenAIRequest prompt) made
        <-> cached_fresh language w = None
            /\ FallbackProps.primary_fails env prompt
            /\ configured (OPENAI_API_KEY env) = true).
Proof.
  intros run prompt. subst run. rewrite fallback_fetchNewsUpdates_spec.
  pose proof (fail_over_calls env language prompt (localStorage w !! CACHE_KEY)) as Hover.
  unfold FallbackProps.primary_fails, malformed.
  destruct (cached_fresh language w) as [r|] eqn:Hfresh;
    [exists []; cbn [snd logged calls]; rewrite app_nil_r; settle_calls|].
  cbn zeta. fold prompt. rewrite fallback_primary_spec.
  destruct (configured (API_KEY env)) eqn:Hkey; cbn zeta;
    [destruct (settled (generateContent env prompt)) as [response|e] eqn:Hsettled;
     [destruct (JSON_parse (cleanText (text_or_empty_object response)))
        as [d|e] eqn:Hparse|]|];
    rewrite ?Hover; cbn [snd with_storage called calls];
    rewrite after_check_calls, <- ?app_assoc;
    destruct (configured (OPENAI_API_KEY env)) eqn:Hopenai;
    eexists; (split; [reflexivity|]); cbn [app]; settle_calls.
Qed.

(** ** A record removed by step 1 *)

Lemma stale_entry_nonempty (c : jsstring) (r : NewsResult) :
  stale_entry (Some c) = Some r -> nonempty (Some c) = Some c.
Proof. destruct c; [discriminate | reflexivity]. Qed.

Lemma unreadable_record_removed (language : Language) (w : World) (c : jsstring) :
  localStorage w !! CACHE_KEY = Some c ->
  nonempty (Some c) = Some c ->
  throws (fresh_entry language (clock w) c) ->
  cached_fresh language w = None
  /\ after_check language w = with_storage (delete CACHE_KEY) w.
Proof.
  intros Hstore Hne Hthrows. unfold cached_fresh, after_check.
  rewrite Hstore, Hne.
  destruct (fresh_entry language (clock w) c) as [o|e]; [destruct Hthrows|].
  split; reflexivity.
Qed.

(** X4. A stored record that step 1 cannot read (its [timestamp] cannot be
    converted to a number) although its [data] and [sources] can be
    destructured is removed from the storage by both versions; when the
    providers then fail, the version with the OpenAI fallback still serves
    that record, marked [QUOTA_EXCEEDED], from the string it read at the
    start of the call, while the version with the configuration check reads
    the storage again, finds nothing and resolves to the static data. *)
Theorem removed_record_served_by_fallback_version_only (env : Env)
  (language : Language) (previousHighlights : list NewsHighlight) (w : World)
  (c : jsstring) (r : NewsResult) :
  let prompt := prompt_of language previousHighlights (clock w) in
  localStorage w !! CACHE_KEY = Some c ->
  throws (fresh_entry language (clock w) c) ->
  stale_entry (Some c) = Some r ->
  configured (API_KEY env) = true ->
  ServiceProps.primary_fails env prompt ->
  FallbackProps.secondary_fails env prompt ->
  let run := Service.fetchNewsUpdates env language previousHighlights w in
  let run2 := ServiceWithFallback.fetchNewsUpdates env language previousHighlights w in
  fst run2 = Normal r
  /\ fst run = Normal (mkResult (FALLBACK_DATA env) (JArr []))
  /\ localStorage (snd run) = delete CACHE_KEY (localStorage w)
  /\ localStorage (snd run2) = delete CACHE_KEY (localStorage w).
Proof.
  intros prompt Hstore Hthrows Hstale Hkey Hprimary Hsecondary run run2.
  destruct (unreadable_record_removed language w c Hstore
              (stale_entry_nonempty c r Hstale) Hthrows) as [Hmiss Hafter].
  assert (Hrun2 : fst run2 = Normal r
                  /\ localStorage (snd run2) = delete CACHE_KEY (localStorage w)).
  { subst run2. rewrite fallback_fetchNewsUpdates_spec, Hmiss, Hafter. cbn zeta.
    fold prompt.
    destruct (fallback_primary_fails env language prompt
                (with_storage (delete CACHE_KEY) w) (or_intror Hprimary))
      as (err & w2 & -> & Hstorage & _).
    rewrite fail_over_spec.
    destruct (fallback_secondary_fails env language prompt
                (logged (primary_failed_line err) w2) Hsecondary)
      as (w3 & -> & Hstorage3).
    rewrite Hstore, Hstale. cbn [fst snd]. split; [reflexivity|].
    rewrite Hstorage3. exact Hstorage. }
  assert (Hrun : fst run = Normal (mkResult (FALLBACK_DATA env) (JArr []))
                 /\ localStorage (snd run) = delete CACHE_KEY (localStorage w)).
  { subst run. rewrite fetchNewsUpdates_spec, Hmiss, Hafter, Hkey. cbn zeta.
    fold prompt.
    destruct (service_primary_fails env language prompt
                (with_storage (delete CACHE_KEY) w) Hprimary)
      as (err & w2 & -> & Hstorage & _).
    rewrite fail_safe_spec, Hstorage. cbn [with_storage localStorage].
    rewrite lookup_delete_eq. cbn [fst snd logged localStorage stale_entry nonempty].
    split; [reflexivity | exact Hstorage]. }
  tauto.
Qed.

(** ** An answer of the secondary provider that carries no content *)

Lemma openai_payload_content (body : jsstring) (b content : jsval) :
  JSON_parse body = Normal b ->
  first_choice_content b = Normal content ->
  ServiceWithFallback.openai_payload body
  = (s <-- to_string (if truthy content then content else JStr (js "{}")) ;
     JSON_parse s).
Proof.
  intros Hbody Hcontent. unfold ServiceWithFallback.openai_payload.
  rewrite Hbody. cbn [cbind]. unfold first_choice_content in Hcontent.
  destruct (Get b (js "choices")) as [choices|]; [|discriminate]. cbn [cbind] in *.
  destruct (Get choices (js "0")) as [first|]; [|discriminate]. cbn [cbind] in *.
  destruct (GetOptional first (js "message")) as [message|]; [|discriminate].
  cbn [cbind] in *. rewrite Hcontent. reflexivity.
Qed.

(** X5. An answer of the secondary provider with status ok whose first
    choice carries no content (an empty list of choices, a choice without
    message, a message whose content is missing, null or empty) is not a
    failure: after the primary has failed, [fetchNewsUpdates] resolves to
    the empty object [{}] with no sources, and stores it as the record for
    the language, so that it is what the following calls are served. *)
Theorem secondary_answer_without_content_is_cached (env : Env) (language : Language)
  (previousHighlights : list NewsHighlight) (w : World)
  (response : HttpResponse) (b content : jsval) :
  let prompt := prompt_of language previousHighlights (clock w) in
  cached_fresh language w = None ->
  FallbackProps.primary_fails env prompt ->
  configured (OPENAI_API_KEY env) = true ->
  settled (fetch env prompt) = Normal response ->
  ok response = true ->
  JSON_parse (body response) = Normal b ->
  first_choice_content b = Normal content ->
  truthy content = false ->
  let run := ServiceWithFallback.fetchNewsUpdates env language previousHighlights w in
  fst run = Normal (mkResult (JObj []) (JArr []))
  /\ localStorage (snd run)
     = <[CACHE_KEY := stringify_text (cache_record (JObj []) (JArr []) (clock (snd run))
                                        language)]> (localStorage w)
  /\ forall (env' : Env) (previous' : list NewsHighlight) (w' : World),
       localStorage w' = localStorage (snd run) ->
       (Z.abs (clock (snd run)) < 10 ^ 21)%Z ->
       (clock w' - clock (snd run) < CACHE_DURATION_MS)%Z ->
       fst (ServiceWithFallback.fetchNewsUpdates env' language previous' w')
       = Normal (mkResult (JObj []) (JArr [])).
Proof.
  intros prompt Hmiss Hprimary Hkey Hsettled Hok Hbody Hcontent Hfalsy run.
  assert (Hpayload : ServiceWithFallback.openai_payload (body response)
                     = Normal (JObj [])).
  { rewrite (openai_payload_content _ _ _ Hbody Hcontent), Hfalsy. reflexivity. }
  assert (Hrun : exists w2,
    run = (Normal (mkResult (JObj []) (JArr [])),
           with_storage
             (insert CACHE_KEY
                (stringify_text (cache_record (JObj []) (JArr []) (clock w2) language)))
             w2)
    /\ localStorage w2 = localStorage (after_check language w)).
  { subst run. rewrite fallback_fetchNewsUpdates_spec, Hmiss. cbn zeta. fold prompt.
    destruct (fallback_primary_fails env language prompt (after_check language w)
                Hprimary) as (err & w2 & -> & Hstorage & _).
    rewrite fail_over_spec, acquire_secondary_spec, Hkey, fetchOpenAIFallback_spec, Hkey.
    cbn zeta. rewrite Hsettled, Hok, Hpayload.
    eexists. split; [reflexivity|]. exact Hstorage. }
  destruct Hrun as (w2 & Hrun & Hstorage). rewrite Hrun.
  cbn [fst snd with_storage localStorage clock].
  split; [reflexivity|]. split.
  - rewrite Hstorage. apply insert_after_check.
  - intros env' previous' w' Hstore Hts Hfresh.
    assert (Hread := cache_record_reads_back (JObj []) (JArr []) (clock w2) language
                       (conj eq_refl I) I Hts).
    rewrite fallback_fetchNewsUpdates_spec.
    destruct (cached_fresh_record language language w' _ _ _ _
                (eq_trans (f_equal (fun m => m !! CACHE_KEY) Hstore)
                          (lookup_insert_eq _ _ _)) Hread) as [-> _].
    rewrite (proj2 (Z.ltb_lt _ _) Hfresh), bool_decide_eq_true_2 by reflexivity.
    reflexivity.
Qed.

(* ================================================================== *)
(** * Cleaning the text of the provider *)
(* ================================================================== *)

Lemma is_prefix_app (p q s : jsstring) :
  is_prefix (p ++ q) s = true -> is_prefix p s = true.
Proof.
  revert s. induction p as [|a p IH]; intros s H; [reflexivity|].
  destruct s as [|b s]; [discriminate|]. cbn in *.
  apply andb_true_iff in H. destruct H as [-> H]. cbn. exact (IH s H).
Qed.

Lemma occurs_app_false (p q s : jsstring) :
  occurs p s = false -> occurs (p ++ q) s = false.
Proof.
  induction s as [|c s IH]; cbn [occurs]; intros H.
  - apply orb_false_iff in H. destruct H as [H _].
    destruct (is_prefix (p ++ q) []) eqn:Hp; [|reflexivity].
    apply is_prefix_app in Hp. congruence.
  - apply orb_false_iff in H. destruct H as [H1 H2]. rewrite (IH H2).
    destruct (is_prefix (p ++ q) (c :: s)) eqn:Hp; [|reflexivity].
    apply is_prefix_app in Hp. congruence.
Qed.

(** Where the pattern does not occur, the replacement changes nothing. *)
Lemma remove_all_absent (pat s : jsstring) :
  occurs pat s = false -> remove_all pat s = s.
Proof.
  unfold remove_all. destruct pat as [|a pat]; [reflexivity|].
  induction s as [|c s IH]; [reflexivity|].
  cbn [occurs remove_all_from]. intros H.
  apply orb_false_iff in H. destruct H as [-> H]. now rewrite (IH H).
Qed.

Lemma remove_fence_step (c : N) (r : jsstring) :
  remove_all_from (js "```") 0 (c :: r)
  = if is_prefix (js "```") (c :: r)
    then remove_all_from (js "```") 0 (List.skipn 2 r)
    else c :: remove_all_from (js "```") 0 r.
Proof.
  cbn [remove_all_from]. destruct (is_prefix (js "```") (c :: r)) eqn:Hp; [|reflexivity].
  destruct r as [|c2 [|c3 r]]; try (cbn in Hp; rewrite ?andb_false_r in Hp; discriminate).
  reflexivity.
Qed.

Lemma is_prefix_fence (s : jsstring) :
  is_prefix (js "```") s
  = match s with
    | a :: b :: c :: _ => (96 =? a)%N && (96 =? b)%N && (96 =? c)%N
    | _ => false
    end.
Proof.
  destruct s as [|a [|b [|c s]]]; cbn; rewrite ?andb_false_r, ?andb_true_r, ?andb_assoc;
    reflexivity.
Qed.

Lemma is_prefix_lead (s : jsstring) :
  is_prefix (js "```") s = (3 <=? lead s).
Proof.
  rewrite is_prefix_fence.
  destruct s as [|a [|b [|c s]]]; cbn [lead];
    repeat match goal with
           | |- context [(96 =? ?x)%N] => destruct (96 =? x)%N
           end; reflexivity.
Qed.

Lemma lead_skip (c : N) (r : jsstring) :
  (3 <=? lead (c :: r)) = true ->
  lead (List.skipn 2 r) <= lead (c :: r) /\ List.length (List.skipn 2 r) <= List.length r.
Proof.
  destruct r as [|b [|d r]]; cbn [lead skipn List.length];
    repeat match goal with
           | |- context [(96 =? ?x)%N] => destruct (96 =? x)%N
           end; intros H; cbn in H; try discriminate H; cbn; rewrite ?drop_0; lia.
Qed.

(** The ticks that lead the text after the fences have been removed: fewer
    than three, and no more than before. *)
Lemma remove_fence_lead (n : nat) :
  forall s, List.length s <= n ->
    lead (remove_all_from (js "```") 0 s) <= lead s
    /\ lead (remove_all_from (js "```") 0 s) < 3.
Proof.
  induction n as [|n IH]; intros s Hlen.
  { destruct s; [cbn; lia | cbn in Hlen; lia]. }
  destruct s as [|c r]; [cbn; lia|].
  rewrite remove_fence_step, is_prefix_lead.
  destruct (3 <=? lead (c :: r)) eqn:Hlead.
  - destruct (lead_skip c r Hlead) as [Hle Hlen'].
    cbn [List.length] in Hlen.
    destruct (IH (List.skipn 2 r) ltac:(lia)) as [H1 H2]. lia.
  - apply Nat.leb_gt in Hlead. cbn [lead] in *.
    cbn [List.length] in Hlen. destruct (IH r ltac:(lia)) as [H1 H2].
    destruct (96 =? c)%N; lia.
Qed.

Lemma remove_fence_absent (n : nat) :
  forall s, List.length s <= n ->
    occurs (js "```") (remove_all_from (js "```") 0 s) = false.
Proof.
  induction n as [|n IH]; intros s Hlen.
  { destruct s; [reflexivity | cbn in Hlen; lia]. }
  destruct s as [|c r]; [reflexivity|].
  pose proof (remove_fence_lead (S n) (c :: r) Hlen) as [_ Hlead].
  rewrite remove_fence_step in *.
  destruct (is_prefix (js "```") (c :: r)) eqn:Hp.
  - rewrite is_prefix_lead in Hp. destruct (lead_skip c r Hp) as [_ Hlen'].
    cbn [List.length] in Hlen. apply IH. lia.
  - cbn [occurs]. rewrite is_prefix_lead.
    cbn [List.length] in Hlen. rewrite (IH r) by lia.
    rewrite orb_false_r. apply Nat.leb_gt. exact Hlead.
Qed.

(** ** White space at the ends *)

Lemma trim_start_head (s : jsstring) :
  match trim_start s with
  | [] => True
  | c :: _ => is_js_space c = false
  end.
Proof.
  induction s as [|c s IH]; [exact I|]. cbn [trim_start].
  destruct (is_js_space c) eqn:Hc; [exact IH | exact Hc].
Qed.

Lemma trim_start_fixed (s : jsstring) :
  match s with
  | [] => True
  | c :: _ => is_js_space c = false
  end ->
  trim_start s = s.
Proof. destruct s as [|c s]; [reflexivity|]. cbn [trim_start]. now intros ->. Qed.

Lemma trim_start_split (s : jsstring) : exists a, s = a ++ trim_start s.
Proof.
  induction s as [|c s [a IH]]; [exists []; reflexivity|]. cbn [trim_start].
  destruct (is_js_space c); [|exists []; reflexivity].
  exists (c :: a). cbn [app]. now rewrite <- IH.
Qed.

Lemma trim_split (s : jsstring) :
  exists a b, s = a ++ trim s ++ b /\ trim_start s = trim s ++ b.
Proof.
  unfold trim. destruct (trim_start_split s) as [a Ha].
  destruct (trim_start_split (List.rev (trim_start s))) as [b Hb].
  exists a, (List.rev b).
  assert (Hu : trim_start s = List.rev (trim_start (List.rev (trim_start s))) ++ List.rev b).
  { rewrite <- rev_app_distr, <- Hb, rev_involutive. reflexivity. }
  split; [|exact Hu]. rewrite <- Hu. exact Ha.
Qed.

Lemma trim_trimmed (s : jsstring) : trimmed (trim s).
Proof.
  split.
  - destruct (trim_split s) as (a & b & _ & Hu).
    pose proof (trim_start_head s) as Hhead. rewrite Hu in Hhead.
    destruct (trim s); [exact I | exact Hhead].
  - unfold trim. rewrite rev_involutive. apply trim_start_head.
Qed.

Lemma trim_fixed (s : jsstring) : trimmed s -> trim s = s.
Proof.
  intros [Hhead Hlast]. unfold trim.
  rewrite (trim_start_fixed s Hhead), (trim_start_fixed _ Hlast).
  apply rev_involutive.
Qed.

Lemma is_prefix_extend (p s b : jsstring) :
  is_prefix p s = true -> is_prefix p (s ++ b) = true.
Proof.
  revert s. induction p as [|x p IH]; intros s H; [reflexivity|].
  destruct s as [|c s]; [discriminate|]. cbn in *.
  apply andb_true_iff in H. destruct H as [-> H]. cbn. exact (IH s H).
Qed.

Lemma occurs_infix (p a m b : jsstring) :
  occurs p (a ++ m ++ b) = false -> occurs p m = false.
Proof.
  induction a as [|c a IH]; cbn [app].
  - induction m as [|c m IHm]; cbn [app occurs]; intros H.
    + destruct p; [|reflexivity]. destruct b; discriminate H.
    + apply orb_false_iff in H. destruct H as [H1 H2]. rewrite (IHm H2), orb_false_r.
      destruct (is_prefix p (c :: m)) eqn:Hp; [|reflexivity].
      apply (is_prefix_extend _ _ b) in Hp. cbn [app] in Hp. congruence.
  - cbn [occurs]. intros H. apply orb_false_iff in H. exact (IH (proj2 H)).
Qed.

(** X6. The text handed to [JSON.parse] contains no Markdown fence, neither
    of its ends is white space, and cleaning it a second time changes
    nothing. *)
Theorem cleanText_fence_free_and_stable (t : jsstring) :
  occurs (js "```") (cleanText t) = false
  /\ trimmed (cleanText t)
  /\ cleanText (cleanText t) = cleanText t.
Proof.
  assert (Hfree : occurs (js "```") (cleanText t) = false).
  { unfold cleanText.
    destruct (trim_split (remove_all (js "```") (remove_all (js "```json") t)))
      as (a & b & Hsplit & _).
    apply (occurs_infix _ a _ b). rewrite <- Hsplit.
    exact (remove_fence_absent _ _ (le_n _)). }
  pose proof (trim_trimmed (remove_all (js "```") (remove_all (js "```json") t)))
    as Htrimmed.
  fold (cleanText t) in Htrimmed.
  split; [exact Hfree|]. split; [exact Htrimmed|].
  unfold cleanText at 1.
  rewrite (remove_all_absent (js "```json") (cleanText t)
             (occurs_app_false (js "```") (js "json") _ Hfree)).
  rewrite (remove_all_absent _ _ Hfree). exact (trim_fixed _ Htrimmed).
Qed.

(* ================================================================== *)
(** * The state update and the reference highlights *)
(* ================================================================== *)

Section ObjectKeys.
Context {V : Type}.
Implicit Types (ps : list (jsstring * V)) (k : jsstring) (v : V).

Lemma lookup_prop_None_keys k ps :
  lookup_prop k ps = None -> ~ In k (List.map fst ps).
Proof.
  induction ps as [|[k1 v1] ps IH]; cbn; [tauto|].
  destruct (jsstring_eqb k k1) eqn:E; [discriminate|].
  apply jsstring_eqb_false in E. intros H [H1|H1]; [congruence | exact (IH H H1)].
Qed.

Lemma keys_replace_prop k v ps :
  List.map fst (replace_prop k v ps) = List.map fst ps.
Proof.
  induction ps as [|[k1 v1] ps IH]; cbn; [reflexivity|].
  destruct (jsstring_eqb k k1); cbn; [reflexivity | now rewrite IH].
Qed.

Lemma keys_insert_index (i : N) k v ps (x : jsstring) :
  In x (List.map fst (insert_index i k v ps)) <-> x = k \/ In x (List.map fst ps).
Proof.
  induction ps as [|[k1 v1] ps IH]; cbn; [intuition congruence|].
  destruct (array_index k1) as [j|]; [destruct (j <? i)%N|]; cbn; rewrite ?IH;
    intuition congruence.
Qed.

Lemma NoDup_insert_index (i : N) k v ps :
  ~ In k (List.map fst ps) -> List.NoDup (List.map fst ps) ->
  List.NoDup (List.map fst (insert_index i k v ps)).
Proof.
  induction ps as [|[k1 v1] ps IH]; cbn; intros Hnot Hnd.
  - constructor; [tauto | constructor].
  - apply NoDup_cons_iff in Hnd. destruct Hnd as [Hk1 Hnd].
    assert (Hall : List.NoDup (k :: k1 :: List.map fst ps)).
    { constructor; [cbn; tauto|]. constructor; assumption. }
    destruct (array_index k1) as [j|]; [destruct (j <? i)%N|]; cbn; try exact Hall.
    constructor; [|apply IH; tauto].
    rewrite keys_insert_index. intros [->|H]; tauto.
Qed.

Lemma NoDup_set_prop ps k v :
  List.NoDup (List.map fst ps) -> List.NoDup (List.map fst (set_prop ps k v)).
Proof.
  intros Hnd. unfold set_prop.
  destruct (lookup_prop k ps) eqn:Hk; [now rewrite keys_replace_prop|].
  apply lookup_prop_None_keys in Hk.
  destruct (array_index k); [now apply NoDup_insert_index|].
  rewrite map_app. cbn [List.map fst]. apply NoDup_ListNoDup, NoDup_app.
  split; [apply NoDup_ListNoDup, Hnd|].
  split; [|apply NoDup_singleton].
  intros x Hx Hx'. apply list_elem_of_singleton in Hx'. subst x.
  apply Hk, list_elem_of_In, Hx.
Qed.

Lemma NoDup_object_of_props ps : List.NoDup (List.map fst (object_of_props ps)).
Proof.
  unfold object_of_props.
  assert (H : forall acc : list (jsstring * V), List.NoDup (List.map fst acc) ->
            List.NoDup (List.map fst
              (fold_left (fun o kv => set_prop o (fst kv) (snd kv)) ps acc))).
  { induction ps as [|[k v] ps IH]; cbn; intros acc Hacc; [exact Hacc|].
    apply IH, NoDup_set_prop, Hacc. }
  apply H. constructor.
Qed.

End ObjectKeys.

(** X7. The reference highlights, which the next request carries as its
    context, follow the display: after an answer with status [OK] the state
    shows the answer and the reference is its [highlights]; after an answer
    with status [NO NEW UPDATE], if the state showed the reference list
    before, it still does, and the reference is unchanged. *)
Theorem reference_follows_display (ps : list (jsstring * jsval)) (srcs : list jsval)
  (now : Z) (prev : App.AppState) (ref : jsval) :
  List.NoDup (List.map fst ps) ->
  let d := JObj ps in
  let out := App.loadNews_update (mkResult d (JArr srcs)) now prev ref in
  (Get d (js "status") = Normal (JStr (js "OK")) ->
   exists st, fst out = Normal st
              /\ App.data st = d
              /\ snd out = GetV d (js "highlights")
              /\ displays st (snd out))
  /\ (Get d (js "status") = Normal (JStr (js "NO NEW UPDATE")) ->
      displays prev ref ->
      exists st, fst out = Normal st /\ snd out = ref /\ displays st (snd out)).
Proof.
  intros Hnd d out. subst out. unfold App.loadNews_update. split.
  - intros Hstatus. rewrite Hstatus.
    change (strict_equals_string (JStr (js "OK")) (js "NO NEW UPDATE")) with false.
    change (strict_equals_string (JStr (js "OK")) (js "OK")) with true.
    change (Get (JArr srcs) (js "length"))
      with (Normal (JNum (int (Z.of_nat (List.length srcs))))).
    cbn [to_number fst snd andb].
    eexists. split; [reflexivity|]. cbn [App.data].
    split; [reflexivity|]. split; [reflexivity|].
    exists ps. auto.
  - intros Hstatus (pps & Hprev & Hpnd & Hshown). rewrite Hstatus.
    change (strict_equals_string (JStr (js "NO NEW UPDATE")) (js "NO NEW UPDATE"))
      with true.
    change (strict_equals_string (JStr (js "NO NEW UPDATE")) (js "OK")) with false.
    change (Get (JArr srcs) (js "length"))
      with (Normal (JNum (int (Z.of_nat (List.length srcs))))).
    rewrite Hprev. cbn [to_number fst snd andb truthy].
    eexists. split; [reflexivity|]. split; [reflexivity|]. cbn [App.data].
    eexists. split; [reflexivity|]. split; [apply NoDup_object_of_props|].
    rewrite <- Hshown. unfold GetV.
    change (JObj (object_of_props (own_props (JObj pps)
              ++ [(js "generated_at",
                   match Get d (js "generated_at") with
                   | Normal x => x
                   | Throw _ => JUndefined
                   end);
                  (js "status", JStr (js "NO NEW UPDATE"))])))
      with (spread (JObj pps)
              [(js "generated_at",
                match Get d (js "generated_at") with
                | Normal x => x
                | Throw _ => JUndefined
                end);
               (js "status", JStr (js "NO NEW UPDATE"))]).
    rewrite (Get_spread_two _ _ _ _ _ _ Hpnd). reflexivity.
Qed.

Lemma Get_defined (v : jsval) (k : jsstring) :
  v <> JUndefined -> v <> JNull -> Get v k = Normal (GetV v k).
Proof.
  intros H1 H2. unfold GetV.
  destruct v; try congruence; cbn [Get];
    repeat match goal with
           | |- context [if ?b then _ else _] => destruct b
           | |- context [match ?o with Some _ => _ | None => _ end] => destruct o
           end; reflexivity.
Qed.

(** X8. The state update throws a [TypeError], and leaves the reference
    highlights alone, when the service resolved to a pair without data
    ([undefined] or [null]); with any other data and an array of sources it
    succeeds whatever the status, and the new state is not loading, carries
    no error, is stamped with the current instant, and shows the new sources
    unless they are empty, in which case the sources shown before stay. *)
Theorem loadNews_update_outcome (d srcs : jsval) (now : Z)
  (prev : App.AppState) (ref : jsval) :
  let out := App.loadNews_update (mkResult d srcs) now prev ref in
  (d = JUndefined \/ d = JNull -> out = (Throw cannot_read, ref))
  /\ (forall l, d <> JUndefined -> d <> JNull -> srcs = JArr l ->
      exists st,
        fst out = Normal st
        /\ App.loading st = false
        /\ App.error st = None
        /\ App.lastUpdated st = Some now
        /\ App.sources st = match l with
                            | [] => App.sources prev
                            | _ :: _ => srcs
                            end).
Proof.
  intros out. subst out. unfold App.loadNews_update. split.
  - intros [->| ->]; reflexivity.
  - intros l H1 H2 ->. rewrite (Get_defined d _ H1 H2).
    change (Get (JArr l) (js "length"))
      with (Normal (JNum (int (Z.of_nat (List.length l))))).
    cbn [to_number fst]. eexists. split; [reflexivity|].
    cbn [App.loading App.error App.lastUpdated App.sources].
    repeat split. destruct l; reflexivity.
Qed.

(** X9. A stored record that parses to an object without [data], but with
    a fresh [timestamp] and the requested language, is not a cache miss:
    both versions serve it, resolving to a pair whose [data] is
    [undefined], without calling a provider and without touching the
    storage; the state update of the application then throws a [TypeError]
    and the reference highlights stay as they were. *)
Theorem fresh_record_without_data_is_served (env : Env) (language : Language)
  (previousHighlights : list NewsHighlight) (w : World) (c : jsstring)
  (ps : list (jsstring * jsval)) (ts : Z) :
  localStorage w !! CACHE_KEY = Some c ->
  JSON_parse c = Normal (JObj ps) ->
  lookup_prop (js "data") ps = None ->
  lookup_prop (js "timestamp") ps = Some (JNum (int ts)) ->
  lookup_prop (js "lang") ps = Some (JStr (language_string language)) ->
  (clock w - ts < CACHE_DURATION_MS)%Z ->
  let served := mkResult JUndefined (GetV (JObj ps) (js "sources")) in
  Service.fetchNewsUpdates env language previousHighlights w
  = (Normal served, logged served_line w)
  /\ ServiceWithFallback.fetchNewsUpdates env language previousHighlights w
     = (Normal served, logged served_line w)
  /\ forall (now : Z) (prev : App.AppState) (ref : jsval),
       App.loadNews_update served now prev ref = (Throw cannot_read, ref).
Proof.
  intros Hstore Hparse Hdata Hts Hlang Hfresh served.
  assert (Hserved : cached_fresh language w = Some served).
  { unfold cached_fresh. rewrite Hstore, (JSON_parse_nonempty _ _ Hparse).
    unfold fresh_entry. rewrite Hparse. cbn [cbind Get].
    rewrite Hdata, Hts, Hlang. cbn [cbind to_number].
    rewrite less_than_int_minus, language_string_inj.
    rewrite (proj2 (Z.ltb_lt _ _) Hfresh), bool_decide_eq_true_2 by reflexivity.
    reflexivity. }
  split; [|split].
  - rewrite fetchNewsUpdates_spec, Hserved. reflexivity.
  - rewrite fallback_fetchNewsUpdates_spec, Hserved. reflexivity.
  - intros now prev ref. reflexivity.
Qed.

(* ================================================================== *)
(** * The list of read articles *)
(* ================================================================== *)

Lemma JSON_stringify_array (l : list jsval) :
  JSON_stringify (JArr l) = JStr (stringify_text (JArr l)).
Proof. unfold JSON_stringify, stringify_text. reflexivity. Qed.

Lemma includes_elements (v : jsval) (h : jsstring) :
  NewsCard.isArray v && NewsCard.includes (NewsCard.elements v) h
  = NewsCard.includes (NewsCard.elements v) h.
Proof. destruct v; reflexivity. Qed.

(** The click handler on an unread card, in closed form. *)
Lemma handleRead_spec (h : jsstring) (w : World) :
  NewsCard.handleRead h false w =
  match stored_read_list w with
  | Throw e => (Normal true, logged (mkLog LevelError [LExn e]) w)
  | Normal l =>
      if NewsCard.includes l h then (Normal true, w)
      else (Normal true,
            with_storage
              (insert NewsCard.STORAGE_KEY
                 (stringify_text (JArr (NewsCard.keep_recent (l ++ [JStr h]))))) w)
  end.
Proof.
  unfold NewsCard.handleRead, stored_read_list, try_catch, bind, getItem, lift, ret.
  cbn [negb]. destruct (nonempty (localStorage w !! NewsCard.STORAGE_KEY)) as [s|].
  - destruct (JSON_parse s) as [v|e]; [|reflexivity]. cbn [cbind].
    replace (if negb (NewsCard.isArray v) then [] else NewsCard.elements v)
      with (NewsCard.elements v) by (destruct v; reflexivity).
    destruct (NewsCard.includes (NewsCard.elements v) h); [reflexivity|].
    cbn [negb]. rewrite JSON_stringify_array. reflexivity.
  - cbn [NewsCard.isArray negb NewsCard.elements app NewsCard.includes existsb].
    rewrite JSON_stringify_array. reflexivity.
Qed.

(** The mount effect, in closed form. *)
Lemma markIfRead_spec (h : jsstring) (b : bool) (w : World) :
  NewsCard.markIfRead h b w =
  match stored_read_list w with
  | Throw e => (Normal b, logged (mkLog LevelError [LExn e]) w)
  | Normal l => (Normal (NewsCard.includes l h || b), w)
  end.
Proof.
  unfold NewsCard.markIfRead, stored_read_list, try_catch, bind, getItem, lift, ret.
  destruct (nonempty (localStorage w !! NewsCard.STORAGE_KEY)) as [s|]; [|reflexivity].
  destruct (JSON_parse s) as [v|e]; [|reflexivity]. cbn [cbind].
  rewrite includes_elements.
  destruct (NewsCard.includes (NewsCard.elements v) h); reflexivity.
Qed.

Lemma keep_recent_split (l : list jsval) :
  exists dropped, dropped ++ NewsCard.keep_recent l = l
                  /\ List.length (NewsCard.keep_recent l) = Nat.min 100 (List.length l).
Proof.
  unfold NewsCard.keep_recent. destruct (100 <? List.length l)%nat eqn:Hlong.
  - apply Nat.ltb_lt in Hlong. exists (List.firstn (List.length l - 100) l).
    split; [apply firstn_skipn|]. rewrite length_skipn. lia.
  - apply Nat.ltb_ge in Hlong. exists []. split; [reflexivity | lia].
Qed.

Lemma keep_recent_last (l : list jsval) (x : jsval) :
  exists front, NewsCard.keep_recent (l ++ [x]) = front ++ [x].
Proof.
  unfold NewsCard.keep_recent. destruct (100 <? _)%nat; [|eauto].
  rewrite length_app. cbn [List.length].
  exists (List.skipn (List.length l + 1 - 100) l).
  rewrite skipn_app.
  replace (List.length l + 1 - 100 - List.length l) with 0 by lia. reflexivity.
Qed.

Lemma includes_last (front : list jsval) (h : jsstring) :
  NewsCard.includes (front ++ [JStr h]) h = true.
Proof.
  unfold NewsCard.includes. rewrite existsb_app. cbn [existsb strict_equals_string].
  unfold jsstring_eqb. rewrite bool_decide_eq_true_2 by reflexivity.
  apply orb_true_iff. right. reflexivity.
Qed.

Lemma stored_read_list_written (w : World) (l : list jsval) :
  Forall storable l ->
  localStorage w !! NewsCard.STORAGE_KEY = Some (stringify_text (JArr l)) ->
  stored_read_list w = Normal l.
Proof.
  intros Hl Hstore. unfold stored_read_list. rewrite Hstore.
  pose proof (proj2 (JSON_parse_stringify (JArr l) (proj2 (storable_array l) Hl)))
    as Hread.
  rewrite (JSON_parse_nonempty _ _ Hread), Hread. reflexivity.
Qed.

(** X10. A read mark survives a reload: when the stored list can be read
    and its entries survive serialization (headlines do), then after a click
    on an unread card the effect that runs when the card is mounted again,
    with the storage as the click left it, sets the card to read, without
    changing or logging anything. *)
Theorem read_mark_persists (h : jsstring) (w : World) (l : list jsval) :
  stored_read_list w = Normal l ->
  Forall storable l ->
  let w1 := snd (NewsCard.handleRead h false w) in
  forall (w' : World) (b : bool),
    localStorage w' = localStorage w1 ->
    NewsCard.markIfRead h b w' = (Normal true, w').
Proof.
  intros Hlist Hl w1 w' b Hstore. subst w1.
  rewrite handleRead_spec, Hlist in Hstore. rewrite markIfRead_spec.
  destruct (NewsCard.includes l h) eqn:Hin; cbn [snd] in Hstore.
  - unfold stored_read_list in *. rewrite Hstore, Hlist, Hin. reflexivity.
  - cbn [with_storage localStorage] in Hstore.
    destruct (keep_recent_last l (JStr h)) as [front Hkept].
    destruct (keep_recent_split (l ++ [JStr h])) as (dropped & Hsplit & _).
    assert (Hall : Forall storable (NewsCard.keep_recent (l ++ [JStr h]))).
    { assert (Hfull : Forall storable (l ++ [JStr h])).
      { apply Forall_app. split; [exact Hl|]. constructor; [exact I | constructor]. }
      rewrite <- Hsplit in Hfull. apply Forall_app in Hfull. tauto. }
    rewrite (stored_read_list_written w' _ Hall).
    + rewrite Hkept, includes_last. reflexivity.
    + rewrite Hstore. apply lookup_insert_eq.
Qed.

(** X11. A click never fails, whatever the storage holds, and always leaves
    the card read.  On an unread card it either leaves the storage as it
    was, or writes the stored list with the headline appended, cut down to
    its last 100 entries: at most 100 entries are kept, the headline is the
    last of them, the entries dropped are the oldest, and the list is
    written only when the headline was not yet in it.  On a card that is
    already read it touches nothing. *)
Theorem read_list_bounded (h : jsstring) (w : World) :
  let out := NewsCard.handleRead h false w in
  fst out = Normal true
  /\ NewsCard.handleRead h true w = (Normal true, w)
  /\ (localStorage (snd out) = localStorage w
      \/ exists l dropped kept,
          stored_read_list w = Normal l
          /\ NewsCard.includes l h = false
          /\ snd out = with_storage
                         (insert NewsCard.STORAGE_KEY (stringify_text (JArr kept))) w
          /\ dropped ++ kept = l ++ [JStr h]
          /\ List.length kept = Nat.min 100 (List.length l + 1)
          /\ List.last kept JUndefined = JStr h).
Proof.
  intros out. subst out. rewrite handleRead_spec.
  split; [|split; [reflexivity|]].
  - destruct (stored_read_list w) as [l|e]; [|reflexivity].
    destruct (NewsCard.includes l h); reflexivity.
  - destruct (stored_read_list w) as [l|e]; [|left; reflexivity].
    destruct (NewsCard.includes l h) eqn:Hin; [left; reflexivity|].
    right. destruct (keep_recent_split (l ++ [JStr h])) as (dropped & Hsplit & Hlen).
    destruct (keep_recent_last l (JStr h)) as [front Hkept].
    exists l, dropped, (NewsCard.keep_recent (l ++ [JStr h])).
    repeat split; try assumption.
    + rewrite Hlen, length_app. reflexivity.
    + rewrite Hkept. apply last_last.
Qed.

(** X12. A stored list that is not JSON is never repaired: a click leaves
    the storage as it was and logs the error (the card shows as read until
    it is mounted again), and the mount effect logs the error and leaves
    the card as it was, so the mark is lost at every reload. *)
Theorem unparseable_read_list_never_repaired (h : jsstring) (w : World)
  (s : jsstring) (e : exn) :
  localStorage w !! NewsCard.STORAGE_KEY = Some s ->
  JSON_parse s = Throw e ->
  s <> [] ->
  NewsCard.handleRead h false w = (Normal true, logged (mkLog LevelError [LExn e]) w)
  /\ forall w', localStorage w' = localStorage w ->
       NewsCard.markIfRead h false w'
       = (Normal false, logged (mkLog LevelError [LExn e]) w').
Proof.
  intros Hstore Hparse Hne.
  assert (Hlist : forall w', localStorage w' = localStorage w ->
            stored_read_list w' = Throw e).
  { intros w' Hsame. unfold stored_read_list. rewrite Hsame, Hstore.
    destruct s; [congruence|]. cbn [nonempty]. rewrite Hparse. reflexivity. }
  split.
  - rewrite handleRead_spec, (Hlist w eq_refl). reflexivity.
  - intros w' Hsame. rewrite markIfRead_spec, (Hlist w' Hsame). reflexivity.
Qed.

(* ================================================================== *)
(** * The time shown in the header *)
(* ================================================================== *)

Lemma spaceless_app (a b : jsstring) : spaceless (a ++ b) <-> spaceless a /\ spaceless b.
Proof. unfold spaceless. rewrite forallb_app. apply andb_true_iff. Qed.

Lemma spaceless_app_intro (a b : jsstring) :
  spaceless a -> spaceless b -> spaceless (a ++ b).
Proof. intros Ha Hb. apply spaceless_app. tauto. Qed.

Lemma split_space_spaceless (s : jsstring) :
  spaceless s -> Header.split_space s = [s].
Proof.
  unfold spaceless. induction s as [|c s IH]; [reflexivity|].
  cbn [forallb Header.split_space]. intros H. apply andb_true_iff in H.
  destruct H as [Hc Hs]. apply negb_true_iff in Hc. rewrite Hc, (IH Hs). reflexivity.
Qed.

Lemma split_space_word (a b : jsstring) :
  spaceless a ->
  Header.split_space (a ++ 32%N :: b) = a :: Header.split_space b.
Proof.
  unfold spaceless. induction a as [|c a IH]; [reflexivity|].
  cbn [forallb app Header.split_space]. intros H. apply andb_true_iff in H.
  destruct H as [Hc Ha]. apply negb_true_iff in Hc. rewrite Hc, (IH Ha). reflexivity.
Qed.

Lemma digits_spaceless (n : N) : spaceless (digits n).
Proof.
  pose proof (digits_all_digits n) as H. unfold spaceless.
  induction (digits n) as [|c l IH]; [reflexivity|].
  cbn [forallb] in *. apply andb_true_iff in H. destruct H as [Hc Hl].
  rewrite (IH Hl), andb_true_r. apply is_digit_spec in Hc.
  apply negb_true_iff, N.eqb_neq. lia.
Qed.

Lemma pad_spaceless (width : nat) (n : Z) : spaceless (pad width n).
Proof.
  unfold pad. cbn zeta. apply spaceless_app. split; [|apply digits_spaceless].
  unfold zeros, spaceless. induction (width - _) as [|k IH]; [reflexivity|].
  cbn [List.repeat forallb]. rewrite IH. reflexivity.
Qed.

Lemma toISOString_spaceless (t : Z) : spaceless (toISOString t).
Proof.
  unfold toISOString. cbv zeta.
  rewrite !spaceless_app.
  repeat match goal with |- _ /\ _ => split end;
    try apply pad_spaceless; try reflexivity.
  destruct (_ && _)%bool; [apply pad_spaceless|].
  apply spaceless_app_intro; [destruct (_ <? 0)%Z; reflexivity | apply pad_spaceless].
Qed.

Lemma toISOString_nonempty (t : Z) : truthy (JStr (toISOString t)) = true.
Proof.
  cbn [truthy]. apply negb_true_iff, Nat.eqb_neq. unfold toISOString. cbv zeta.
  rewrite length_app. cbn [js list_ascii_of_string List.map app List.length]. lia.
Qed.

(** X13. The header shows the second word of [generated_at]: for a text of
    the form [date time zone] that is the time; for the static fallback
    data and for the configuration-error data, whose [generated_at] is an
    ISO instant without a space, there is no second word, so the header
    shows the label with no time ([undefined]). *)
Theorem header_shows_second_word_of_generated_at :
  (forall date time zone : jsstring,
     spaceless date -> spaceless time -> spaceless zone ->
     Header.updated (JStr (date ++ js " " ++ time ++ js " " ++ zone))
     = Normal (Some (JStr time)))
  /\ (forall (env : Env) (st : App.AppState),
        App.data st = FALLBACK_DATA env \/ App.data st = Service.configErrorData env ->
        Header.lastUpdatedOf st = Normal (JStr (toISOString (moduleLoadedAt env)))
        /\ Header.updated (JStr (toISOString (moduleLoadedAt env)))
           = Normal (Some JUndefined)).
Proof.
  split.
  - intros date time zone Hdate Htime Hzone. unfold Header.updated.
    assert (Htruthy : truthy (JStr (date ++ js " " ++ time ++ js " " ++ zone)) = true).
    { cbn [truthy]. apply negb_true_iff, Nat.eqb_neq. rewrite length_app.
      cbn [js list_ascii_of_string List.map app List.length]. lia. }
    rewrite Htruthy.
    change (js " " ++ time ++ js " " ++ zone) with (32%N :: time ++ 32%N :: zone).
    rewrite (split_space_word _ _ Hdate), (split_space_word _ _ Htime).
    reflexivity.
  - intros env st Hdata. split.
    + unfold Header.lastUpdatedOf. destruct Hdata as [-> | ->].
      * rewrite FALLBACK_DATA_shape.
        change (GetOptional (news_response ?g ?l ?s ?h) (js "generated_at"))
          with (Normal (JStr g)).
        cbn [cbind]. rewrite toISOString_nonempty. reflexivity.
      * rewrite configErrorData_shape.
        change (GetOptional (news_response ?g ?l ?s ?h) (js "generated_at"))
          with (Normal (JStr g)).
        cbn [cbind]. rewrite toISOString_nonempty. reflexivity.
    + unfold Header.updated. rewrite toISOString_nonempty.
      rewrite (split_space_spaceless _ (toISOString_spaceless _)). reflexivity.
Qed.

(* ================================================================== *)
(** * The first version of the service *)
(* ================================================================== *)

Lemma uncached_fetchNewsUpdates_spec (env : Env) (language : Language)
  (previousHighlights : list NewsHighlight) (w : World) :
  ServiceUncached.fetchNewsUpdates env language previousHighlights w =
  let prompt := ServiceUncached.prompt_of language previousHighlights (clock w) in
  let o := generateContent env prompt in
  let w1 := called (GeminiRequest prompt) o w in
  match settled o with
  | Throw e => (Throw e, logged (mkLog LevelError [LText (js "News fetch error:"); LExn e]) w1)
  | Normal response =>
      match JSON_parse (cleanText (text_or_empty_object response)) with
      | Throw _ =>
          (Throw Service.invalid_format,
           logged (mkLog LevelError [LText (js "News fetch error:");
                                     LExn Service.invalid_format])
             (logged (parse_failure_line (text_or_empty_object response)) w1))
      | Normal d => (Normal (mkResult d (sourcesOf response)), w1)
      end
  end.
Proof.
  unfold ServiceUncached.fetchNewsUpdates, bind, Date_now, try_catch, await_call.
  cbn zeta.
  destruct (settled (generateContent env _)) as [response|e]; [|reflexivity].
  rewrite normalize_spec.
  destruct (JSON_parse (cleanText (text_or_empty_object response))); reflexivity.
Qed.

(** X14. The first version of the service has no fail-safe: it calls the
    provider once on every call and never touches the storage; it rejects
    exactly when the provider call fails or its text does not parse, and
    resolves otherwise to the pair that the cached versions would acquire.
    When it rejects, the [catch] of [loadNews] keeps the data, the sources
    and the time of the last update on display, stops the loading state and
    sets a non-empty error text. *)
Theorem uncached_failure_reaches_the_application (env : Env) (language : Language)
  (previousHighlights : list NewsHighlight) (w : World) (prev : App.AppState) :
  let prompt := ServiceUncached.prompt_of language previousHighlights (clock w) in
  let run := ServiceUncached.fetchNewsUpdates env language previousHighlights w in
  localStorage (snd run) = localStorage w
  /\ calls (snd run) = calls w ++ [GeminiRequest prompt]
  /\ (throws (fst run) <-> ServiceProps.primary_fails env prompt)
  /\ (forall response d,
        settled (generateContent env prompt) = Normal response ->
        JSON_parse (cleanText (text_or_empty_object response)) = Normal d ->
        fst run = Normal (mkResult d (sourcesOf response))
        /\ console (snd run) = console w)
  /\ (forall err, fst run = Throw err ->
        let st := AppCatch.loadNews_catch err prev in
        App.data st = App.data prev
        /\ App.sources st = App.sources prev
        /\ App.lastUpdated st = App.lastUpdated prev
        /\ App.loading st = false
        /\ exists text, App.error st = Some text /\ text <> []).
Proof.
  intros prompt run. subst run. rewrite uncached_fetchNewsUpdates_spec.
  cbn zeta. fold prompt. unfold ServiceProps.primary_fails, malformed.
  split; [|split; [|split; [|split]]].
  - destruct (settled (generateContent env prompt)) as [response|e]; [|reflexivity].
    destruct (JSON_parse _); reflexivity.
  - destruct (settled (generateContent env prompt)) as [response|e]; [|reflexivity].
    destruct (JSON_parse _); reflexivity.
  - destruct (settled (generateContent env prompt)) as [response|e]; [|reflexivity].
    destruct (JSON_parse _); reflexivity.
  - intros response d -> ->. split; reflexivity.
  - intros err _. cbn zeta. unfold AppCatch.loadNews_catch.
    cbn [App.data App.sources App.lastUpdated App.loading App.error].
    repeat split. destruct (message_of err) as [|c m]; eexists; split;
      try reflexivity; discriminate.
Qed.

(* ================================================================== *)
(** * The citations in the footer *)
(* ================================================================== *)

Lemma has_uri_and_title_label (hostname : jsval -> completion jsstring) (s : jsval) :
  has_uri_and_title s = true ->
  truthy (GetV s (js "uri")) = true
  /\ truthy (GetV s (js "title")) = true
  /\ Footer.label hostname s = Normal (GetV s (js "title")).
Proof.
  unfold has_uri_and_title. intros H.
  apply andb_true_iff in H. destruct H as [H Htitle].
  apply andb_true_iff in H. destruct H as [Hs Huri].
  split; [exact Huri|]. split; [exact Htitle|].
  unfold Footer.label.
  rewrite (Get_defined s (js "title")) by (intros ->; discriminate Hs).
  cbn [cbind]. rewrite Htitle. reflexivity.
Qed.

(** X15. The citations acquired from an answer of the provider are the
    [web] entries of its grounding chunks that have a non-empty uri and
    title, in their order; the footer labels each of them with its title,
    so the URL of an acquired citation is never parsed, whatever it is. *)
Theorem acquired_citations_are_labelled_by_title
  (hostname : jsval -> completion jsstring) (response : GenerateContentResponse) :
  exists l,
    sourcesOf response = JArr l
    /\ l = List.filter has_uri_and_title (List.map web (groundingChunksOf response))
    /\ Forall (fun s => truthy (GetV s (js "uri")) = true
                       /\ truthy (GetV s (js "title")) = true
                       /\ Footer.label hostname s = Normal (GetV s (js "title"))) l.
Proof.
  eexists. split; [reflexivity|]. split; [reflexivity|].
  induction (List.map web (groundingChunksOf response)) as [|s l IH];
    [constructor|].
  cbn [List.filter]. destruct (has_uri_and_title s) eqn:Hs; [|exact IH].
  constructor; [|exact IH]. exact (has_uri_and_title_label hostname s Hs).
Qed.

(* ================================================================== *)
(** * Further worked instances *)
(* ================================================================== *)


(** Five minutes after the acquisition the same pair is served. *)
Lemma acquired_answer_served_to_next_call_witness :
  let env := sample_env (Some (js "key")) None (answers sample_response) quota_exhausted in
  let w := sample_world None 1700000000000 in
  let first := Service.fetchNewsUpdates env en sample_previous w in
  let later := mkWorld (localStorage (snd first)) [] 1700000300000 [] in
  Service.fetchNewsUpdates env en [] later
  = (Normal (mkResult (sample_data "OK") sample_sources), logged served_line later).
Proof.
  intros env w first later.
  assert (Hd : storable (sample_data "OK")) by (vm_compute; repeat split).
  assert (Hs : storable (sourcesOf sample_response)) by (vm_compute; repeat split).
  destruct (acquired_answer_served_to_next_call env en sample_previous w
              sample_response (sample_data "OK")) as [H _];
    [first [assumption | vm_compute; reflexivity] ..|].
  apply H; [reflexivity | vm_compute; reflexivity].
Defined.

(** The unreadable record is served by the version with the fallback only. *)
Lemma removed_record_served_by_fallback_version_only_witness :
  let env := sample_env (Some (js "key")) None quota_exhausted quota_exhausted in
  let w := sample_world (Some sample_unreadable_record) 1700000000000 in
  fst (ServiceWithFallback.fetchNewsUpdates env en sample_previous w)
  = Normal (mkResult (JObj [(js "status", JStr (js "QUOTA_EXCEEDED"))]) JUndefined)
  /\ fst (Service.fetchNewsUpdates env en sample_previous w)
     = Normal (mkResult (FALLBACK_DATA env) (JArr [])).
Proof.
  intros env w.
  destruct (removed_record_served_by_fallback_version_only env en sample_previous w
              sample_unreadable_record
              (mkResult (JObj [(js "status", JStr (js "QUOTA_EXCEEDED"))]) JUndefined))
    as (H1 & H2 & _);
    [first [vm_compute; reflexivity | vm_compute; exact I | left; reflexivity] ..|].
  split; [exact H1 | exact H2].
Defined.

(** An answer without any choice is stored as the empty object. *)
Lemma secondary_answer_without_content_is_cached_witness :
  let http := mkHttp true 200 (js "OK") (dq "{'choices':[]}") in
  let env := sample_env None (Some (js "sk-test")) quota_exhausted (answers http) in
  let w := sample_world None 1700000000000 in
  fst (ServiceWithFallback.fetchNewsUpdates env en sample_previous w)
  = Normal (mkResult (JObj []) (JArr [])).
Proof.
  intros http env w.
  destruct (secondary_answer_without_content_is_cached env en sample_previous w
              http (JObj [(js "choices", JArr [])]) JUndefined) as (H & _);
    [first [vm_compute; reflexivity | left; reflexivity] ..|].
  exact H.
Defined.

(** After an [OK] answer the reference is the list on display. *)
Lemma reference_follows_display_witness :
  let out := App.loadNews_update (mkResult (sample_data "OK") sample_sources)
               1700000000000 App.initialState (JArr []) in
  exists st, fst out = Normal st
             /\ App.data st = sample_data "OK"
             /\ snd out = JArr [sample_highlight]
             /\ displays st (snd out).
Proof.
  assert (Hnd : List.NoDup (List.map fst
            [(js "generated_at", JStr (js "2023-11-14 22:00 UTC"));
             (js "language", JStr (js "en")); (js "status", JStr (js "OK"));
             (js "highlights", JArr [sample_highlight])])).
  { apply (NoDup_object_of_props
             [(js "generated_at", JStr (js "2023-11-14 22:00 UTC"));
              (js "language", JStr (js "en")); (js "status", JStr (js "OK"));
              (js "highlights", JArr [sample_highlight])]). }
  destruct (reference_follows_display _ [JObj [(js "uri", JStr (js "https://example.org/summit"));
                                               (js "title", JStr (js "Example"))]]
              1700000000000 App.initialState (JArr []) Hnd) as [H _].
  exact (H eq_refl).
Defined.

(** A pair without data makes the update throw. *)
Lemma loadNews_update_outcome_witness :
  App.loadNews_update (mkResult JUndefined (JArr [])) 1700000000000
    App.initialState (JArr [])
  = (Throw cannot_read, JArr []).
Proof.
  exact (proj1 (loadNews_update_outcome JUndefined (JArr []) 1700000000000
                  App.initialState (JArr [])) (or_introl eq_refl)).
Defined.

(** The record without data, 100 seconds old, is served. *)
Lemma fresh_record_without_data_is_served_witness :
  let env := sample_env (Some (js "key")) None quota_exhausted quota_exhausted in
  let w := sample_world (Some sample_record_without_data) 1700000000000 in
  Service.fetchNewsUpdates env en sample_previous w
  = (Normal (mkResult JUndefined JUndefined), logged served_line w).
Proof.
  intros env w.
  destruct (fresh_record_without_data_is_served env en sample_previous w
              sample_record_without_data
              [(js "timestamp", JNum (int 1699999900000)); (js "lang", JStr (js "en"))]
              1699999900000) as (H & _);
    [vm_compute; reflexivity ..|].
  exact H.
Defined.

(** A second headline is marked, and found again when the card is mounted. *)
Lemma read_mark_persists_witness :
  let w := mkWorld {[ NewsCard.STORAGE_KEY := sample_read_list ]} [] 1700000000000 [] in
  let w1 := snd (NewsCard.handleRead (js "Markets rally") false w) in
  NewsCard.markIfRead (js "Markets rally") false w1 = (Normal true, w1).
Proof.
  intros w w1.
  assert (Hlist : stored_read_list w = Normal [JStr (js "Summit concludes")])
    by (vm_compute; reflexivity).
  assert (Hall : Forall storable [JStr (js "Summit concludes")])
    by (constructor; [exact I | constructor]).
  exact (read_mark_persists (js "Markets rally") w _ Hlist Hall w1 false eq_refl).
Defined.

(** A stored text that is not JSON stays where it is. *)
Lemma unparseable_read_list_never_repaired_witness :
  let w := mkWorld {[ NewsCard.STORAGE_KEY := js "oops" ]} [] 1700000000000 [] in
  NewsCard.handleRead (js "Markets rally") false w
  = (Normal true, logged (mkLog LevelError [LExn unexpected_token]) w).
Proof.
  intros w.
  destruct (unparseable_read_list_never_repaired (js "Markets rally") w (js "oops")
              unexpected_token) as [H _];
    [vm_compute; reflexivity | vm_compute; reflexivity | discriminate |].
  exact H.
Defined.

(** The time of a well-formed [generated_at]. *)
Lemma header_shows_second_word_of_generated_at_witness :
  Header.updated (JStr (js "2023-11-14 22:00 UTC")) = Normal (Some (JStr (js "22:00"))).
Proof.
  exact (proj1 header_shows_second_word_of_generated_at
           (js "2023-11-14") (js "22:00") (js "UTC") eq_refl eq_refl eq_refl).
Defined.
